(** * Radiology report anonymizer: a shallow embedding of [anonymizer_functions.py]

    The engine of [src/model/anonymizer_functions.py] rewrites one working
    string with Python's [re] module.  This development embeds

    - the fragment of Python's [str] methods the engine calls,
    - the fragment of Python's [re] syntax and backtracking semantics the
      engine's patterns need (the patterns are built as strings, exactly as
      the source builds them, and parsed here),
    - the engine itself: substitution primitives, preprocessors, detectors,
      the label-chaining merger, reversion and postprocessing,

    and then states and proves the properties of the engine.

    Characters are bytes ([ascii]); the character predicates are Python's on
    the ASCII range.  The callers ([anonymize_reports.py],
    [check_model_integrity.py]) pass every report through [unidecode] first,
    so the engine only ever sees ASCII text. *)

From Stdlib Require Import Bool Arith NArith Lia List Ascii String.
From Stdlib Require Import DecimalString Decimal DecimalN DecimalPos.
Import ListNotations.
Local Open Scope list_scope.
Local Open Scope string_scope.

Set Implicit Arguments.

(* ===================================================================== *)
(** * Results and exceptions *)
(* ===================================================================== *)

(** The Python exceptions the engine can raise, and one more outcome,
    [Unmodelled], for the parts of [re] this embedding does not cover
    (back-references, flags, named groups, replacement templates with a
    backslash): no theorem is read off an [Unmodelled] outcome. *)
Inductive exn : Set :=
| ReError      (* re.error: the pattern does not compile *)
| KeyError
| IndexError
| ValueError
| TypeError
| Unmodelled.

Inductive res (A : Type) : Type :=
| Ok (a : A)
| Raise (e : exn).
Arguments Ok {A} a.
Arguments Raise {A} e.

Definition rbind {A B} (x : res A) (f : A -> res B) : res B :=
  match x with
  | Ok a => f a
  | Raise e => Raise e
  end.

(* ===================================================================== *)
(** * Characters *)
(* ===================================================================== *)

Module Char.

Definition code (c : ascii) : nat := nat_of_ascii c.

Definition between (lo hi : nat) (c : ascii) : bool :=
  (lo <=? code c)%nat && (code c <=? hi)%nat.

Definition is_digit (c : ascii) : bool := between 48 57 c.
Definition is_upper (c : ascii) : bool := between 65 90 c.
Definition is_lower (c : ascii) : bool := between 97 122 c.
Definition is_alpha (c : ascii) : bool := is_upper c || is_lower c.
Definition is_alnum (c : ascii) : bool := is_alpha c || is_digit c.

(** [\w] of [re] on [str] patterns, ASCII range. *)
Definition is_word (c : ascii) : bool := is_alnum c || (code c =? 95)%nat.

(** [str.isspace] on the ASCII range: TAB, LF, VT, FF, CR, the four
    separators FS, GS, RS, US, and the space. *)
Definition is_space (c : ascii) : bool :=
  between 9 13 c || between 28 31 c || (code c =? 32)%nat.

Definition lower (c : ascii) : ascii :=
  if is_upper c then ascii_of_nat (code c + 32) else c.
Definition upper (c : ascii) : ascii :=
  if is_lower c then ascii_of_nat (code c - 32) else c.

Definition nl : ascii := ascii_of_nat 10.

End Char.

(* ===================================================================== *)
(** * Python's [str] methods *)
(* ===================================================================== *)

Module Str.

Definition nl : string := String Char.nl EmptyString.

Fixpoint all (p : ascii -> bool) (s : string) : bool :=
  match s with
  | EmptyString => true
  | String c s' => p c && all p s'
  end.

Fixpoint any (p : ascii -> bool) (s : string) : bool :=
  match s with
  | EmptyString => false
  | String c s' => p c || any p s'
  end.

Fixpoint map (f : ascii -> ascii) (s : string) : string :=
  match s with
  | EmptyString => EmptyString
  | String c s' => String (f c) (map f s')
  end.

Fixpoint rev_append (s acc : string) : string :=
  match s with
  | EmptyString => acc
  | String c s' => rev_append s' (String c acc)
  end.

Definition rev (s : string) : string := rev_append s EmptyString.

Definition is_empty (s : string) : bool :=
  match s with EmptyString => true | _ => false end.

(** [s.lower()], [s.upper()] *)
Definition lower : string -> string := map Char.lower.
Definition upper : string -> string := map Char.upper.

(** [s.isdigit()], [s.isalpha()]: every character, and at least one. *)
Definition isdigit (s : string) : bool := negb (is_empty s) && all Char.is_digit s.
Definition isalpha (s : string) : bool := negb (is_empty s) && all Char.is_alpha s.

(** [s.isupper()]: no lowercase character and at least one uppercase one. *)
Definition isupper (s : string) : bool :=
  any Char.is_upper s && negb (any Char.is_lower s).

(** [s[:n]], [s[n:]] for [0 <= n] *)
Fixpoint take (n : nat) (s : string) : string :=
  match n, s with
  | S n', String c s' => String c (take n' s')
  | _, _ => EmptyString
  end.

Fixpoint drop (n : nat) (s : string) : string :=
  match n, s with
  | S n', String _ s' => drop n' s'
  | _, _ => s
  end.

(** [s[-n:]], [s[:-n]] for [0 < n] *)
Definition take_last (n : nat) (s : string) : string := drop (length s - n) s.
Definition drop_last (n : nat) (s : string) : string := take (length s - n) s.

(** [s[0]] and [s[-1]]: [IndexError] on the empty string. *)
Definition first (s : string) : res ascii :=
  match s with
  | EmptyString => Raise IndexError
  | String c _ => Ok c
  end.

Definition last (s : string) : res ascii := first (rev s).

Fixpoint prefixb (p s : string) : bool :=
  match p, s with
  | EmptyString, _ => true
  | String a p', String b s' => Ascii.eqb a b && prefixb p' s'
  | String _ _, EmptyString => false
  end.

(** [s.find(sub)]: the least index at which [sub] occurs. *)
Fixpoint find (sub s : string) : option nat :=
  if prefixb sub s then Some 0
  else match s with
       | EmptyString => None
       | String _ s' => option_map S (find sub s')
       end.

(** [sub in s] *)
Definition contains (sub s : string) : bool :=
  match find sub s with Some _ => true | None => false end.

(** [s.replace(old, new)]: every occurrence, left to right, without
    overlap; an empty [old] occurs before every character and at the end. *)
Fixpoint replace_fuel (fuel : nat) (old new s : string) : string :=
  match fuel with
  | O => s
  | S fuel' =>
      if prefixb old s
      then new ++ replace_fuel fuel' old new (drop (length old) s)
      else match s with
           | EmptyString => EmptyString
           | String c s' => String c (replace_fuel fuel' old new s')
           end
  end.

Fixpoint intersperse (new s : string) : string :=
  match s with
  | EmptyString => new
  | String c s' => new ++ String c (intersperse new s')
  end.

Definition replace (old new s : string) : string :=
  if is_empty old then intersperse new s
  else replace_fuel (S (length s)) old new s.

(** [sep.join(l)] *)
Fixpoint join (sep : string) (l : list string) : string :=
  match l with
  | [] => EmptyString
  | [x] => x
  | x :: l' => x ++ sep ++ join sep l'
  end.

(** [s.split(sep)] for a one-character separator. *)
Fixpoint split_char_acc (sep : ascii) (s acc : string) : list string :=
  match s with
  | EmptyString => [rev acc]
  | String c s' =>
      if Ascii.eqb c sep
      then rev acc :: split_char_acc sep s' EmptyString
      else split_char_acc sep s' (String c acc)
  end.

Definition split_char (sep : ascii) (s : string) : list string :=
  split_char_acc sep s EmptyString.

(** [s.split()]: the maximal runs of non-whitespace characters. *)
Fixpoint split_ws_acc (s acc : string) : list string :=
  match s with
  | EmptyString => if is_empty acc then [] else [rev acc]
  | String c s' =>
      if Char.is_space c
      then (if is_empty acc then split_ws_acc s' EmptyString
            else rev acc :: split_ws_acc s' EmptyString)
      else split_ws_acc s' (String c acc)
  end.

Definition split_ws (s : string) : list string := split_ws_acc s EmptyString.

(** [s.strip()] *)
Fixpoint lstrip (s : string) : string :=
  match s with
  | String c s' => if Char.is_space c then lstrip s' else s
  | EmptyString => EmptyString
  end.

Definition strip (s : string) : string := rev (lstrip (rev (lstrip s))).

(** [str(n)] for a non-negative integer. *)
Definition of_N (n : N) : string := NilEmpty.string_of_uint (N.to_uint n).

(** [int(s)] for a string of ASCII digits (the callers test [isdigit]
    first); [ValueError] otherwise. *)
Fixpoint to_N_acc (s : string) (acc : N) : res N :=
  match s with
  | EmptyString => Ok acc
  | String c s' =>
      if Char.is_digit c
      then to_N_acc s' (10 * acc + N.of_nat (Char.code c - 48))%N
      else Raise ValueError
  end.

Definition to_N (s : string) : res N :=
  if is_empty s then Raise ValueError else to_N_acc s 0%N.

(** Membership of a string in a Python list or set of strings. *)
Definition mem (s : string) (l : list string) : bool :=
  existsb (String.eqb s) l.

End Str.

(* ===================================================================== *)
(** * Python's [re]: syntax *)
(* ===================================================================== *)

Module Re.

Inductive cls : Set := Digit | Word | Space.

Inductive citem : Set :=
| CChar (c : ascii)
| CRange (lo hi : ascii)
| CClass (k : cls) (neg : bool).

(** The compiled form of a pattern.  [RSet neg items] is a bracketed set
    (or a class escape outside brackets), [RRep r lo hi greedy] is
    [r{lo,hi}] with [hi = None] for no upper bound, [RGroup i r] is the
    [i]-th capturing group, [RLookbehind neg w r] looks [w] characters
    back. *)
Inductive regex : Set :=
| REps
| RChar (c : ascii)
| RAny
| RSet (neg : bool) (items : list citem)
| RSeq (r1 r2 : regex)
| RAlt (r1 r2 : regex)
| RRep (r : regex) (lo : nat) (hi : option nat) (greedy : bool)
| RGroup (i : nat) (r : regex)
| RLookahead (neg : bool) (r : regex)
| RLookbehind (neg : bool) (w : nat) (r : regex)
| RWordB (neg : bool)
| RBol
| REol
| REnd.

(** ** [re.escape]

    Python 3.7 and later put a backslash before the characters of
    [_special_chars_map] and leave every other character alone. *)
Definition special_chars : string :=
  "()[]{}?*+-|^$\.&~# " ++
  String (ascii_of_nat 9) (String (ascii_of_nat 10) (String (ascii_of_nat 13)
    (String (ascii_of_nat 11) (String (ascii_of_nat 12) EmptyString)))).

Definition is_special (c : ascii) : bool := Str.any (Ascii.eqb c) special_chars.

Fixpoint escape (s : string) : string :=
  match s with
  | EmptyString => EmptyString
  | String c s' =>
      if is_special c then String "\" (String c (escape s'))
      else String c (escape s')
  end.

(** ** The parser

    A recursive-descent parser for the syntax the engine's patterns can
    contain.  It threads the number of the next capturing group.  A
    pattern Python rejects gives [ReError]; syntax outside the embedded
    fragment gives [Unmodelled]. *)

(** Width of what a pattern consumes, as [sre_parse]'s [getwidth]: the
    least width and the greatest ([None]: unbounded). *)
Definition omul (a : option nat) (b : option nat) : option nat :=
  match a, b with
  | Some 0, _ | _, Some 0 => Some 0
  | Some x, Some y => Some (x * y)
  | _, _ => None
  end.

Definition oadd (a b : option nat) : option nat :=
  match a, b with
  | Some x, Some y => Some (x + y)
  | _, _ => None
  end.

Definition omax (a b : option nat) : option nat :=
  match a, b with
  | Some x, Some y => Some (Nat.max x y)
  | _, _ => None
  end.

Fixpoint getwidth (r : regex) : nat * option nat :=
  match r with
  | REps => (0, Some 0)
  | RChar _ | RAny | RSet _ _ => (1, Some 1)
  | RSeq r1 r2 =>
      let '(a1, b1) := getwidth r1 in
      let '(a2, b2) := getwidth r2 in
      (a1 + a2, oadd b1 b2)
  | RAlt r1 r2 =>
      let '(a1, b1) := getwidth r1 in
      let '(a2, b2) := getwidth r2 in
      (Nat.min a1 a2, omax b1 b2)
  | RRep r lo hi _ =>
      let '(a, b) := getwidth r in
      (a * lo, omul b hi)
  | RGroup _ r => getwidth r
  | RLookahead _ _ | RLookbehind _ _ _ | RWordB _ | RBol | REol | REnd => (0, Some 0)
  end.

Definition fixed_width (r : regex) : option nat :=
  match getwidth r with
  | (a, Some b) => if (a =? b)%nat then Some a else None
  | (_, None) => None
  end.

(** The character an escape stands for inside and outside a set. *)
Definition simple_escape (c : ascii) : option ascii :=
  if Ascii.eqb c "n" then Some (ascii_of_nat 10)
  else if Ascii.eqb c "t" then Some (ascii_of_nat 9)
  else if Ascii.eqb c "r" then Some (ascii_of_nat 13)
  else if Ascii.eqb c "f" then Some (ascii_of_nat 12)
  else if Ascii.eqb c "v" then Some (ascii_of_nat 11)
  else if Ascii.eqb c "a" then Some (ascii_of_nat 7)
  else None.

Definition class_escape (c : ascii) : option citem :=
  if Ascii.eqb c "d" then Some (CClass Digit false)
  else if Ascii.eqb c "D" then Some (CClass Digit true)
  else if Ascii.eqb c "w" then Some (CClass Word false)
  else if Ascii.eqb c "W" then Some (CClass Word true)
  else if Ascii.eqb c "s" then Some (CClass Space false)
  else if Ascii.eqb c "S" then Some (CClass Space true)
  else None.

(** An escape outside a set: the text after the backslash. *)
Definition parse_escape (s : string) : res (regex * string) :=
  match s with
  | EmptyString => Raise ReError
  | String c s' =>
      match class_escape c with
      | Some it => Ok (RSet false [it], s')
      | None =>
          match simple_escape c with
          | Some d => Ok (RChar d, s')
          | None =>
              if Ascii.eqb c "b" then Ok (RWordB false, s')
              else if Ascii.eqb c "B" then Ok (RWordB true, s')
              else if Ascii.eqb c "A" then Ok (RBol, s')
              else if Ascii.eqb c "Z" then Ok (REnd, s')
              else if Char.is_digit c then Raise Unmodelled
              else if Ascii.eqb c "x" || Ascii.eqb c "u" || Ascii.eqb c "U"
                      || Ascii.eqb c "N" then Raise Unmodelled
              else if Char.is_alpha c then Raise ReError
              else if (128 <=? Char.code c)%nat then Raise Unmodelled
              else Ok (RChar c, s')
          end
      end
  end.

(** One member of a set, with the text after it. *)
Definition parse_set_atom (s : string) : res (citem * string) :=
  match s with
  | EmptyString => Raise ReError
  | String c s' =>
      if Ascii.eqb c "\" then
        match s' with
        | EmptyString => Raise ReError
        | String e s'' =>
            match class_escape e with
            | Some it => Ok (it, s'')
            | None =>
                match simple_escape e with
                | Some d => Ok (CChar d, s'')
                | None =>
                    if Ascii.eqb e "b" then Ok (CChar (ascii_of_nat 8), s'')
                    else if Char.is_digit e then Raise Unmodelled
                    else if Ascii.eqb e "x" || Ascii.eqb e "u" || Ascii.eqb e "U"
                            || Ascii.eqb e "N" then Raise Unmodelled
                    else if Char.is_alpha e then Raise ReError
                    else if (128 <=? Char.code e)%nat then Raise Unmodelled
                    else Ok (CChar e, s'')
                end
            end
        end
      else Ok (CChar c, s')
  end.

(** The members of a set up to the closing bracket.  [first] is true at
    the first member, where a closing bracket stands for itself. *)
Fixpoint parse_set_items (fuel : nat) (first : bool) (s : string)
  : res (list citem * string) :=
  match fuel with
  | O => Raise Unmodelled
  | S fuel' =>
      match s with
      | EmptyString => Raise ReError
      | String c s' =>
          if Ascii.eqb c "]" && negb first then Ok ([], s')
          else
            rbind (parse_set_atom s) (fun '(lo, s1) =>
              match s1 with
              | String "-" (String d s2) =>
                  if Ascii.eqb d "]" then
                    (* a hyphen before the closing bracket stands for itself *)
                    Ok ([lo; CChar "-"], s2)
                  else
                    rbind (parse_set_atom (String d s2)) (fun '(hi, s3) =>
                      match lo, hi with
                      | CChar a, CChar b =>
                          if (Char.code b <? Char.code a)%nat then Raise ReError
                          else rbind (parse_set_items fuel' false s3)
                                 (fun '(its, s4) => Ok (CRange a b :: its, s4))
                      | _, _ => Raise ReError
                      end)
              | _ =>
                  rbind (parse_set_items fuel' false s1)
                    (fun '(its, s2) => Ok (lo :: its, s2))
              end)
      end
  end.

Definition parse_set (s : string) : res (regex * string) :=
  let '(neg, s0) :=
    match s with
    | String "^" s' => (true, s')
    | _ => (false, s)
    end in
  rbind (parse_set_items (S (length s0)) true s0)
    (fun '(its, rest) => Ok (RSet neg its, rest)).

(** A run of digits at the head of [s]. *)
Fixpoint span_digits (s : string) : string * string :=
  match s with
  | String c s' =>
      if Char.is_digit c
      then let '(d, r) := span_digits s' in (String c d, r)
      else (EmptyString, s)
  | EmptyString => (EmptyString, EmptyString)
  end.

Definition nat_of_digits (d : string) : nat :=
  match Str.to_N d with Ok n => N.to_nat n | Raise _ => 0 end.

(** The text after an opening brace, read as [m}], [m,}], [,n}] or
    [m,n}]; [None] when it is none of these (the brace is then a literal
    character). *)
Definition parse_braces (s : string) : option (nat * option nat * string) :=
  let '(d1, r1) := span_digits s in
  match r1 with
  | String "}" r2 =>
      if Str.is_empty d1 then None
      else Some (nat_of_digits d1, Some (nat_of_digits d1), r2)
  | String "," r2 =>
      let '(d2, r3) := span_digits r2 in
      match r3 with
      | String "}" r4 =>
          Some (if Str.is_empty d1 then 0 else nat_of_digits d1,
                if Str.is_empty d2 then None else Some (nat_of_digits d2),
                r4)
      | _ => None
      end
  | _ => None
  end.

(** The quantifier at the head of [s], if any. *)
Definition parse_quant (s : string) : option (nat * option nat * string) :=
  match s with
  | String "*" r => Some (0, None, r)
  | String "+" r => Some (1, None, r)
  | String "?" r => Some (0, Some 1, r)
  | String "{" r => parse_braces r
  | _ => None
  end.

Definition repeatable (r : regex) : bool :=
  match r with
  | RWordB _ | RBol | REol | REnd => false
  | _ => true
  end.

(** An atom followed by its quantifier. *)
Definition quantify (a : regex) (s : string) : res (regex * string) :=
  match parse_quant s with
  | None => Ok (a, s)
  | Some (lo, hi, r) =>
      if negb (repeatable a) then Raise ReError
      else if match hi with Some h => (h <? lo)%nat | None => false end
      then Raise ReError
      else
        let '(greedy, r') :=
          match r with
          | String "?" r1 => (false, r1)
          | _ => (true, r)
          end in
        match r' with
        | String "+" _ => Raise Unmodelled   (* possessive, or an error: by version *)
        | _ =>
            match parse_quant r' with
            | Some _ => Raise ReError        (* multiple repeat *)
            | None => Ok (RRep a lo hi greedy, r')
            end
        end
  end.

Fixpoint parse_alt (fuel : nat) (s : string) (g : nat) {struct fuel}
  : res (regex * string * nat) :=
  match fuel with
  | O => Raise Unmodelled
  | S fuel' =>
      rbind (parse_seq fuel' s g) (fun '(r1, s1, g1) =>
        match s1 with
        | String "|" s2 =>
            rbind (parse_alt fuel' s2 g1) (fun '(r2, s3, g2) =>
              Ok (RAlt r1 r2, s3, g2))
        | _ => Ok (r1, s1, g1)
        end)
  end

with parse_seq (fuel : nat) (s : string) (g : nat) {struct fuel}
  : res (regex * string * nat) :=
  match fuel with
  | O => Raise Unmodelled
  | S fuel' =>
      match s with
      | EmptyString => Ok (REps, s, g)
      | String "|" _ => Ok (REps, s, g)
      | String ")" _ => Ok (REps, s, g)
      | _ =>
          rbind (parse_atom fuel' s g) (fun '(a, s1, g1) =>
            rbind (quantify a s1) (fun '(q, s2) =>
              rbind (parse_seq fuel' s2 g1) (fun '(r, s3, g2) =>
                Ok (RSeq q r, s3, g2))))
      end
  end

with parse_atom (fuel : nat) (s : string) (g : nat) {struct fuel}
  : res (regex * string * nat) :=
  match fuel with
  | O => Raise Unmodelled
  | S fuel' =>
      let group (body : string) (g0 : nat) (wrap : regex -> res regex) :=
        rbind (parse_alt fuel' body g0) (fun '(r, s1, g1) =>
          match s1 with
          | String ")" s2 => rbind (wrap r) (fun r' => Ok (r', s2, g1))
          | _ => Raise ReError      (* missing ), unterminated subpattern *)
          end) in
      let behind (neg : bool) (r : regex) :=
        match fixed_width r with
        | Some w => Ok (RLookbehind neg w r)
        | None => Raise ReError     (* look-behind requires fixed-width pattern *)
        end in
      match s with
      | EmptyString => Raise ReError
      | String "." s' => Ok (RAny, s', g)
      | String "^" s' => Ok (RBol, s', g)
      | String "$" s' => Ok (REol, s', g)
      | String "*" _ | String "+" _ | String "?" _ => Raise ReError (* nothing to repeat *)
      | String "{" s' =>
          match parse_braces s' with
          | Some _ => Raise ReError  (* nothing to repeat *)
          | None => Ok (RChar "{", s', g)
          end
      | String "\" s' =>
          rbind (parse_escape s') (fun '(r, s1) => Ok (r, s1, g))
      | String "[" s' =>
          rbind (parse_set s') (fun '(r, s1) => Ok (r, s1, g))
      | String "(" (String "?" s') =>
          match s' with
          | String ":" b => group b g (fun r => Ok r)
          | String "=" b => group b g (fun r => Ok (RLookahead false r))
          | String "!" b => group b g (fun r => Ok (RLookahead true r))
          | String "<" (String "=" b) => group b g (behind false)
          | String "<" (String "!" b) => group b g (behind true)
          | _ => Raise Unmodelled
          end
      | String "(" s' => group s' (S g) (fun r => Ok (RGroup g r))
      | String c s' =>
          if (128 <=? Char.code c)%nat then Raise Unmodelled
          else Ok (RChar c, s', g)
      end
  end.

(** A compiled pattern: its form and the number of its capturing groups. *)
Record pattern : Set := { form : regex; groups : nat }.

(** [re.compile] *)
Definition compile (p : string) : res pattern :=
  rbind (parse_alt (4 * length p + 8) p 1) (fun '(r, rest, g) =>
    match rest with
    | EmptyString => Ok {| form := r; groups := g - 1 |}
    | _ => Raise ReError            (* unbalanced parenthesis *)
    end).

(* ------------------------------------------------------------------- *)
(** ** Matching

    The matcher is the backtracking matcher of CPython's [_sre] in
    continuation-passing style: [m r k s] matches [r] at the cursor [s]
    and hands every way of doing so, in Python's order of preference, to
    the continuation [k], until [k] accepts one. *)

(** A cursor in the subject: the text before it (nearest character
    first), the text after it, its offset, and the groups captured so
    far. *)
Record mstate : Set := MState {
  bef : string;
  aft : string;
  pos : nat;
  caps : list (nat * string)
}.

Definition set_caps (c : list (nat * string)) (s : mstate) : mstate :=
  MState (bef s) (aft s) (pos s) c.

Definition set_cap (i : nat) (v : string) (s : mstate) : mstate :=
  set_caps ((i, v) :: caps s) s.

Fixpoint get_cap (i : nat) (c : list (nat * string)) : option string :=
  match c with
  | [] => None
  | (j, v) :: c' => if (i =? j)%nat then Some v else get_cap i c'
  end.

(** Move the cursor [n] characters back; [None] at the start of the
    subject. *)
Fixpoint back (n : nat) (s : mstate) : option mstate :=
  match n with
  | O => Some s
  | S n' =>
      match bef s with
      | EmptyString => None
      | String c b' => back n' (MState b' (String c (aft s)) (pos s - 1) (caps s))
      end
  end.

Definition in_cls (k : cls) (c : ascii) : bool :=
  match k with
  | Digit => Char.is_digit c
  | Word => Char.is_word c
  | Space => Char.is_space c
  end.

Definition in_item (c : ascii) (it : citem) : bool :=
  match it with
  | CChar d => Ascii.eqb c d
  | CRange lo hi => Char.between (Char.code lo) (Char.code hi) c
  | CClass k neg => xorb neg (in_cls k c)
  end.

Definition in_set (neg : bool) (items : list citem) (c : ascii) : bool :=
  xorb neg (existsb (in_item c) items).

(** One character that satisfies [p]. *)
Definition one (p : ascii -> bool) (k : mstate -> option mstate) (s : mstate)
  : option mstate :=
  match aft s with
  | String c a' =>
      if p c then k (MState (String c (bef s)) a' (S (pos s)) (caps s)) else None
  | EmptyString => None
  end.

Definition head_is (p : ascii -> bool) (s : string) : bool :=
  match s with
  | String c _ => p c
  | EmptyString => false
  end.

(** [\b]: exactly one of the two characters around the cursor is a word
    character. *)
Definition at_boundary (s : mstate) : bool :=
  xorb (head_is Char.is_word (bef s)) (head_is Char.is_word (aft s)).

(** [$] without [re.MULTILINE]: the end, or just before a final newline. *)
Definition at_eol (s : mstate) : bool :=
  match aft s with
  | EmptyString => true
  | String c EmptyString => Ascii.eqb c Char.nl
  | _ => false
  end.

Definition may_repeat (count : nat) (hi : option nat) : bool :=
  match hi with
  | None => true
  | Some h => (count <? h)%nat
  end.

Definition same_pos (last : option nat) (s : mstate) : bool :=
  match last with
  | Some p => (p =? pos s)%nat
  | None => false
  end.

Definition orelse {A} (x : option A) (y : unit -> option A) : option A :=
  match x with
  | Some a => Some a
  | None => y tt
  end.

(** The loop of a repetition [r{lo,hi}] over the matcher [body] of [r].
    [count] repetitions are done; [last] is the offset at which the
    previous optional repetition began (CPython's zero-width-match
    protection: no further repetition after one that consumed nothing). *)
Fixpoint rep_loop (body : (mstate -> option mstate) -> mstate -> option mstate)
  (lo : nat) (hi : option nat) (greedy : bool) (k : mstate -> option mstate)
  (fuel count : nat) (last : option nat) (s : mstate) {struct fuel} : option mstate :=
  match fuel with
  | O => None
  | S fuel' =>
      if (count <? lo)%nat
      then body (rep_loop body lo hi greedy k fuel' (S count) last) s
      else
        let more (_ : unit) :=
          if may_repeat count hi && negb (same_pos last s)
          then body (rep_loop body lo hi greedy k fuel' (S count) (Some (pos s))) s
          else None in
        if greedy then orelse (more tt) (fun _ => k s)
        else orelse (k s) more
  end.

Fixpoint m (r : regex) (k : mstate -> option mstate) (s : mstate) {struct r}
  : option mstate :=
  match r with
  | REps => k s
  | RChar c => one (Ascii.eqb c) k s
  | RAny => one (fun c => negb (Ascii.eqb c Char.nl)) k s
  | RSet neg items => one (in_set neg items) k s
  | RSeq r1 r2 => m r1 (m r2 k) s
  | RAlt r1 r2 => orelse (m r1 k s) (fun _ => m r2 k s)
  | RRep r0 lo hi greedy =>
      rep_loop (m r0) lo hi greedy k (lo + length (aft s) + 2) 0 None s
  | RGroup i r0 =>
      m r0 (fun e => k (set_cap i (Str.take (pos e - pos s) (aft s)) e)) s
  | RLookahead neg r0 =>
      match m r0 (fun e => Some e) s with
      | Some e => if neg then None else k (set_caps (caps e) s)
      | None => if neg then k s else None
      end
  | RLookbehind neg w r0 =>
      match back w s with
      | None => if neg then k s else None
      | Some s0 =>
          match m r0 (fun e => if (pos e =? pos s)%nat then Some e else None) s0 with
          | Some e => if neg then None else k (set_caps (caps e) s)
          | None => if neg then k s else None
          end
      end
  | RWordB neg => if xorb neg (at_boundary s) then k s else None
  | RBol => if (pos s =? 0)%nat then k s else None
  | REol => if at_eol s then k s else None
  | REnd => if Str.is_empty (aft s) then k s else None
  end.

(** One match object: the unmatched text skipped before the match, the
    matched text, and the captured groups. *)
Record found : Set := Found {
  skipped : string;
  matched : string;
  captured : list (nat * string)
}.

(** The leftmost match at or after the cursor, and the cursor after it.
    With [must_advance], an empty match at the cursor itself is refused
    (what [_sre] does after an empty match). *)
Fixpoint search_from (r : regex) (b a : string) (p : nat) (must_advance : bool)
  (skip : string) {struct a} : option (found * mstate) :=
  let s := MState b a p [] in
  match m r (fun e => if must_advance && (pos e =? p)%nat then None else Some e) s with
  | Some e => Some (Found (Str.rev skip) (Str.take (pos e - p) a) (caps e), e)
  | None =>
      match a with
      | EmptyString => None
      | String c a' => search_from r (String c b) a' (S p) false (String c skip)
      end
  end.

(** The successive matches of [finditer], at most [limit] of them when
    [limit] is given, and the text after the last one. *)
Fixpoint scan (r : regex) (fuel : nat) (limit : option nat) (b a : string) (p : nat)
  (must_advance : bool) : list found * string :=
  match fuel, limit with
  | O, _ | _, Some O => ([], a)
  | S fuel', _ =>
      match search_from r b a p must_advance EmptyString with
      | None => ([], a)
      | Some (f, e) =>
          let '(fs, tail) :=
            scan r fuel' (option_map pred limit) (bef e) (aft e) (pos e)
              (Str.is_empty (matched f)) in
          (f :: fs, tail)
      end
  end.

Definition matches (r : regex) (limit : option nat) (s : string) : list found * string :=
  scan r (2 * length s + 3) limit EmptyString s 0 false.

(* ------------------------------------------------------------------- *)
(** ** The functions of the module [re] *)

(** [count] of [re.sub]: [0] stands for no limit. *)
Definition limit_of (count : nat) : option nat :=
  match count with O => None | _ => Some count end.

(** A replacement string with a backslash is a template. *)
Definition plain_repl (repl : string) : bool :=
  negb (Str.any (Ascii.eqb "\") repl).

Fixpoint splice (repl : string) (fs : list found) (tail : string) : string :=
  match fs with
  | [] => tail
  | f :: fs' => skipped f ++ repl ++ splice repl fs' tail
  end.

(** [re.sub(pattern, repl, string, count)] *)
Definition sub (p repl s : string) (count : nat) : res string :=
  rbind (compile p) (fun c =>
    if plain_repl repl then
      let '(fs, tail) := matches (form c) (limit_of count) s in
      Ok (splice repl fs tail)
    else Raise Unmodelled).

(** What [findall] lists for one match: the match itself when the pattern
    has no group, the group when it has one (empty when the group took no
    part in the match). *)
Definition item_of (c : pattern) (f : found) : res string :=
  match groups c with
  | 0 => Ok (matched f)
  | 1 => Ok (match get_cap 1 (captured f) with Some v => v | None => EmptyString end)
  | _ => Raise Unmodelled
  end.

Fixpoint items_of (c : pattern) (fs : list found) : res (list string) :=
  match fs with
  | [] => Ok []
  | f :: fs' =>
      rbind (item_of c f) (fun x =>
        rbind (items_of c fs') (fun xs => Ok (x :: xs)))
  end.

(** [re.findall(pattern, string)] *)
Definition findall (p s : string) : res (list string) :=
  rbind (compile p) (fun c => items_of c (fst (matches (form c) None s))).

(** [re.finditer(pattern, string)] as the list of
    [(match.start(), match.end(), match.group())]. *)
Fixpoint spans (off : nat) (fs : list found) : list (nat * nat * string) :=
  match fs with
  | [] => []
  | f :: fs' =>
      let st := off + length (skipped f) in
      let en := st + length (matched f) in
      (st, en, matched f) :: spans en fs'
  end.

Definition finditer (p s : string) : res (list (nat * nat * string)) :=
  rbind (compile p) (fun c => Ok (spans 0 (fst (matches (form c) None s)))).

(** [re.search(pattern, string)]: [(match.start(), match.group())]. *)
Definition search (p s : string) : res (option (nat * string)) :=
  rbind (compile p) (fun c =>
    match search_from (form c) EmptyString s 0 false EmptyString with
    | Some (f, _) => Ok (Some (length (skipped f), matched f))
    | None => Ok None
    end).

(** [re.split(pattern, string)] for a pattern with at most one group. *)
Fixpoint pieces (c : pattern) (fs : list found) (tail : string) : res (list string) :=
  match fs with
  | [] => Ok [tail]
  | f :: fs' =>
      rbind (pieces c fs' tail) (fun rest =>
        match groups c with
        | 0 => Ok (skipped f :: rest)
        | 1 =>
            match get_cap 1 (captured f) with
            | Some v => Ok (skipped f :: v :: rest)
            | None => Raise Unmodelled   (* a [None] in the list *)
            end
        | _ => Raise Unmodelled
        end)
  end.

Definition split (p s : string) : res (list string) :=
  rbind (compile p) (fun c =>
    let '(fs, tail) := matches (form c) None s in pieces c fs tail).

End Re.

(* ===================================================================== *)
(** * The engine: state *)
(* ===================================================================== *)

From Stdlib Require Import ZArith.

(** ** Lookup resources

    The JSON files under [config/] are not part of the source tree; the
    engine takes their content as data.  [config] is what [__init__] loads,
    [lookups] is what it keeps after normalising. *)

Record word_lists : Set := WordLists {
  full : list string;
  abbreviated : list string
}.

(** The keys of a JSON object with the two entries [full] and
    [abbreviated], as iterating the Python dict yields them. *)
Definition word_lists_keys (_ : word_lists) : list string := ["full"; "abbreviated"].

Record cue_lists : Set := CueLists {
  negative_lookbehinds_dates : list string;
  negative_lookaheads_dates : list string;
  negative_lookbehinds_times : list string;
  negative_lookaheads_times : list string;
  positive_lookbehinds_phone_numbers : list string;
  positive_lookbehinds_person_names : list string;
  positive_lookaheads_person_names : list string;
  positive_lookbehinds_locations : list string
}.

Record config : Set := Config {
  domains_json : list (string * bool);            (* domains.json *)
  whitelists_json : list (string * word_lists);   (* whitelists.json *)
  dates_days : word_lists;                        (* dates_lookup_lists.json *)
  dates_months : word_lists;
  locations_dutch_cities : list string;           (* locations_lookup_lists.json *)
  names_family_names : list string;               (* names_lookup_lists.json *)
  names_first_names : list string;
  titles_before_json : list word_lists;           (* titles_lookup_lists.json *)
  titles_after_json : list word_lists;
  cues_json : cue_lists;                          (* cue_lists.json *)
  recist_begin_word : string;                     (* recist_table_delimiters.json *)
  recist_end_word : string
}.

Record lookups : Set := Lookups {
  whitelist_full : list string;
  whitelist_abbreviated : list string;
  whitelist : list string;
  entities_to_anonymize : list string;
  days : list string;
  days_abbreviated : list string;
  months : list string;
  months_abbreviated : list string;
  dutch_cities : list string;
  family_names : list string;
  first_names : list string;
  titles_before : list word_lists;
  titles_after : list word_lists;
  cues : cue_lists;
  recist_begin : string;
  recist_end : string
}.

(** ** Mutable state *)

(** One annotation: the text, the spans [(start, end, tag)], and the
    metadata [add_metadata] attaches. *)
Record annotation : Set := Annotation {
  ann_text : string;
  ann_labels : list (Z * Z * string);
  ann_meta : option (list (string * string))
}.

Record state : Set := State {
  counter : N;
  replace_dict : list (string * string);
  original_report : string;
  annotations : list annotation
}.

(** A Python [dict] keeps its keys in insertion order; assigning to a key
    it already has keeps the key's place. *)
Module Dict.

Fixpoint get (k : string) (d : list (string * string)) : option string :=
  match d with
  | [] => None
  | (k', v) :: d' => if String.eqb k k' then Some v else get k d'
  end.

Fixpoint set (k v : string) (d : list (string * string)) : list (string * string) :=
  match d with
  | [] => [(k, v)]
  | (k', v') :: d' =>
      if String.eqb k k' then (k', v) :: d' else (k', v') :: set k v d'
  end.

Definition keys (d : list (string * string)) : list string := List.map fst d.

End Dict.

(** ** The monad of the engine's methods

    A method reads and writes the engine's fields and may raise; an
    exception leaves the fields as they were when it was raised. *)

Definition M (A : Type) : Type := state -> res A * state.

Definition ret {A} (a : A) : M A := fun st => (Ok a, st).

Definition bind {A B} (c : M A) (f : A -> M B) : M B :=
  fun st =>
    match c st with
    | (Ok a, st') => f a st'
    | (Raise e, st') => (Raise e, st')
    end.

Definition lift {A} (r : res A) : M A := fun st => (r, st).

Declare Scope engine_scope.
Delimit Scope engine_scope with engine.
Notation "x <- c ;; k" := (bind c (fun x => k))
  (at level 61, c at next level, right associativity) : engine_scope.
Notation "c ;; k" := (bind c (fun _ => k))
  (at level 61, right associativity) : engine_scope.
Notation "' p <- c ;; k" := (bind c (fun x => let 'p := x in k))
  (at level 61, p pattern, c at next level, right associativity) : engine_scope.
Local Open Scope engine_scope.

Definition get_counter : M N := fun st => (Ok (counter st), st).

(** [self.replace_dict[t_id] = v; self.counter += 1] *)
Definition record (t_id v : string) : M unit :=
  fun st =>
    (Ok tt,
     State (counter st + 1) (Dict.set t_id v (replace_dict st))
           (original_report st) (annotations st)).

(** [self.replace_dict[k]] *)
Definition lookup (k : string) : M string :=
  fun st =>
    match Dict.get k (replace_dict st) with
    | Some v => (Ok v, st)
    | None => (Raise KeyError, st)
    end.

(** [when c f report]: [if c: report = f(report)]. *)
Definition when (c : bool) (f : string -> M string) (report : string) : M string :=
  if c then f report else ret report.

(* ===================================================================== *)
(** * The engine: substitution primitives *)
(* ===================================================================== *)

(** [t_id = re.sub("\$|([0-9]+)", str(self.counter), t_id)] *)
Definition stamp (t_id : string) : M string :=
  c <- get_counter ;;
  lift (Re.sub "\$|([0-9]+)" (Str.of_N c) t_id 0).

(** The loop all primitives share: for every match found beforehand, stamp
    the label, replace the first remaining occurrence of the pattern rebuilt
    from the match, and record the match under the label. *)
Fixpoint replace_each (pat : string -> string) (matches : list string)
  (report_temp t_id : string) : M string :=
  match matches with
  | [] => ret report_temp
  | mt :: rest =>
      t_id <- stamp t_id ;;
      report_temp <- lift (Re.sub (pat mt) t_id report_temp 1) ;;
      record t_id mt ;;
      replace_each pat rest report_temp t_id
  end.

Definition replace_with (pat : string -> string) (report_temp input_text t_id : string)
  : M string :=
  matches <- lift (Re.findall (pat input_text) report_temp) ;;
  replace_each pat matches report_temp t_id.

(** Replace string in [report_temp] (not attached to hyphen or slashes or
    underscores). *)
Definition pat_text (x : string) : string :=
  "\b" ++ "(?<!/)(?<!-)(?<!_)" ++ Re.escape x ++ "\b" ++ "(?!/)(?!-)(?!_)".

Definition replace_text : string -> string -> string -> M string :=
  replace_with pat_text.

(** The pattern is [re.escape(input_text)] alone. *)
Definition replace_text_no_escape : string -> string -> string -> M string :=
  replace_with Re.escape.

(** No word boundary at the end (for strings that end with a dot). *)
Definition pat_end_dot (x : string) : string := "\b" ++ Re.escape x.

Definition replace_text_end_dot : string -> string -> string -> M string :=
  replace_with pat_end_dot.

Definition replace_text_all_end_dot : string -> string -> string -> M string :=
  replace_with pat_end_dot.

(** Initials that are not preceded or followed by a hyphen.  The exception
    pattern is built from the abbreviated whitelist, unescaped. *)
Definition exception_regex (lk : lookups) : string :=
  "(?<!" ++ Str.join ".)(?<!" (whitelist_abbreviated lk) ++ ".)".

Definition pat_no_hyphen_dot (lk : lookups) (x : string) : string :=
  "\b" ++ "(?<!-)" ++ exception_regex lk ++ Re.escape x ++ "(?!-)".

Definition pat_no_hyphen (lk : lookups) (x : string) : string :=
  "\b" ++ "(?<!-)" ++ exception_regex lk ++ Re.escape x ++ "\b" ++ "(?!-)".

Definition replace_text_no_hyphen (lk : lookups) (report_temp input_text t_id : string)
  : M string :=
  last <- lift (Str.last input_text) ;;
  if Ascii.eqb last "."
  then replace_with (pat_no_hyphen_dot lk) report_temp input_text t_id
  else replace_with (pat_no_hyphen lk) report_temp input_text t_id.

(** Exception-guarded replacement. *)
Definition capitals (l : list string) : list string :=
  List.map Str.upper (List.filter Str.isalpha l).

Definition full_lookbehind (l : list string) : string :=
  String.concat ""
    (List.map (fun e => "(?<!" ++ e ++ " )" ++ "(?<!" ++ e ++ " [(])") (l ++ capitals l)%list).

Definition full_lookahead (l : list string) : string :=
  String.concat "" (List.map (fun e => "(?! " ++ e ++ ")") (l ++ capitals l)%list).

Definition pat_exceptions (behind ahead x : string) : string :=
  "\b" ++ "(?<!/)(?<!-)(?<!_)" ++ behind ++ Re.escape x ++ ahead
       ++ "(?!/)(?!-)(?!_)" ++ "\b".

(** [s.index(sub)] after the test [sub in s]. *)
Definition index_of (sub s : string) : res Z :=
  match Str.find sub s with
  | Some i => Ok (Z.of_nat i)
  | None => Raise ValueError
  end.

Definition table_indices (lk : lookups) (recist : bool) (report_temp : string)
  : res (Z * Z) :=
  let low := Str.lower report_temp in
  if recist && Str.contains (recist_begin lk) low then
    rbind (index_of (recist_begin lk) low) (fun b =>
      if Str.contains (recist_end lk) low
      then rbind (index_of (recist_end lk) low) (fun e => Ok (b, e))
      else Ok (b, Z.of_nat (length report_temp) - 1)%Z)
  else Ok (Z.of_nat (length report_temp), (-1)%Z).

Fixpoint replace_each_outside (pat : string -> string) (begin_table end_table : Z)
  (matches : list (nat * nat * string)) (report_temp t_id : string) : M string :=
  match matches with
  | [] => ret report_temp
  | (start_idx, end_idx, match_value) :: rest =>
      if ((end_table <? Z.of_nat start_idx) || (Z.of_nat end_idx <? begin_table))%Z
      then
        t_id <- stamp t_id ;;
        report_temp <- lift (Re.sub (pat match_value) t_id report_temp 1) ;;
        record t_id match_value ;;
        replace_each_outside pat begin_table end_table rest report_temp t_id
      else replace_each_outside pat begin_table end_table rest report_temp t_id
  end.

Definition replace_text_with_exceptions (lk : lookups) (report_temp input_text : string)
  (lookbehind_exception_strings lookahead_exception_strings : list string)
  (t_id : string) (recist : bool) : M string :=
  let pat := pat_exceptions (full_lookbehind lookbehind_exception_strings)
                            (full_lookahead lookahead_exception_strings) in
  '(begin_table, end_table) <- lift (table_indices lk recist report_temp) ;;
  matches <- lift (Re.finditer (pat input_text) report_temp) ;;
  replace_each_outside pat begin_table end_table matches report_temp t_id.

(** Replace person names: the pattern is given, the replaced text is the
    escaped match. *)
Definition replace_text_persons (report_temp pattern t_id : string) : M string :=
  matches <- lift (Re.findall pattern report_temp) ;;
  replace_each Re.escape matches report_temp t_id.

(* ===================================================================== *)
(** * The engine: construction, cleaning, tokenizing *)
(* ===================================================================== *)

(** [unidecode] is the identity on ASCII text. *)
Definition unidecode (s : string) : string := s.

(** [process_family_names]: names are lowercased; an entry ["Last, First"]
    gives both orders; names of a single letter are removed. *)
Definition expand_family_name (i : string) : list string :=
  match Str.split_char "," (Str.lower i) with
  | i0 :: i1 :: _ =>
      [Str.join " " [Str.strip i1; Str.strip i0];
       Str.join " " [Str.strip i0; Str.strip i1]]
  | [i0] => [i0]
  | [] => []
  end.

Definition process_family_names (family_names : list string) : list string :=
  List.map unidecode
    (List.filter (fun x => (1 <? length (unidecode x))%nat)
       (List.flat_map expand_family_name family_names)).

Fixpoint lookup_domain (d : string) (w : list (string * word_lists)) : res word_lists :=
  match w with
  | [] => Raise KeyError
  | (k, v) :: w' => if String.eqb d k then Ok v else lookup_domain d w'
  end.

(** The whitelists of the enabled domains, full and abbreviated. *)
Fixpoint enabled_whitelists (doms : list (string * bool)) (w : list (string * word_lists))
  : res (list string * list string) :=
  match doms with
  | [] => Ok ([], [])
  | (domain, enabled) :: doms' =>
      if enabled then
        rbind (lookup_domain domain w) (fun l =>
          rbind (enabled_whitelists doms' w) (fun '(f, a) =>
            Ok ((full l ++ f)%list, (abbreviated l ++ a)%list)))
      else enabled_whitelists doms' w
  end.

(** [Anonymizer.__init__], the lookup tables.  The last union takes its
    members from iterating the two dicts [self.dates["days"]] and
    [self.dates["months"]], that is, from their keys. *)
Definition load (cfg : config) (entities : list string) : res lookups :=
  rbind (enabled_whitelists (domains_json cfg) (whitelists_json cfg)) (fun '(wf, wa) =>
    Ok {| whitelist_full := wf;
          whitelist_abbreviated := wa;
          whitelist := (wf ++ word_lists_keys (dates_days cfg)
                           ++ word_lists_keys (dates_months cfg))%list;
          entities_to_anonymize := entities;
          days := full (dates_days cfg);
          days_abbreviated := abbreviated (dates_days cfg);
          months := full (dates_months cfg);
          months_abbreviated := abbreviated (dates_months cfg);
          dutch_cities :=
            List.map (fun x => Str.lower (Str.strip x)) (locations_dutch_cities cfg);
          family_names := process_family_names (names_family_names cfg);
          first_names :=
            List.map unidecode
              (List.filter (fun x => (1 <? length (unidecode x))%nat)
                 (List.map (fun n => Str.lower (Str.strip n)) (names_first_names cfg)));
          titles_before := titles_before_json cfg;
          titles_after := titles_after_json cfg;
          cues := cues_json cfg;
          recist_begin := recist_begin_word cfg;
          recist_end := recist_end_word cfg |}).

(** [Anonymizer.__init__], the mutable fields. *)
Definition initial_state : state :=
  {| counter := 10000;
     replace_dict := [];
     original_report := "";
     annotations := [] |}.

Definition default_entities : list string :=
  ["person"; "date"; "time"; "internal_phone_number"; "patient_id"; "z_number";
   "report_id"; "location"].

(** [clean_report] *)
Definition clean_report (report_temp : string) : res string :=
  rbind (Re.sub " +" " " report_temp 0) (fun report_temp =>
  rbind (Re.sub (" *" ++ Str.nl ++ " *") Str.nl report_temp 0) (fun report_temp =>
  rbind (Re.search (Str.nl ++ "+") report_temp) (fun newlines =>
  rbind (match newlines with
         | Some (0, group) => Re.sub group "" report_temp 1
         | _ => Ok report_temp
         end) (fun report_temp =>
  rbind (Re.sub (" *" ++ Str.nl ++ " *") Str.nl report_temp 0) (fun report_temp =>
  rbind (Re.sub " *- *" "-" report_temp 0) (fun report_temp =>
  Re.sub " */ *" "/" report_temp 0)))))).

(** [nltk.ngrams(sequence, n)]: the windows of [n] consecutive items. *)
Fixpoint ngrams {A} (l : list A) (n : nat) : list (list A) :=
  match l with
  | [] => []
  | _ :: l' =>
      if (n <=? List.length l)%nat then List.firstn n l :: ngrams l' n else []
  end.

(** [tokenize_reports]: the tokens of every line, and the n-grams of every
    line, in line order. *)
Fixpoint tokenize_lines (lines : list string) : res (list (list string)) :=
  match lines with
  | [] => Ok []
  | sentence :: rest =>
      rbind (Re.split "[,;:()!?.]" sentence) (fun parts =>
        rbind (tokenize_lines rest) (fun r =>
          Ok (Str.split_ws (Str.join " " parts) :: r)))
  end.

Definition report_n_grams (tokenized_sentences : list (list string)) (n : nat)
  : list (list string) :=
  List.flat_map (fun tokenized_sentence => ngrams tokenized_sentence n) tokenized_sentences.

Definition tokenize_reports (report : string) : res (list (list string)) :=
  tokenize_lines (Str.split_char Char.nl report).

(* ===================================================================== *)
(** * The engine: the two preprocessors *)
(* ===================================================================== *)

(** [while len(report_lines) < 4: report_lines.append("")] *)
Definition pad4 (report_lines : list string) : list string :=
  (report_lines ++ List.repeat "" (4 - List.length report_lines))%list.

Definition label_of (kind : string) (c : N) : string :=
  "<" ++ kind ++ "_" ++ Str.of_N c ++ ">".

(** The test on one group of four lines. *)
Definition status_block (line_4_gram : list string) : res bool :=
  match List.map Str.strip line_4_gram with
  | [l0; l1; l2; l3] =>
      if Str.is_empty l0 && Str.is_empty l1
         && Str.contains "verslagstatus" (Str.lower l3)
      then
        if (0 <? length l2)%nat
        then rbind (Str.first l2) (fun c => Ok (Char.is_upper c))
        else Ok false
      else Ok false
  | _ => Raise IndexError
  end.

(** The loop of [remove_report_status] over the groups of four lines. *)
Fixpoint status_loop (groups : list (list string)) (report : string) : M string :=
  match groups with
  | [] => ret report
  | original_line_4_gram :: rest =>
      hit <- lift (status_block original_line_4_gram) ;;
      if hit then
        c <- get_counter ;;
        let t_id := label_of "GEAUTORISEERD" c in
        report <- lift (Re.sub (Str.join Str.nl original_line_4_gram) t_id report 0) ;;
        record t_id (Str.join Str.nl original_line_4_gram) ;;
        status_loop rest report
      else status_loop rest report
  end.

Definition remove_report_status (report : string) : M string :=
  let report_lines := pad4 (Str.split_char Char.nl report) in
  status_loop (ngrams report_lines 4) report.

(** The loop of [remove_name_addendum] over the lines. *)
Fixpoint addendum_loop (report_lines : list string) : M (list string) :=
  match report_lines with
  | [] => ret []
  | line :: rest =>
      line <-
        (if Str.contains "ADDENDUM: >>" line then
           matches <- lift (Re.findall "(?<=door )[^0-9]+" line) ;;
           match matches with
           | m0 :: _ =>
               c <- get_counter ;;
               let t_id := label_of "PERSOON" c in
               line <- lift (Re.sub m0 t_id line 0) ;;
               record t_id m0 ;;
               ret line
           | [] => ret line
           end
         else ret line) ;;
      new_report <- addendum_loop rest ;;
      ret (line :: new_report)
  end.

Definition remove_name_addendum (report : string) : M string :=
  new_report <- addendum_loop (Str.split_char Char.nl report) ;;
  ret (Str.join Str.nl new_report).

(* ===================================================================== *)
(** * The engine: detectors *)
(* ===================================================================== *)

(** [steps [f1; ...; fn] report]: [report = f1(report); ...; report = fn(report)]. *)
Fixpoint steps (fs : list (string -> M string)) (report : string) : M string :=
  match fs with
  | [] => ret report
  | f :: fs' => report <- f report ;; steps fs' report
  end.

(** [guard c f report]: [if c: report = f(report)] for a test that calls
    [int]. *)
Definition guard (c : res bool) (f : string -> M string) (report : string) : M string :=
  b <- lift c ;;
  if b then f report else ret report.

(** [lo <= int(s) <= hi] *)
Definition int_in (lo hi : N) (s : string) : res bool :=
  rbind (Str.to_N s) (fun n => Ok ((lo <=? n) && (n <=? hi))%N).

Definition rand (x y : res bool) : res bool :=
  rbind x (fun b => if b then y else Ok false).

(** [s[:2] == "19" or s[:2] == "20"] *)
Definition century (s : string) : bool :=
  String.eqb (Str.take 2 s) "19" || String.eqb (Str.take 2 s) "20".

Definition len_le (s : string) (n : nat) : bool := (length s <=? n)%nat.
Definition len_eq (s : string) (n : nat) : bool := (length s =? n)%nat.

(** The primitives with the report as the last argument. *)
Definition text (x t_id : string) (report : string) : M string :=
  replace_text report x t_id.
Definition no_escape (x t_id : string) (report : string) : M string :=
  replace_text_no_escape report x t_id.
Definition end_dot (x t_id : string) (report : string) : M string :=
  replace_text_end_dot report x t_id.
Definition all_end_dot (x t_id : string) (report : string) : M string :=
  replace_text_all_end_dot report x t_id.

Section Detectors.

Variable lk : lookups.

Definition no_hyphen (x t_id : string) (report : string) : M string :=
  replace_text_no_hyphen lk report x t_id.

Definition with_exceptions (x : string) (behind ahead : list string) (t_id : string)
  (report : string) : M string :=
  replace_text_with_exceptions lk report x behind ahead t_id true.

(** [any(t[0].isupper() for t in tokens)] as the loop computes it. *)
Fixpoint capitals_exist (tokens : list string) : res bool :=
  match tokens with
  | [] => Ok false
  | t :: rest =>
      rbind (Str.first t) (fun c =>
        rbind (capitals_exist rest) (fun b => Ok (Char.is_upper c || b)))
  end.

(** The comma-inserted variants of a family name, last comma position
    first, the plain name at the head. *)
Fixpoint comma_variants (done todo : list string) : list string :=
  match todo with
  | [] | [_] => []
  | t :: rest =>
      let with_comma := t ++ "," in
      Str.join " " (done ++ with_comma :: rest)%list
      :: comma_variants (done ++ [t])%list rest
  end.

Definition new_family_names (tokens : list string) : list string :=
  List.rev (comma_variants [] tokens ++ [Str.join " " tokens])%list.

Definition replace_family_names (report : string) (tokens : list string) : M string :=
  let full_string := Str.join " " tokens in
  let id_1 := "<ACHTERNAAM_$>" in
  let id_2 := "<W_ACHTERNAAM_$>" in
  capitals <- lift (capitals_exist tokens) ;;
  (* double family names that are separated by "-" or "/" *)
  tokens_double <- lift (Re.split "[-/]" full_string) ;;
  report <-
    match tokens_double with
    | [td0; td1] =>
        if Str.mem (unidecode (Str.lower td0)) (family_names lk)
           && Str.mem (unidecode (Str.lower td1)) (family_names lk)
           && capitals
        then
          if negb (Str.mem (unidecode (Str.lower td0)) (whitelist lk))
             && negb (Str.mem (unidecode (Str.lower td1)) (whitelist lk))
          then steps [no_escape ("(" ++ full_string ++ ")") id_1;
                      text full_string id_1] report
          else steps [no_escape ("(" ++ full_string ++ ")") id_2;
                      text full_string id_2] report
        else ret report
    | _ => ret report
    end ;;
  (* the alternative names for "vd", "v/d" and "v" *)
  vd_der <- lift (Re.sub "\bvd\b" "van der" full_string 0) ;;
  v_d_der <- lift (Re.sub "\bv/d\b" "van der" full_string 0) ;;
  vd_de <- lift (Re.sub "\bvd\b" "van de" full_string 0) ;;
  v_d_de <- lift (Re.sub "\bv/d\b" "van de" full_string 0) ;;
  vd_den <- lift (Re.sub "\bvd\b" "van den" full_string 0) ;;
  v_d_den <- lift (Re.sub "\bv/d\b" "van den" full_string 0) ;;
  v_van <- lift (Re.sub "\bv\b" "van" full_string 0) ;;
  (* the set only removes duplicates; the list is tested for a member *)
  let all_tokens :=
    List.map Str.split_ws
      [full_string; vd_der; v_d_der; vd_de; v_d_de; vd_den; v_d_den; v_van] in
  let matching_tokens :=
    List.filter
      (fun tokens_alt => Str.mem (Str.lower (Str.join " " tokens_alt)) (family_names lk))
      all_tokens in
  let ngram_in_familylist :=
    existsb (fun t => match t with [] => false | _ => true end) matching_tokens in
  if ngram_in_familylist && capitals then
    steps
      (List.map
         (fun new_family_name report =>
            if negb (Str.mem (Str.lower new_family_name) (whitelist lk)) then
              steps [no_escape ("(" ++ new_family_name ++ ")") id_1;
                     (fun report =>
                        c0 <- lift (Str.first new_family_name) ;;
                        when (Ascii.eqb c0 "v")
                          (no_escape (String c0 ("." ++ Str.drop 1 new_family_name)) id_1)
                          report);
                     text new_family_name id_1] report
            else
              steps [no_escape ("(" ++ new_family_name ++ ")") id_2;
                     text new_family_name id_2] report)
         (new_family_names tokens))
      report
  else ret report.

(** [any(l)] for a list of strings: some member is not empty. *)
Definition any_str (l : list string) : bool :=
  existsb (fun s => negb (Str.is_empty s)) l.

Definition replace_initials (report : string) (tokens : list string) : M string :=
  let id_1 := "<INITIALEN_$>" in
  if negb (any_str (List.filter (fun t => negb (Str.isalpha t)) tokens))
     && negb (any_str (List.filter (fun t => negb (Str.isupper t)) tokens))
  then
    match tokens with
    | [] => lift (Raise IndexError)
    | t0 :: _ =>
        steps
          [when (len_le t0 5 && (List.length tokens =? 1)%nat)
             (when (negb (Str.mem t0 (whitelist_abbreviated lk)))
                (steps [no_hyphen (t0 ++ ".") id_1; no_hyphen t0 id_1]));
           when (negb (any_str (List.filter (fun t => (1 <? length t)%nat) tokens)))
             (steps [all_end_dot (Str.join ". " tokens ++ ".") id_1;
                     all_end_dot (Str.join "." tokens ++ ".") id_1;
                     text (Str.join "." tokens) id_1;
                     text (Str.join " " tokens) id_1])]
          report
    end
  else ret report.

Definition is_day (t : string) : bool :=
  Str.mem (Str.lower t) (days lk) || Str.mem (Str.lower t) (days_abbreviated lk).

Definition is_month (t : string) : bool :=
  Str.mem (Str.lower t) (months lk) || Str.mem (Str.lower t) (months_abbreviated lk).

(** [date_text]: the token split at hyphens if it has one, at slashes
    otherwise. *)
Definition date_text_of (t0 : string) : list string :=
  if Str.contains "-" t0 then Str.split_char "-" t0 else Str.split_char "/" t0.

Definition replace_dates (report : string) (tokens : list string) : M string :=
  let id_1 := "<DATUM_$>" in
  let behind := negative_lookbehinds_dates (cues lk) in
  let ahead := negative_lookaheads_dates (cues lk) in
  match tokens with
  | [t0; t1; t2; t3] =>
      (* day of the week + day of the month + month + year (4 digits) *)
      when (century t3 && len_le t1 2 && len_eq t3 4 && Str.isdigit t1 && Str.isdigit t3
            && is_day t0 && is_month t2)
        (guard (int_in 1 31 t1)
           (steps [text (Str.join " " [t0 ++ "."; t1; t2 ++ "."; t3]) id_1;
                   text (Str.join " " [t0; t1; t2 ++ "."; t3]) id_1;
                   text (Str.join " " [t0 ++ "."; t1; t2; t3]) id_1;
                   text (Str.join " " tokens) id_1]))
        report
  | [t0; t1; t2] =>
      steps
        [ (* day of the month + month + year (4 digits) *)
          when (century t2 && len_le t0 2 && len_eq t2 4 && Str.isdigit t0
                && Str.isdigit t2 && is_month t1)
            (guard (int_in 1 31 t0)
               (steps [text (Str.join " " [t0; t1 ++ "."; t2]) id_1;
                       text (Str.join " " tokens) id_1]));
          (* day of the month + month + year (2 digits) *)
          when (len_le t0 2 && len_eq t2 2 && Str.isdigit t0 && Str.isdigit t2
                && is_month t1)
            (guard (int_in 1 31 t0)
               (steps [text (Str.join " " [t0; t1 ++ "."; t2]) id_1;
                       text (Str.join " " tokens) id_1]));
          (* day of the week + day of the month + month *)
          when (len_le t1 2 && Str.isdigit t1 && is_day t0 && is_month t2)
            (guard (int_in 1 31 t1)
               (steps [when (Str.mem (Str.lower t2) (months_abbreviated lk))
                         (steps [end_dot (Str.join " " [t0 ++ "."; t1; t2 ++ "."]) id_1;
                                 end_dot (Str.join " " [t0; t1; t2 ++ "."]) id_1]);
                       text (Str.join " " [t0 ++ "."; t1; t2]) id_1;
                       text (Str.join " " tokens) id_1]));
          (* day + month + year (2 digits), all numeric *)
          when (len_le t0 2 && len_le t1 2 && len_eq t2 2 && Str.isdigit t0
                && Str.isdigit t1 && Str.isdigit t2)
            (guard (rand (int_in 1 31 t0) (int_in 1 12 t1))
               (steps [end_dot (Str.join ". " tokens ++ ".") id_1;
                       text (Str.join ". " tokens) id_1;
                       text (Str.join "." tokens) id_1;
                       with_exceptions (Str.join " " tokens) behind ahead id_1]));
          (* day + month + year (4 digits), all numeric *)
          when (len_le t0 2 && len_le t1 2 && len_eq t2 4 && Str.isdigit t0
                && Str.isdigit t1 && Str.isdigit t2 && century t2)
            (guard (rand (int_in 1 31 t0) (int_in 1 12 t1))
               (steps [end_dot (Str.join ". " tokens ++ ".") id_1;
                       text (Str.join ". " tokens) id_1;
                       text (Str.join "." tokens) id_1;
                       text (Str.join " " tokens) id_1])) ]
        report
  | [t0; t1] =>
      steps
        [ (* month + year *)
          when (len_eq t1 4 && Str.isdigit t1 && is_month t0 && century t1)
            (steps [text (Str.join " " [t0 ++ "."; t1]) id_1;
                    text (Str.join " " tokens) id_1]);
          (* day + month *)
          when (len_le t0 2 && Str.isdigit t0 && is_month t1)
            (guard (int_in 1 31 t0)
               (steps [when (Str.mem (Str.lower t1) (months_abbreviated lk))
                         (end_dot (Str.join " " [t0; t1 ++ "."]) id_1);
                       text (Str.join " " tokens) id_1]));
          (* day and month joined by a hyphen or slash, then the year *)
          fun report =>
            match date_text_of t0 with
            | [d0; d1] =>
                when (len_le d0 2 && len_le d1 2 && len_eq t1 4 && Str.isdigit d0
                      && Str.isdigit d1 && Str.isdigit t1 && century t1)
                  (guard (rand (int_in 1 31 d0) (int_in 1 12 d1))
                     (fun report =>
                        nodigit <- lift
                          ((fix keep (l : list string) : res (list string) :=
                              match l with
                              | [] => Ok []
                              | pattern :: l' =>
                                  rbind (Re.search "\d" pattern) (fun hit =>
                                    rbind (keep l') (fun r =>
                                      Ok (match hit with
                                          | Some _ => r
                                          | None => pattern :: r
                                          end)))
                              end) behind) ;;
                        with_exceptions (Str.join " " tokens) nodigit [] id_1 report))
                  report
            | _ => ret report
            end ]
        report
  | [t0] =>
      let date_text := date_text_of t0 in
      let three (f : string -> string -> string -> string -> M string) report :=
        match date_text with
        | [d0; d1; d2] => f d0 d1 d2 report
        | _ => ret report
        end in
      let two (f : string -> string -> string -> M string) report :=
        match date_text with
        | [d0; d1] => f d0 d1 report
        | _ => ret report
        end in
      steps
        [ (* day, month name, year (2 digits) *)
          three (fun d0 d1 d2 =>
            when (Str.isdigit d0 && Str.isdigit d2 && len_le d0 2 && len_eq d2 2
                  && is_month d1)
              (guard (int_in 1 31 d0) (text t0 id_1)));
          (* year (4 digits), month, day *)
          three (fun d0 d1 d2 =>
            when (len_eq d0 4 && len_le d1 2 && len_le d2 2 && Str.isdigit d0
                  && Str.isdigit d1 && Str.isdigit d2 && century d0)
              (guard (rand (int_in 1 31 d2) (int_in 1 12 d1)) (text t0 id_1)));
          (* day, month name, year (4 digits) *)
          three (fun d0 d1 d2 =>
            when (Str.isdigit d0 && Str.isdigit d2 && len_le d0 2 && len_eq d2 4
                  && century d2 && is_month d1)
              (guard (int_in 1 31 d0) (text t0 id_1)));
          (* day, month, year (4 digits) *)
          three (fun d0 d1 d2 =>
            when (len_le d0 2 && len_le d1 2 && len_eq d2 4 && Str.isdigit d0
                  && Str.isdigit d1 && Str.isdigit d2 && century d2)
              (guard (rand (int_in 1 31 d0) (int_in 1 12 d1)) (text t0 id_1)));
          (* day, month, year (2 digits) *)
          three (fun d0 d1 d2 =>
            when (len_le d0 2 && len_le d1 2 && len_eq d2 2 && Str.isdigit d0
                  && Str.isdigit d1 && Str.isdigit d2)
              (guard (rand (int_in 1 31 d0) (int_in 1 12 d1)) (text t0 id_1)));
          (* day and year (4 digits) *)
          two (fun d0 d1 =>
            when (len_le d0 2 && len_eq d1 4 && Str.isdigit d0 && Str.isdigit d1
                  && century d1)
              (guard (int_in 1 31 d0) (with_exceptions t0 behind ahead id_1)));
          (* day and month *)
          two (fun d0 d1 =>
            when (len_le d0 2 && len_le d1 2 && Str.isdigit d0 && Str.isdigit d1)
              (guard (rand (int_in 1 31 d0) (int_in 1 12 d1))
                 (with_exceptions t0 behind ahead id_1)));
          (* year (4 digits) *)
          when (len_eq t0 4 && Str.isdigit t0 && century t0) (text t0 id_1);
          (* months *)
          when (is_month t0)
            (steps [when (Str.mem (Str.lower t0) (months_abbreviated lk))
                      (end_dot (t0 ++ ".") id_1);
                    text t0 id_1]) ]
        report
  | _ => ret report
  end.

(** The three title lists [replace_titles] builds. *)
Definition all_titles (l : list word_lists) : list string :=
  List.flat_map (fun g => (full g ++ abbreviated g)%list) l.

Definition titles_full : list string :=
  (List.flat_map full (titles_before lk) ++ List.flat_map full (titles_after lk))%list.

Definition replace_titles (report : string) (tokens : list string) : M string :=
  let full_string := Str.join " " tokens in
  let id_1 := "<TITELS_VOOR_ACHTER_$>" in
  let id_2 := "<TITELS_VOOR_$>" in
  let id_3 := "<TITELS_ACHTER_$>" in
  let before := all_titles (titles_before lk) in
  let after := all_titles (titles_after lk) in
  let low := Str.lower full_string in
  let dotted (t_id : string) :=
    when (negb (Str.mem low titles_full))
      (steps [end_dot (Str.join ". " tokens ++ ".") t_id;
              end_dot (Str.join "." tokens ++ ".") t_id]) in
  match tokens with
  | [_; _; _] | [_; _] =>
      steps
        [ when (Str.mem low before && Str.mem low after)
            (steps [dotted id_1; text (Str.join " " tokens) id_1]);
          when (Str.mem low before)
            (steps [dotted id_2; text (Str.join " " tokens) id_2]);
          when (Str.mem low after)
            (steps [dotted id_3; text (Str.join " " tokens) id_3]) ]
        report
  | [t0] =>
      let low0 := Str.lower t0 in
      let dot (t_id : string) :=
        when (negb (Str.mem low0 titles_full)) (end_dot (t0 ++ ".") t_id) in
      steps
        [ when (Str.mem low0 before && Str.mem low0 after)
            (steps [dot id_1; no_escape ("(" ++ t0 ++ ")") id_3; text t0 id_1]);
          when (Str.mem low0 before)
            (steps [dot id_2; text t0 id_2]);
          when (Str.mem low0 after)
            (steps [dot id_3; no_escape ("(" ++ t0 ++ ")") id_3; text t0 id_3]) ]
        report
  | _ => ret report
  end.

Definition replace_phonenumbers (report : string) (tokens : list string) : M string :=
  let id_1 := "<TELEFOONNUMMER_$>" in
  let cue (t : string) :=
    Str.mem (Str.lower t) (positive_lookbehinds_phone_numbers (cues lk)) in
  match tokens with
  | [t0; t1; t2] =>
      when (len_eq t2 4 && Str.isdigit t2 && String.eqb t1 "*" && cue t0)
        (text (Str.join " " tokens) id_1) report
  | [t0; t1] =>
      steps
        [ fun report =>
            if len_eq t1 5 && Str.isdigit (Str.take_last 4 t1) then
              c0 <- lift (Str.first t1) ;;
              when (Ascii.eqb c0 "*" && cue t0) (text (Str.join " " tokens) id_1) report
            else ret report;
          when (len_eq t1 4 && Str.isdigit t1 && cue t0)
            (text (Str.join " " tokens) id_1) ]
        report
  | [token] =>
      when (len_eq token 5 && Str.isdigit token) (text token id_1) report
  | _ => ret report
  end.

Definition replace_time (report : string) (tokens : list string) : M string :=
  let id_1 := "<TIJD_$>" in
  let behind := negative_lookbehinds_times (cues lk) in
  let ahead := negative_lookaheads_times (cues lk) in
  match tokens with
  | [t0; t1; t2] =>
      when (len_le t0 2 && len_eq t1 2 && len_eq t2 2 && Str.isdigit t0
            && Str.isdigit t1 && Str.isdigit t2)
        (guard (rand (int_in 0 23 t0) (rand (int_in 0 59 t1) (int_in 0 59 t2)))
           (steps [text (Str.join ":" tokens) id_1;
                   text (Str.join "." tokens) id_1;
                   with_exceptions (Str.join " " tokens) behind ahead id_1]))
        report
  | [t0; t1] =>
      steps
        [ (* hours and minutes *)
          when (len_le t0 2 && len_eq t1 2 && Str.isdigit t0 && Str.isdigit t1)
            (guard (rand (int_in 0 23 t0) (int_in 0 59 t1))
               (steps [text (Str.join ":" tokens ++ " uur") id_1;
                       text (Str.join ":" tokens) id_1;
                       text (Str.join "." tokens ++ " uur") id_1;
                       with_exceptions (Str.join "." tokens) behind ahead id_1;
                       text (Str.join " " tokens ++ " uur") id_1]));
          (* hours and minutes with "u" *)
          fun report =>
            if len_le t0 2 && len_eq t1 3 && Str.isdigit t0
               && Str.isdigit (Str.drop_last 1 t1)
            then
              c <- lift (Str.last t1) ;;
              when (Ascii.eqb c "u")
                (guard (rand (int_in 0 23 t0) (int_in 0 59 (Str.drop_last 1 t1)))
                   (steps [text (Str.join ":" tokens) id_1;
                           text (Str.join "." tokens) id_1]))
                report
            else ret report;
          (* hours followed by the word "uur" *)
          fun report =>
            if len_eq t0 4 && Str.isdigit t0 && String.eqb (Str.lower t1) "uur" then
              guard (rand (int_in 1 23 (Str.take 2 t0)) (int_in 0 59 (Str.drop 2 t0)))
                (text (Str.join " " tokens) id_1) report
            else if len_le t0 2 && Str.isdigit t0 && String.eqb (Str.lower t1) "uur" then
              guard (int_in 1 23 t0) (text (Str.join " " tokens) id_1) report
            else ret report ]
        report
  | [t0] =>
      new_tokens <- lift (Re.split "(u)" t0) ;;
      match new_tokens with
      | [n0; n1; n2] =>
          when (Str.isdigit n0 && String.eqb n1 "u" && Str.isdigit n2 && len_eq n2 2
                && len_le n0 2)
            (guard (rand (int_in 0 23 n0) (int_in 0 59 n2)) (text t0 id_1))
            report
      | _ => ret report
      end
  | _ => ret report
  end.

Definition replace_cues (report : string) (tokens : list string) : M string :=
  let full_string := Str.join " " tokens in
  let id_1 := "<PERSOON_HINT_VOOR_$>" in
  let id_2 := "<PERSOON_HINT_ACHTER_$>" in
  let cues_before := positive_lookbehinds_person_names (cues lk) in
  let cues_after := positive_lookaheads_person_names (cues lk) in
  match tokens with
  | [] => ret report
  | [t0] =>
      steps
        [ when (Str.mem (Str.lower full_string) cues_before) (text t0 id_1);
          when (Str.mem (Str.lower full_string) cues_after) (text t0 id_2) ]
        report
  | _ =>
      steps
        [ when (Str.mem (Str.lower full_string) cues_before)
            (text (Str.join " " tokens) id_1);
          when (Str.mem (Str.lower full_string) cues_after)
            (text (Str.join " " tokens) id_2) ]
        report
  end.

Definition replace_patientnumber (report : string) (tokens : list string) : M string :=
  let id_1 := "<PATIENTNUMMER_$>" in
  match tokens with
  | [] => lift (Raise IndexError)
  | token :: _ =>
      when (len_eq token 7 && Str.isdigit token) (text token id_1) report
  end.

Definition replace_znumber (report : string) (tokens : list string) : M string :=
  let id_1 := "<ZNUMMER_$>" in
  match tokens with
  | [] => lift (Raise IndexError)
  | token :: _ =>
      if len_eq token 7 then
        c0 <- lift (Str.first token) ;;
        when (Ascii.eqb (Char.lower c0) "z" && Str.isdigit (Str.drop 1 token))
          (text token id_1) report
      else ret report
  end.

Definition replace_firstnames (report : string) (tokens : list string) : M string :=
  let id_1 := "<VOORNAAM_$>" in
  match tokens with
  | [] => lift (Raise IndexError)
  | token :: _ =>
      if Str.mem (Str.lower token) (first_names lk) then
        c0 <- lift (Str.first token) ;;
        when (Char.is_upper c0
              && negb (Str.mem (Str.lower token) (whitelist lk))
              && negb (Str.mem (Str.lower token) (days lk))
              && negb (Str.mem (Str.lower token) (months lk))
              && negb (Str.mem (Str.lower token) (months_abbreviated lk)))
          (steps [no_escape ("(" ++ token ++ ")") id_1; text token id_1])
          report
      else ret report
  end.

Definition replace_reportid (report : string) (tokens : list string) : M string :=
  let id_1 := "<RAPPORT_ID_$>" in
  let full_string := Str.join " " tokens in
  tokens <- lift (Re.split "[-\s]" full_string) ;;
  match tokens with
  | [t0; t1; t2] =>
      when (String.eqb t0 "T" && Str.isdigit t1 && len_eq t1 2 && Str.isdigit t2
            && len_eq t2 5)
        (text full_string id_1) report
  | _ => ret report
  end.

(** [any([i for i in l if i[0].isupper()])] *)
Fixpoint any_capitalized (l : list string) : res bool :=
  match l with
  | [] => Ok false
  | i :: rest =>
      rbind (Str.first i) (fun c =>
        rbind (any_capitalized rest) (fun b =>
          Ok ((Char.is_upper c && negb (Str.is_empty i)) || b)))
  end.

Definition replace_cities (report : string) (tokens : list string) : M string :=
  let id_1 := "<PLAATS_$>" in
  let city_name := Str.join " " (List.tl tokens) in
  if Str.mem (Str.lower city_name) (dutch_cities lk) then
    cap <- lift (any_capitalized (List.tl tokens)) ;;
    if cap then
      match tokens with
      | [] => lift (Raise IndexError)
      | t0 :: _ =>
          when (Str.mem t0 (positive_lookbehinds_locations (cues lk)))
            (text city_name id_1) report
      end
    else ret report
  else ret report.

End Detectors.

(* ===================================================================== *)
(** * The engine: label chaining, reversion, postprocessing *)
(* ===================================================================== *)

(** [template.format(x)] for a template with one [{}]. *)
Definition format1 (template x : string) : string := Str.replace "{}" x template.

Section MergePatterns.

Let TV := "<TITELS_VOOR_[0-9]+>".
Let TA := "<TITELS_ACHTER_[0-9]+>".
Let TVA := "<TITELS_VOOR_ACHTER_[0-9]+>".
Let INI := "<INITIALEN_[0-9]+>".
Let VN := "<VOORNAAM_[0-9]+>".
Let ACH := "<ACHTERNAAM_[0-9]+>".
Let WACH := "<W_ACHTERNAAM_[0-9]+>".
Let P := "<PERSOON_$>".
Let TP := "<TEMP_PERSOON_$>".
Let fam (t_id : string) := format1 "<{}_[0-9]+>" t_id.
Let famc (t_id : string) := format1 "<{}_[0-9]+>," t_id.
Let sp := Str.join " ?".

(** The patterns of [replace_intermediate_labels] for one family-name
    label kind, each with the label that replaces its matches, in the
    order the method tries them. *)
Definition merge_patterns (t_id : string) : list (string * string) :=
  [
    (sp [TV; TV; TV; INI; fam t_id; TA], P);
    (sp [TV; TV; TV; INI; famc t_id; TA], P);
    (sp [TV; TV; TV; INI; fam t_id; TVA], P);
    (sp [TV; TV; TV; INI; famc t_id; TVA], P);
    (sp [TV; TV; TV; INI; fam t_id], P);
    (sp [TV; TV; TV; TV; fam t_id], P);
    (sp [TV; TV; INI; fam t_id; TA], P);
    (sp [TV; TV; INI; famc t_id; TA], P);
    (sp [TV; TV; INI; fam t_id; TVA], P);
    (sp [TV; TV; INI; famc t_id; TVA], P);
    (sp [TV; TV; TV; fam t_id; INI], P);
    (sp [TV; TV; TV; famc t_id; INI], P);
    (sp [TV; TV; INI; fam t_id], P);
    (sp [TV; TV; TV; fam t_id], P);
    (sp [TV; TV; fam t_id; INI], P);
    (sp [TV; TV; famc t_id; INI], P);
    (sp [TV; TV; fam t_id; TVA], P);
    (sp [TV; TV; famc t_id; TVA], P);
    (sp [TV; TV; fam t_id; TA], P);
    (sp [TV; TV; famc t_id; TA], P);
    (sp [TV; fam t_id; INI; VN], P);
    (sp [TV; famc t_id; INI; VN], P);
    (sp [TV; fam t_id; INI; TA], P);
    (sp [TVA; fam t_id; INI; TA], P);
    (sp [TVA; fam t_id; INI; TVA], P);
    (sp [TV; fam t_id; INI; TVA], P);
    (sp [TV; famc t_id; INI; TA], P);
    (sp [TVA; famc t_id; INI; TA], P);
    (sp [TVA; famc t_id; INI; TVA], P);
    (sp [TV; famc t_id; INI; TVA], P);
    (sp [TV; INI; fam t_id], P);
    (sp [TV; "<INITIALEN_[0-9]+>,"; fam t_id], P);
    (sp [TV; fam t_id; fam t_id], P);
    (sp [TVA; INI; fam t_id], P);
    (sp [TVA; "<INITIALEN_[0-9]+>,"; fam t_id], P);
    (sp [TVA; fam t_id; fam t_id], P);
    (sp [TV; TV; fam t_id], P);
    (sp [TV; fam t_id; INI], P);
    (sp [TV; famc t_id; INI], P);
    (sp [INI; fam t_id; TA], P);
    (sp [INI; famc t_id; TA], P);
    (sp [TV; fam t_id; TA], P);
    (sp [TV; famc t_id; TA], P);
    (sp [VN; fam t_id; TA], P);
    (sp [fam t_id; fam t_id; TA], P);
    (sp [VN; famc t_id; TA], P);
    (sp [fam t_id; famc t_id; TA], P);
    (sp [TA; VN; fam t_id], P);
    (sp [TA; fam t_id; fam t_id], P);
    (sp [TVA; fam t_id; INI], P);
    (sp [TVA; famc t_id; INI], P);
    (sp [INI; fam t_id; TVA], P);
    (sp [INI; famc t_id; TVA], P);
    (sp [TV; fam t_id; TVA], P);
    (sp [TVA; famc t_id; TA], P);
    (sp [TV; famc t_id; TVA], P);
    (sp [TVA; famc t_id; TVA], P);
    (sp [TVA; famc t_id; TVA], P);
    (sp [VN; fam t_id; TVA], P);
    (sp [fam t_id; fam t_id; TVA], P);
    (sp [VN; famc t_id; TVA], P);
    (sp [fam t_id; famc t_id; TVA], P);
    (sp [TVA; VN; fam t_id], P);
    (sp [TVA; fam t_id; fam t_id], P);
    (sp [fam t_id; fam t_id; TVA], P);
    (sp [fam t_id; famc t_id; TVA], P);
    (sp [TVA; fam t_id; fam t_id], P);
    (sp [INI; VN; fam t_id], P);
    (sp [INI; ACH; fam t_id], P);
    (sp [TV; fam t_id; WACH], P);
    (sp [TVA; fam t_id; WACH], P);
    (sp [fam t_id; WACH; TVA], P);
    (sp [fam t_id; "<W_ACHTERNAAM_[0-9]+>,"; TVA], P);
    ("(?<=<PERSOON_HINT_VOOR_[0-9]{5}> <TITELS_VOOR_ACHTER_[0-9]{5}> )[A-Z]{1}[a-z]+", TP);
    ("(?<=<PERSOON_HINT_VOOR_[0-9]{5}>: <TITELS_VOOR_ACHTER_[0-9]{5}> )[A-Z]{1}[a-z]+", TP);
    (Str.join ".{,2}" ["<PERSOON_HINT_VOOR_[0-9]+>"; "(<TITELS_VOOR_ACHTER_[0-9]+>"; "<TEMP_PERSOON_[0-9]+>)"], P);
    ("(?<=<PERSOON_HINT_VOOR_[0-9]{5}> <TITELS_VOOR_[0-9]{5}> )[A-Z]{1}[a-z]+", TP);
    ("(?<=<PERSOON_HINT_VOOR_[0-9]{5}>: <TITELS_VOOR_[0-9]{5}> )[A-Z]{1}[a-z]+", TP);
    (Str.join ".{,2}" ["<PERSOON_HINT_VOOR_[0-9]+>"; "(<TITELS_VOOR_[0-9]+>"; "<TEMP_PERSOON_[0-9]+>)"], P);
    (sp [INI; ACH], P);
    (sp ["<INITIALEN_[0-9]+>,"; ACH], P);
    (sp [TV; fam t_id], P);
    (sp ["<TITELS_VOOR_[0-9]+>,"; fam t_id], P);
    (sp [fam t_id; TA], P);
    (sp [famc t_id; TA], P);
    (sp [TVA; fam t_id], P);
    (sp ["<TITELS_VOOR_ACHTER_[0-9]+>,"; fam t_id], P);
    (sp [ACH; TVA], P);
    (sp [ACH; TA], P);
    (sp [famc t_id; TVA], P);
    (sp [ACH; INI], P);
    (sp ["<ACHTERNAAM_[0-9]+>,"; INI], P);
    (sp [ACH; ACH], P);
    (sp ["<ACHTERNAAM_[0-9]+>."; ACH], P);
    (sp ["<ACHTERNAAM_[0-9]+>,"; ACH], P);
    (sp [VN; ACH], P);
    (sp ["<ACHTERNAAM_[0-9]+>,"; VN], P);
    (sp ["<PERSOON_HINT_VOOR_[0-9]+>"; format1 "(<{}_[0-9]+>)" t_id], P);
    (Str.join ".?" ["(<ACHTERNAAM_[0-9]+>)"; "<PERSOON_HINT_ACHTER_[0-9]+>"], P);
    (Str.join ".?" ["(<ACHTERNAAM_[0-9]+>)"; ".<PERSOON_HINT_ACHTER_[0-9]+>"], P)
  ].

End MergePatterns.

Fixpoint merge_loop (patterns : list (string * string)) (report : string) : M string :=
  match patterns with
  | [] => ret report
  | (pattern, label) :: rest =>
      report <- replace_text_persons report pattern label ;;
      merge_loop rest report
  end.

Definition replace_intermediate_labels (report : string) : M string :=
  steps (List.map (fun t_id => merge_loop (merge_patterns t_id))
           ["ACHTERNAAM"; "W_ACHTERNAAM"]) report.

(** Reversion.  The nine lists of labels are found first, in the report as
    it enters; then every label is replaced by its original text. *)
Definition revert_patterns : list string :=
  ["<INITIALEN_[0-9]+>"; "<TITELS_VOOR_[0-9]+>"; "<TITELS_ACHTER_[0-9]+>";
   "<TITELS_VOOR_ACHTER_[0-9]+>"; "<ACHTERNAAM_[0-9]+>"; "<PERSOON_HINT_VOOR_[0-9]+>";
   "<PERSOON_HINT_ACHTER_[0-9]+>"; "<VOORNAAM_[0-9]+>"; "<W_ACHTERNAAM_[0-9]+>"].

Fixpoint find_all_of (patterns : list string) (report : string) : res (list (list string)) :=
  match patterns with
  | [] => Ok []
  | p :: rest =>
      rbind (Re.findall p report) (fun ms =>
        rbind (find_all_of rest report) (fun r => Ok (ms :: r)))
  end.

Fixpoint revert_each (matches : list string) (report : string) : M string :=
  match matches with
  | [] => ret report
  | mt :: rest =>
      original_string <- lookup mt ;;
      report <- lift (Re.sub mt original_string report 1) ;;
      revert_each rest report
  end.

Definition revert_intermediate_labels (report : string) : M string :=
  found <- lift (find_all_of revert_patterns report) ;;
  steps (List.map revert_each found) report.

(** [s.find(sub)] as an integer: [-1] when there is no occurrence. *)
Definition find_Z (sub s : string) : Z :=
  match Str.find sub s with
  | Some i => Z.of_nat i
  | None => (-1)%Z
  end.

(** ["_".join(label.split("_")[:-1]) + ">"]: the label without its counter. *)
Definition strip_counter (label : string) : string :=
  Str.join "_" (List.removelast (Str.split_char "_" label)) ++ ">".

Definition label_pattern : string := "<[A-Z_]+[0-9]+>".

(** The inner loop of [postprocess_report] over the labels a person label
    stood for. *)
Fixpoint expand_sub_matches (sub_matches : list string) (span_end : Z) (report_copy : string)
  : M (Z * string) :=
  match sub_matches with
  | [] => ret (span_end, report_copy)
  | sub_match :: rest =>
      original <- lookup sub_match ;;
      let span_end := (find_Z sub_match report_copy + Z.of_nat (length original))%Z in
      let report_copy := Str.replace sub_match original report_copy in
      expand_sub_matches rest span_end report_copy
  end.

(** The outer loop of [postprocess_report] over the labels of the report. *)
Fixpoint spans_of (all_matches matches : list string) (report_copy : string)
  : M (list (Z * Z * string)) :=
  match matches with
  | [] => ret []
  | mt :: rest =>
      if Str.contains "PERSOON" mt then
        let span_start := find_Z mt report_copy in
        original <- lookup mt ;;
        let span_end := (span_start + Z.of_nat (length original))%Z in
        let report_copy := Str.replace mt original report_copy in
        found <- lift (Re.findall label_pattern report_copy) ;;
        let sub_matches := List.filter (fun i => negb (Str.mem i all_matches)) found in
        '(span_end, report_copy) <-
          (if existsb (fun i => negb (Str.is_empty i)) sub_matches
           then expand_sub_matches sub_matches span_end report_copy
           else ret (span_end, report_copy)) ;;
        labels <- spans_of all_matches rest report_copy ;;
        ret ((span_start, span_end, "<PERSOON>") :: labels)
      else
        let span_start := find_Z mt report_copy in
        original <- lookup mt ;;
        let span_end := (span_start + Z.of_nat (length original))%Z in
        let report_copy := Str.replace mt original report_copy in
        let label := strip_counter mt in
        labels <- spans_of all_matches rest report_copy ;;
        ret ((span_start, span_end, label) :: labels)
  end.

Fixpoint clean_tags (phi_keys : list string) (report : string) : res string :=
  match phi_keys with
  | [] => Ok report
  | key :: rest =>
      rbind (Re.sub key (strip_counter key) report 0) (clean_tags rest)
  end.

Definition append_annotation (a : annotation) : M unit :=
  fun st =>
    (Ok tt, State (counter st) (replace_dict st) (original_report st)
                  (annotations st ++ [a])%list).

Definition reset_replace_dict : M unit :=
  fun st => (Ok tt, State (counter st) [] (original_report st) (annotations st)).

Definition set_original_report (report : string) : M unit :=
  fun st => (Ok tt, State (counter st) (replace_dict st) report (annotations st)).

Definition get_original_report : M string := fun st => (Ok (original_report st), st).

Definition get_replace_dict : M (list (string * string)) :=
  fun st => (Ok (replace_dict st), st).

Definition postprocess_report (report : string) : M string :=
  original <- get_original_report ;;
  matches <- lift (Re.findall label_pattern report) ;;
  labels <- spans_of matches matches report ;;
  append_annotation (Annotation original labels None) ;;
  d <- get_replace_dict ;;
  report <- lift (clean_tags (Dict.keys d) report) ;;
  reset_replace_dict ;;
  ret report.

(** [add_metadata] *)
Definition rra_version : string := "v1.0.0".

Fixpoint set_meta (index : nat) (meta : list (string * string)) (l : list annotation)
  : option (list annotation) :=
  match l, index with
  | [], _ => None
  | a :: l', O => Some (Annotation (ann_text a) (ann_labels a) (Some meta) :: l')
  | a :: l', S i => option_map (cons a) (set_meta i meta l')
  end.

Definition add_metadata (index : nat) (meta_dict : list (string * string)) : M unit :=
  fun st =>
    match set_meta index (Dict.set "rra_version" rra_version meta_dict) (annotations st) with
    | Some l => (Ok tt, State (counter st) (replace_dict st) (original_report st) l)
    | None => (Raise IndexError, st)
    end.

(* ===================================================================== *)
(** * The engine: [anonymize_report] *)
(* ===================================================================== *)

Section Anonymize.

Variable lk : lookups.

Definition enabled (entity : string) : bool := Str.mem entity (entities_to_anonymize lk).

(** [if entity in self.entities_to_anonymize: report = detector(report, tokens)] *)
Definition on (entity : string) (detector : string -> list string -> M string)
  (tokens : list string) (report : string) : M string :=
  when (enabled entity) (fun report => detector report tokens) report.

Definition on_five_gram (five_gram : list string) : string -> M string :=
  steps [on "person" (replace_family_names lk) five_gram;
         on "person" (replace_initials lk) five_gram;
         on "location" (replace_cities lk) five_gram].

Definition on_four_gram (four_gram : list string) : string -> M string :=
  steps [on "person" (replace_family_names lk) four_gram;
         on "date" (replace_dates lk) four_gram;
         on "person" (replace_initials lk) four_gram;
         on "location" (replace_cities lk) four_gram].

Definition on_three_gram (three_gram : list string) : string -> M string :=
  steps [on "report_id" replace_reportid three_gram;
         on "person" (replace_titles lk) three_gram;
         on "person" (replace_family_names lk) three_gram;
         on "internal_phone_number" (replace_phonenumbers lk) three_gram;
         on "time" (replace_time lk) three_gram;
         on "date" (replace_dates lk) three_gram;
         on "person" (replace_initials lk) three_gram;
         on "location" (replace_cities lk) three_gram].

Definition on_two_gram (two_gram : list string) : string -> M string :=
  steps [on "report_id" replace_reportid two_gram;
         on "person" (replace_titles lk) two_gram;
         on "person" (replace_cues lk) two_gram;
         on "person" (replace_family_names lk) two_gram;
         on "time" (replace_time lk) two_gram;
         on "date" (replace_dates lk) two_gram;
         on "internal_phone_number" (replace_phonenumbers lk) two_gram;
         on "person" (replace_initials lk) two_gram;
         on "location" (replace_cities lk) two_gram].

Definition on_token (token : list string) : string -> M string :=
  steps [on "person" (replace_titles lk) token;
         on "person" (replace_cues lk) token;
         on "person" (replace_family_names lk) token;
         on "patient_id" replace_patientnumber token;
         on "z_number" replace_znumber token;
         on "internal_phone_number" (replace_phonenumbers lk) token;
         on "date" (replace_dates lk) token;
         on "time" (replace_time lk) token;
         on "person" (replace_initials lk) token;
         on "person" (replace_firstnames lk) token;
         on "location" (replace_cities lk) token].

(** The detection passes, from the 5-grams down to the single tokens. *)
Definition detect (tokenized_sentences : list (list string)) : string -> M string :=
  steps [steps (List.map on_five_gram (report_n_grams tokenized_sentences 5));
         steps (List.map on_four_gram (report_n_grams tokenized_sentences 4));
         steps (List.map on_three_gram (report_n_grams tokenized_sentences 3));
         steps (List.map on_two_gram (report_n_grams tokenized_sentences 2));
         steps (List.map on_token (report_n_grams tokenized_sentences 1))].

(** The passes between cleaning and postprocessing: the two preprocessors,
    detection, label chaining, reversion. *)
Definition passes (tokenized_sentences : list (list string))
  : list (string -> M string) :=
  [when (enabled "person") (steps [remove_report_status; remove_name_addendum]);
   detect tokenized_sentences;
   (* Replace intermediate labels by final labels *)
   replace_intermediate_labels;
   (* Revert left-over intermediate labels to original token *)
   revert_intermediate_labels].

Definition phases (tokenized_sentences : list (list string)) : string -> M string :=
  steps (passes tokenized_sentences).

(** [anonymize_report] up to the call of [postprocess_report]. *)
Definition processing (report : string) : M string :=
  (* Clean report (double spacings, etc.) *)
  report <- lift (clean_report report) ;;
  (* Tokenize report and generate n-grams *)
  tokenized_sentences <- lift (tokenize_reports report) ;;
  (* Keep a copy of the report *)
  set_original_report report ;;
  phases tokenized_sentences report.

Definition anonymize_report (report : string) : M string :=
  report <- processing report ;;
  (* Change all tokens from <LABEL_[NUM]> to <LABEL>; generate annotations *)
  postprocess_report report.

End Anonymize.

(* ===================================================================== *)
(** * Specification-side definitions *)
(* ===================================================================== *)

(** [Anonymizer(config_dir, entities).anonymize_report(report)] on a
    freshly constructed engine: the result and the engine's fields after
    the call. *)
Definition fresh_run (cfg : config) (entities : list string) (report : string)
  : res string * state :=
  match load cfg entities with
  | Ok lk => anonymize_report lk report initial_state
  | Raise e => (Raise e, initial_state)
  end.

Definition no_cues : cue_lists :=
  {| negative_lookbehinds_dates := [];
     negative_lookaheads_dates := [];
     negative_lookbehinds_times := [];
     negative_lookaheads_times := [];
     positive_lookbehinds_phone_numbers := [];
     positive_lookbehinds_person_names := [];
     positive_lookaheads_person_names := [];
     positive_lookbehinds_locations := [] |}.

(** The least configuration: every lookup table empty. *)
Definition empty_config : config :=
  {| domains_json := [];
     whitelists_json := [];
     dates_days := WordLists [] [];
     dates_months := WordLists [] [];
     locations_dutch_cities := [];
     names_family_names := [];
     names_first_names := [];
     titles_before_json := [];
     titles_after_json := [];
     cues_json := no_cues;
     recist_begin_word := "recist";
     recist_end_word := "einde" |}.

(** A small Dutch configuration: one whitelist domain with the common
    word "bos" (also a family name) and the abbreviation "ca", the day and
    month names, two family names, a title before and a title after names,
    and one cue of each kind. *)
Definition sample_config : config :=
  {| domains_json := [("general", true)];
     whitelists_json := [("general", WordLists ["bos"] ["ca"])];
     dates_days :=
       WordLists ["maandag"; "dinsdag"; "woensdag"; "donderdag"; "vrijdag";
                  "zaterdag"; "zondag"]
                 ["ma"; "di"; "wo"; "do"; "vr"; "za"; "zo"];
     dates_months :=
       WordLists ["januari"; "februari"; "maart"; "april"; "mei"; "juni"; "juli";
                  "augustus"; "september"; "oktober"; "november"; "december"]
                 ["jan"; "feb"; "mrt"; "apr"; "jun"; "jul"; "aug"; "sep"; "sept";
                  "okt"; "nov"; "dec"];
     locations_dutch_cities := ["Nijmegen"];
     names_family_names := ["Hendrix"; "Bos"];
     names_first_names := ["Jan"];
     titles_before_json := [WordLists [] ["dr"]];
     titles_after_json := [WordLists ["internist"] []];
     cues_json :=
       {| negative_lookbehinds_dates := ["leeftijd"];
          negative_lookaheads_dates := ["jaar"];
          negative_lookbehinds_times := ["serie"];
          negative_lookaheads_times := ["mm"];
          positive_lookbehinds_phone_numbers := ["sein"];
          positive_lookbehinds_person_names := ["verwijzer"];
          positive_lookaheads_person_names := ["gebeld"];
          positive_lookbehinds_locations := ["te"] |};
     recist_begin_word := "recist";
     recist_end_word := "einde" |}.

(** The configuration the Hendrix example names: the family name
    "hendrix", the title "dr" before names, the title "internist" after
    names, and nothing else. *)
Definition hendrix_config : config :=
  {| domains_json := [];
     whitelists_json := [];
     dates_days := WordLists [] [];
     dates_months := WordLists [] [];
     locations_dutch_cities := [];
     names_family_names := ["hendrix"];
     names_first_names := [];
     titles_before_json := [WordLists [] ["dr"]];
     titles_after_json := [WordLists ["internist"] []];
     cues_json := no_cues;
     recist_begin_word := "recist";
     recist_end_word := "einde" |}.

(** Python's slice bounds: a negative index counts from the end. *)
Definition slice_index (len : nat) (i : Z) : nat :=
  if (i <? 0)%Z then Z.to_nat (Z.max 0 (Z.of_nat len + i)) else Nat.min (Z.to_nat i) len.

(** [text[:start] + tag + text[end:]] *)
Definition replace_span (text : string) (span : Z * Z * string) : string :=
  let '(start, stop, tag) := span in
  Str.take (slice_index (length text) start) text ++ tag
  ++ Str.drop (slice_index (length text) stop) text.

(** The text rebuilt from an annotation: every recorded span replaced by its
    tag, the last span first so that the earlier offsets stay valid. *)
Definition reconstruct (a : annotation) : string :=
  List.fold_left replace_span (List.rev (ann_labels a)) (ann_text a).

(** The last annotation of the engine. *)
Definition last_annotation (st : state) : option annotation :=
  List.last (List.map Some (annotations st)) None.

(* ===================================================================== *)
(** * The engine on concrete reports *)
(* ===================================================================== *)



Definition unbalanced_status_report : string :=
  "x" ++ Str.nl ++ Str.nl ++ Str.nl ++ "A(" ++ Str.nl ++ "verslagstatus".

(* ===================================================================== *)
(** * Definitions for the statements about labels and the counter *)
(* ===================================================================== *)

(** A label template: an opening angle bracket, a closing one and none
    between them, one [$], no digit. *)
Definition is_angle (c : ascii) : bool := Ascii.eqb c "<" || Ascii.eqb c ">".

Definition is_template (t : string) : bool :=
  negb (Str.any Char.is_digit t)
  && (List.length (List.filter (Ascii.eqb "$") (list_ascii_of_string t)) =? 1)%nat
  && match t with
     | String "<" s =>
         match Str.rev s with
         | String ">" r => negb (Str.any is_angle r)
         | _ => false
         end
     | _ => false
     end.

(** [restamp repl t]: [t] with every [$] and every maximal run of digits
    replaced by [repl]. *)
Fixpoint restamp_aux (repl : string) (in_run : bool) (t : string) : string :=
  match t with
  | EmptyString => EmptyString
  | String c t' =>
      if Char.is_digit c
      then (if in_run then EmptyString else repl) ++ restamp_aux repl true t'
      else (if Ascii.eqb c "$" then repl else String c EmptyString)
           ++ restamp_aux repl false t'
  end.

Definition restamp (repl t : string) : string := restamp_aux repl false t.

Definition stamp_form : Re.regex :=
  Eval vm_compute in
    match Re.compile "\$|([0-9]+)" with
    | Ok c => Re.form c
    | Raise _ => Re.REps
    end.

(** The cursor after the characters [d]. *)
Definition after (d : string) (b rest : string) (p : nat) (c : list (nat * string))
  : Re.mstate :=
  Re.MState (Str.rev_append d b) rest (p + length d) c.

(** The longest prefix of characters in [P], and what follows it. *)
Fixpoint run (P : ascii -> bool) (s : string) : string :=
  match s with
  | String c s' => if P c then String c (run P s') else EmptyString
  | EmptyString => EmptyString
  end.

Fixpoint skip (P : ascii -> bool) (s : string) : string :=
  match s with
  | String c s' => if P c then skip P s' else s
  | EmptyString => EmptyString
  end.

(** A character of a label outside its counter. *)
Definition plain_char (c : ascii) : bool :=
  negb (Char.is_digit c) && negb (Ascii.eqb c "$").

Definition digits (s : string) : Prop := s <> EmptyString /\ Str.all Char.is_digit s = true.

(** A label with its counter, or with the place for it. *)
Definition stampable (t : string) : Prop :=
  exists pre mid post,
    t = pre ++ mid ++ post
    /\ Str.all plain_char pre = true /\ Str.all plain_char post = true
    /\ (mid = "$" \/ digits mid).

(** A label that carries the counter value [n]. *)
Definition stamped (n : N) (t : string) : Prop :=
  exists pre post,
    t = pre ++ Str.of_N n ++ post
    /\ Str.all plain_char pre = true /\ Str.all plain_char post = true.

(** No two keys of the replacement map carry the same counter value. *)
Definition distinct_counters (d : list (string * string)) : Prop :=
  forall k1 k2 n,
    In k1 (Dict.keys d) -> In k2 (Dict.keys d) -> stamped n k1 -> stamped n k2 -> k1 = k2.

(** Every key of the replacement map carries a counter value below the
    engine's counter, and no two keys the same one. *)
Definition fresh_below (st : state) : Prop :=
  (forall k, In k (Dict.keys (replace_dict st)) ->
     exists n, (n < counter st)%N /\ stamped n k)
  /\ distinct_counters (replace_dict st).

(** What every method of the detection passes guarantees between the
    fields before and after it. *)
Definition extends (st st' : state) : Prop :=
  annotations st' = annotations st
  /\ original_report st' = original_report st
  /\ (counter st <= counter st')%N
  /\ (fresh_below st ->
      fresh_below st'
      /\ List.length (replace_dict st')
         = (List.length (replace_dict st) + N.to_nat (counter st' - counter st))%nat
      /\ forall k v, Dict.get k (replace_dict st) = Some v ->
                     Dict.get k (replace_dict st') = Some v).

(** One call of the engine's interface, and the engine's fields after a
    sequence of calls on a freshly constructed engine. *)
Inductive call : Set :=
| CallAnonymize (report : string)
| CallAddMetadata (index : nat) (meta_dict : list (string * string)).

Definition perform (lk : lookups) (st : state) (c : call) : state :=
  match c with
  | CallAnonymize report => snd (anonymize_report lk report st)
  | CallAddMetadata index meta_dict => snd (add_metadata index meta_dict st)
  end.

Definition after_calls (lk : lookups) (calls : list call) : state :=
  List.fold_left (perform lk) calls initial_state.

(** The fields with which the passes start: those of the call, with the
    cleaned report kept as the original. *)
Definition with_original (cleaned : string) (st : state) : state :=
  State (counter st) (replace_dict st) cleaned (annotations st).

Definition no_lookups : lookups :=
  {| whitelist_full := []; whitelist_abbreviated := []; whitelist := [];
     entities_to_anonymize := []; days := []; days_abbreviated := [];
     months := []; months_abbreviated := []; dutch_cities := [];
     family_names := []; first_names := []; titles_before := [];
     titles_after := []; cues := no_cues; recist_begin := ""; recist_end := "" |}.

(** The lookup tables of the sample configuration with every entity kind
    enabled. *)
Definition sample_lookups : lookups :=
  Eval vm_compute in
    match load sample_config default_entities with
    | Ok lk => lk
    | Raise _ => no_lookups
    end.

(** A character that stands for itself in a pattern, and a character that
    does so after a backslash. *)
Definition lit_char (c : ascii) : bool :=
  (Char.code c <? 128)%nat
  && negb (Str.any (Ascii.eqb c) ".^$*+?{\[()|").

Definition esc_char (c : ascii) : bool :=
  (Char.code c <? 128)%nat && negb (Char.is_alnum c).

(** [spells p x]: the pattern text [p] is [x] written with literal
    characters and escaped characters. *)
Inductive spells : string -> string -> Prop :=
| spells_nil : spells EmptyString EmptyString
| spells_lit (c : ascii) (p x : string) :
    lit_char c = true -> spells p x -> spells (String c p) (String c x)
| spells_esc (c : ascii) (p x : string) :
    esc_char c = true -> spells p x -> spells (String "\" (String c p)) (String c x).

(** The form of a pattern that spells [x], before the form [r] of what
    follows. *)
Fixpoint lits (x : string) (r : Re.regex) : Re.regex :=
  match x with
  | EmptyString => r
  | String c x' => Re.RSeq (Re.RChar c) (lits x' r)
  end.

(** [fwd s s']: the cursor [s'] is the cursor [s] moved over some
    characters of the subject. *)
Definition fwd (s s' : Re.mstate) : Prop :=
  exists d,
    Re.aft s = d ++ Re.aft s'
    /\ Re.bef s' = Str.rev_append d (Re.bef s)
    /\ Re.pos s' = (Re.pos s + length d)%nat.

(** The subject a list of matches and a tail come from. *)
Fixpoint rebuilt (fs : list Re.found) (tail : string) : string :=
  match fs with
  | [] => tail
  | f :: fs' => Re.skipped f ++ Re.matched f ++ rebuilt fs' tail
  end.

(** A text in angle brackets without an angle bracket inside. *)
Definition bracketed (w : string) : Prop :=
  exists body, w = String "<" (body ++ ">") /\ Str.any is_angle body = false.

(** A counter-stamped label [<KIND_N>], the matches of ["<[A-Z_]+[0-9]+>"]. *)
Definition kind_char (c : ascii) : bool := Char.is_upper c || Ascii.eqb c "_".

Definition is_label (w : string) : bool :=
  match w with
  | String "<" s =>
      negb (Str.is_empty (run kind_char s))
      && negb (Str.is_empty (run Char.is_digit (skip kind_char s)))
      && String.eqb (skip Char.is_digit (skip kind_char s)) ">"
  | _ => false
  end.

Definition occurs_in (w t : string) : Prop := exists a b, t = a ++ w ++ b.

(** Every label in the working text is a key of the replacement map. *)
Definition labels_known (text : string) (d : list (string * string)) : Prop :=
  forall w, is_label w = true -> occurs_in w text -> In w (Dict.keys d).

(** A label, or a template of one, in brackets. *)
Definition label_tmpl (t : string) : Prop := stampable t /\ bracketed t.

(** The invariant of the working text: every label in it has its entry. *)
Definition known (report : string) (st : state) : Prop :=
  labels_known report (replace_dict st).

(** [post c Q st]: when the method [c], started with the fields [st],
    returns, its result and the fields satisfy [Q]. *)
Definition post {A} (c : M A) (Q : A -> state -> Prop) (st : state) : Prop :=
  match c st with
  | (Ok a, st') => Q a st'
  | (Raise _, _) => True
  end.

(** [holds report c]: the method [c], started on a working text whose
    labels have their entries, returns such a text. *)
Definition holds (report : string) (c : M string) : Prop :=
  forall st, known report st -> post c known st.

(** The forms of the patterns of the substitution primitives. *)
Definition not_behind (c : ascii) : Re.regex :=
  Re.RLookbehind true 1 (Re.RSeq (Re.RChar c) Re.REps).

Definition not_ahead (c : ascii) : Re.regex :=
  Re.RLookahead true (Re.RSeq (Re.RChar c) Re.REps).

Definition text_tail : Re.regex :=
  Re.RSeq (Re.RWordB false)
    (Re.RSeq (not_ahead "/") (Re.RSeq (not_ahead "-") (Re.RSeq (not_ahead "_") Re.REps))).

(** The form of [pat_text x]. *)
Definition text_form (x : string) : Re.regex :=
  Re.RSeq (Re.RWordB false)
    (Re.RSeq (not_behind "/") (Re.RSeq (not_behind "-") (Re.RSeq (not_behind "_")
       (lits x text_tail)))).

(** A text of ASCII characters. *)
Definition ascii_text (x : string) : bool :=
  Str.all (fun c => (Char.code c <? 128)%nat) x.

(** What [pat_text x] asks of the text around a cursor: a word boundary
    before and after [x], and no slash, hyphen or underscore next to it. *)
Definition word_edge (b a : string) : bool :=
  xorb (Re.head_is Char.is_word b) (Re.head_is Char.is_word a).

Definition joiner (c : ascii) : bool :=
  Ascii.eqb "/" c || Ascii.eqb "-" c || Ascii.eqb "_" c.

Definition text_at (x b a : string) : bool :=
  word_edge b a && negb (Re.head_is joiner b) && Str.prefixb x a
  && word_edge (Str.rev_append x b) (Str.drop (length x) a)
  && negb (Re.head_is joiner (Str.drop (length x) a)).

(** [no_match r s]: the form [r] matches at no cursor of the subject [s]. *)
Definition no_match (r : Re.regex) (s : string) : Prop :=
  forall pre a' k, s = pre ++ a' ->
    Re.m r k (Re.MState (Str.rev pre) a' (0 + length pre) []) = None.


(** The label a template gives at a counter value. *)
Definition label_at (t_id : string) (c : N) : string := restamp (Str.of_N c) t_id.



(** ** Written dates *)

(** [lo <= int(s) <= hi] holds and [int(s)] does not raise. *)
Definition in_range (lo hi : N) (s : string) : bool :=
  match int_in lo hi s with
  | Ok b => b
  | Raise _ => false
  end.

(** A day of the month in one or two digits, a month in one or two digits,
    a year of four digits in the 1900s or 2000s. *)
Definition day_text (d : string) : bool :=
  Str.isdigit d && len_le d 2 && in_range 1 31 d.

Definition month_text (m : string) : bool :=
  Str.isdigit m && len_le m 2 && in_range 1 12 m.

Definition year_text (y : string) : bool :=
  Str.isdigit y && len_eq y 4 && century y.

(** Three parts joined by one separator character. *)
Definition joined (sep : ascii) (d m y : string) : string :=
  d ++ String sep (m ++ String sep y).

(** A list of words made of letters only. *)
Definition alphabetic (l : list string) : bool := forallb Str.isalpha l.

(** The three literal forms of a date: day, month and year in digits joined
    by hyphens or by slashes, and day, month name, year separated by
    spaces. *)
Inductive written_date (lk : lookups) : string -> Prop :=
| numeric_date (sep : ascii) (d m y : string) :
    sep = "-"%char \/ sep = "/"%char ->
    day_text d = true -> month_text m = true -> year_text y = true ->
    written_date lk (joined sep d m y)
| named_date (d month y : string) :
    day_text d = true -> is_month lk month = true -> year_text y = true ->
    written_date lk (joined " " d month y).

(** The lookup tables of the sample configuration with dates enabled alone. *)
Definition date_lookups : lookups :=
  Eval vm_compute in
    match load sample_config ["date"] with
    | Ok lk => lk
    | Raise _ => no_lookups
    end.

(** The fields of the engine after its first report, when that report held
    the labels [labels]. *)
Definition after_first (cleaned : string) (labels : list (Z * Z * string)) : state :=
  {| counter := 10001;
     replace_dict := [];
     original_report := cleaned;
     annotations := [Annotation cleaned labels None] |}.

(** ** The Hendrix example with the titles in either list *)

(** One title group with the word in its full or in its abbreviated list. *)
Definition title_group (in_full : bool) (w : string) : list word_lists :=
  [if in_full then WordLists [w] [] else WordLists [] [w]].

(** The configuration of the Hendrix example: the family name "hendrix",
    the title "dr" before names, the title "internist" after names, each
    title in the full or in the abbreviated list, and nothing else. *)
Definition hendrix_config_with (dr_full internist_full : bool) : config :=
  {| domains_json := [];
     whitelists_json := [];
     dates_days := WordLists [] [];
     dates_months := WordLists [] [];
     locations_dutch_cities := [];
     names_family_names := ["hendrix"];
     names_first_names := [];
     titles_before_json := title_group dr_full "dr";
     titles_after_json := title_group internist_full "internist";
     cues_json := no_cues;
     recist_begin_word := "recist";
     recist_end_word := "einde" |}.

(** Person anonymization enabled alone, or with every other entity kind. *)
Definition person_kinds (all_kinds : bool) : list string :=
  if all_kinds then default_entities else ["person"].

(** ** Patterns that need a character *)

(** [needs c r]: the form [r] matches only in a subject that holds the
    character [c]: in the match itself, or in the text a lookahead or a
    lookbehind asks for. *)
Fixpoint needs (c : ascii) (r : Re.regex) : bool :=
  match r with
  | Re.RChar d => Ascii.eqb d c
  | Re.RSeq r1 r2 => needs c r1 || needs c r2
  | Re.RAlt r1 r2 => needs c r1 && needs c r2
  | Re.RRep r0 lo _ _ => (0 <? lo)%nat && needs c r0
  | Re.RGroup _ r0 => needs c r0
  | Re.RLookahead false r0 => needs c r0
  | Re.RLookbehind false _ r0 => needs c r0
  | _ => false
  end.

(** A pattern that compiles to a form that needs the character [c]. *)
Definition pattern_needs (c : ascii) (p : string) : bool :=
  match Re.compile p with
  | Ok f => needs c (Re.form f)
  | Raise _ => false
  end.

(** ** Tokens *)

(** What [str.split()] gives: a text that is not empty and holds no
    whitespace. *)
Definition is_token (t : string) : Prop :=
  t <> EmptyString /\ Str.any Char.is_space t = false.

(* ===================================================================== *)
(** * Properties *)
(* ===================================================================== *)


(** * A program logic for the engine's methods *)

Section Keeps.

Variable R : state -> state -> Prop.
Variable good_key : state -> string -> Prop.
Variable tmpl : string -> Prop.

Hypothesis R_refl : forall st, R st st.
Hypothesis R_trans : forall a b c, R a b -> R b c -> R a c.
Hypothesis R_record :
  forall t v st, good_key st t -> R st (snd (record t v st)).
Hypothesis stamp_good :
  forall t st t' st',
    tmpl t -> stamp t st = (Ok t', st') -> good_key st t' /\ tmpl t'.
Hypothesis tmpl_template : forall t, is_template t = true -> tmpl t.
Hypothesis label_good :
  forall kind st, kind = "GEAUTORISEERD" \/ kind = "PERSOON" ->
    good_key st (label_of kind (counter st)).

Definition keeps {A} (c : M A) : Prop := forall st, R st (snd (c st)).

Lemma keeps_ret {A} (a : A) : keeps (ret a).
Proof. intros st. apply R_refl. Qed.

Lemma keeps_lift {A} (r : res A) : keeps (lift r).
Proof. intros st. apply R_refl. Qed.

Lemma keeps_bind {A B} (c : M A) (f : A -> M B) :
  keeps c -> (forall a, keeps (f a)) -> keeps (bind c f).
Proof.
  intros Hc Hf st. unfold bind.
  specialize (Hc st). destruct (c st) as [[a | e] st1]; simpl in *.
  - eapply R_trans; [exact Hc | apply Hf].
  - exact Hc.
Qed.

Lemma keeps_when c f report :
  (forall r, keeps (f r)) -> keeps (when c f report).
Proof. intros H. unfold when. destruct c; [apply H | apply keeps_ret]. Qed.

Lemma keeps_guard c f report :
  (forall r, keeps (f r)) -> keeps (guard c f report).
Proof.
  intros H. unfold guard. apply keeps_bind; [apply keeps_lift |].
  intros []; [apply H | apply keeps_ret].
Qed.

Lemma keeps_steps fs :
  Forall (fun f => forall r, keeps (f r)) fs -> forall report, keeps (steps fs report).
Proof.
  induction 1 as [| f fs Hf _ IH]; intros report; simpl.
  - apply keeps_ret.
  - apply keeps_bind; [apply Hf | exact IH].
Qed.

Lemma keeps_steps_map {X} (g : X -> string -> M string) l :
  (forall x r, keeps (g x r)) -> forall report, keeps (steps (List.map g l) report).
Proof.
  intros H. apply keeps_steps. induction l; constructor; auto.
Qed.

Lemma keeps_get_counter : keeps get_counter.
Proof. intros st. apply R_refl. Qed.

Lemma keeps_lookup k : keeps (lookup k).
Proof. intros st. unfold lookup. destruct (Dict.get _ _); apply R_refl. Qed.

Lemma stamp_state t st : snd (stamp t st) = st.
Proof.
  unfold stamp, bind, get_counter, lift.
  destruct (Re.sub _ _ _ _); reflexivity.
Qed.

Lemma keeps_replace_each pat matches :
  forall report t_id, tmpl t_id -> keeps (replace_each pat matches report t_id).
Proof.
  induction matches as [| mt rest IH]; intros report t_id Ht st; simpl.
  - apply R_refl.
  - unfold bind at 1.
    pose proof (stamp_state t_id st) as Hs.
    destruct (stamp t_id st) as [[t | e] st1] eqn:E; simpl in Hs; subst st1;
      [| apply R_refl].
    destruct (@stamp_good _ _ _ _ Ht E) as [Hg Ht'].
    unfold bind at 1, lift at 1.
    destruct (Re.sub (pat mt) t report 1) as [report' | e]; [| apply R_refl].
    unfold bind at 1.
    pose proof (@R_record t mt st Hg) as Hr.
    destruct (record t mt st) as [[[] | e] st2] eqn:E2; simpl in Hr.
    + eapply R_trans; [exact Hr | apply IH; exact Ht'].
    + exact Hr.
Qed.

Lemma keeps_replace_with pat report input_text t_id :
  tmpl t_id -> keeps (replace_with pat report input_text t_id).
Proof.
  intros Ht. unfold replace_with.
  apply keeps_bind; [apply keeps_lift |].
  intros ms. apply keeps_replace_each; exact Ht.
Qed.

Lemma keeps_text x t_id report : tmpl t_id -> keeps (text x t_id report).
Proof. apply keeps_replace_with. Qed.

Lemma keeps_no_escape x t_id report : tmpl t_id -> keeps (no_escape x t_id report).
Proof. apply keeps_replace_with. Qed.

Lemma keeps_end_dot x t_id report : tmpl t_id -> keeps (end_dot x t_id report).
Proof. apply keeps_replace_with. Qed.

Lemma keeps_all_end_dot x t_id report : tmpl t_id -> keeps (all_end_dot x t_id report).
Proof. apply keeps_replace_with. Qed.

Lemma keeps_no_hyphen lk x t_id report : tmpl t_id -> keeps (no_hyphen lk x t_id report).
Proof.
  intros Ht. unfold no_hyphen, replace_text_no_hyphen.
  apply keeps_bind; [apply keeps_lift |].
  intros c. destruct (Ascii.eqb c "."); apply keeps_replace_with; exact Ht.
Qed.

Lemma keeps_replace_each_outside pat b e matches :
  forall report t_id, tmpl t_id -> keeps (replace_each_outside pat b e matches report t_id).
Proof.
  induction matches as [| [[s0 e0] mv] rest IH]; intros report t_id Ht st; simpl.
  - apply R_refl.
  - destruct (_ || _)%bool; [| apply IH; exact Ht].
    unfold bind at 1.
    pose proof (stamp_state t_id st) as Hs.
    destruct (stamp t_id st) as [[t | err] st1] eqn:E; simpl in Hs; subst st1;
      [| apply R_refl].
    destruct (@stamp_good _ _ _ _ Ht E) as [Hg Ht'].
    unfold bind at 1, lift at 1.
    destruct (Re.sub (pat mv) t report 1) as [report' | err]; [| apply R_refl].
    unfold bind at 1.
    pose proof (@R_record t mv st Hg) as Hr.
    destruct (record t mv st) as [[[] | err] st2] eqn:E2; simpl in Hr.
    + eapply R_trans; [exact Hr | apply IH; exact Ht'].
    + exact Hr.
Qed.

Lemma keeps_with_exceptions lk x behind ahead t_id report :
  tmpl t_id -> keeps (with_exceptions lk x behind ahead t_id report).
Proof.
  intros Ht. unfold with_exceptions, replace_text_with_exceptions.
  apply keeps_bind; [apply keeps_lift |]. intros [b e].
  apply keeps_bind; [apply keeps_lift |]. intros ms.
  apply keeps_replace_each_outside; exact Ht.
Qed.

Lemma keeps_persons report pattern t_id :
  tmpl t_id -> keeps (replace_text_persons report pattern t_id).
Proof.
  intros Ht. unfold replace_text_persons.
  apply keeps_bind; [apply keeps_lift |].
  intros ms. apply keeps_replace_each; exact Ht.
Qed.

Lemma keeps_record_label kind v :
  kind = "GEAUTORISEERD" \/ kind = "PERSOON" ->
  forall (k : string -> M string) (sub : string -> res string),
  (forall r, keeps (k r)) ->
  keeps (c <- get_counter ;;
         r <- lift (sub (label_of kind c)) ;;
         record (label_of kind c) v ;; k r).
Proof.
  intros Hk k sub Hkeep st.
  unfold bind at 1, get_counter. unfold bind at 1, lift at 1.
  destruct (sub _) as [r | e]; [| apply R_refl].
  unfold bind at 1.
  pose proof (@R_record (label_of kind (counter st)) v st (@label_good kind st Hk)) as Hr.
  destruct (record _ v st) as [[[] | e] st2]; simpl in Hr.
  - eapply R_trans; [exact Hr | apply Hkeep].
  - exact Hr.
Qed.

Lemma keeps_status_loop groups : forall report, keeps (status_loop groups report).
Proof.
  induction groups as [| g rest IH]; intros report; simpl.
  - apply keeps_ret.
  - apply keeps_bind; [apply keeps_lift |]. intros [|]; [| apply IH].
    apply (@keeps_record_label "GEAUTORISEERD" (Str.join Str.nl g) (or_introl eq_refl)
             (fun r => status_loop rest r)
             (fun t => Re.sub (Str.join Str.nl g) t report 0)).
    exact IH.
Qed.

Lemma keeps_remove_report_status report : keeps (remove_report_status report).
Proof. apply keeps_status_loop. Qed.

Lemma keeps_addendum_loop lines : keeps (addendum_loop lines).
Proof.
  induction lines as [| line rest IH]; simpl.
  - apply keeps_ret.
  - apply keeps_bind.
    + destruct (Str.contains _ _); [| apply keeps_ret].
      apply keeps_bind; [apply keeps_lift |]. intros [| m0 ms]; [apply keeps_ret |].
      apply (@keeps_record_label "PERSOON" m0 (or_intror eq_refl)
               (fun r => ret r) (fun t => Re.sub m0 t line 0)).
      intros r. apply keeps_ret.
    + intros l. apply keeps_bind; [exact IH |]. intros nr. apply keeps_ret.
Qed.

Lemma keeps_remove_name_addendum report : keeps (remove_name_addendum report).
Proof.
  unfold remove_name_addendum. apply keeps_bind; [apply keeps_addendum_loop |].
  intros nr. apply keeps_ret.
Qed.

Ltac keeps_step :=
  lazymatch goal with
  | |- keeps (ret _) => apply keeps_ret
  | |- keeps (lift _) => apply keeps_lift
  | |- keeps (text _ _ _) => apply keeps_text; apply tmpl_template; reflexivity
  | |- keeps (no_escape _ _ _) => apply keeps_no_escape; apply tmpl_template; reflexivity
  | |- keeps (end_dot _ _ _) => apply keeps_end_dot; apply tmpl_template; reflexivity
  | |- keeps (all_end_dot _ _ _) => apply keeps_all_end_dot; apply tmpl_template; reflexivity
  | |- keeps (no_hyphen _ _ _ _) => apply keeps_no_hyphen; apply tmpl_template; reflexivity
  | |- keeps (with_exceptions _ _ _ _ _ _) =>
      apply keeps_with_exceptions; apply tmpl_template; reflexivity
  | |- keeps (replace_text_persons _ _ _) => apply keeps_persons; apply tmpl_template; reflexivity
  | |- keeps (bind _ _) => apply keeps_bind; [| intros ?]
  | |- keeps (when _ _ _) => apply keeps_when; intros ?
  | |- keeps (guard _ _ _) => apply keeps_guard; intros ?
  | |- keeps (steps (List.map _ _) _) => apply keeps_steps_map; intros ? ?
  | |- keeps (steps _ _) =>
      apply keeps_steps; repeat (apply Forall_cons || apply Forall_nil); intros ?
  | |- keeps (match ?x with _ => _ end) => destruct x
  | |- keeps (let _ := _ in _) => cbv zeta
  | |- keeps ((fun _ => _) _) => cbv beta
  end.

Ltac keeps_tac := repeat keeps_step.

Lemma keeps_replace_family_names lk report tokens :
  keeps (replace_family_names lk report tokens).
Proof. unfold replace_family_names. keeps_tac. Qed.

Lemma keeps_replace_initials lk report tokens :
  keeps (replace_initials lk report tokens).
Proof. unfold replace_initials. keeps_tac. Qed.

Lemma keeps_replace_dates lk report tokens :
  keeps (replace_dates lk report tokens).
Proof. unfold replace_dates. keeps_tac. Qed.

Lemma keeps_replace_titles lk report tokens : keeps (replace_titles lk report tokens).
Proof. unfold replace_titles. keeps_tac. Qed.

Lemma keeps_replace_phonenumbers lk report tokens :
  keeps (replace_phonenumbers lk report tokens).
Proof. unfold replace_phonenumbers. keeps_tac. Qed.

Lemma keeps_replace_time lk report tokens : keeps (replace_time lk report tokens).
Proof. unfold replace_time. keeps_tac. Qed.

Lemma keeps_replace_cues lk report tokens : keeps (replace_cues lk report tokens).
Proof. unfold replace_cues. keeps_tac. Qed.

Lemma keeps_replace_patientnumber report tokens :
  keeps (replace_patientnumber report tokens).
Proof. unfold replace_patientnumber. keeps_tac. Qed.

Lemma keeps_replace_znumber report tokens : keeps (replace_znumber report tokens).
Proof. unfold replace_znumber. keeps_tac. Qed.

Lemma keeps_replace_firstnames lk report tokens :
  keeps (replace_firstnames lk report tokens).
Proof. unfold replace_firstnames. keeps_tac. Qed.

Lemma keeps_replace_reportid report tokens : keeps (replace_reportid report tokens).
Proof. unfold replace_reportid. keeps_tac. Qed.

Lemma keeps_replace_cities lk report tokens : keeps (replace_cities lk report tokens).
Proof. unfold replace_cities. keeps_tac. Qed.

Lemma keeps_on lk entity detector tokens report :
  (forall r, keeps (detector r tokens)) -> keeps (on lk entity detector tokens report).
Proof. intros H. unfold on. apply keeps_when. exact H. Qed.

Ltac keeps_on :=
  apply keeps_on; intros ?;
  lazymatch goal with
  | |- keeps (replace_family_names _ _ _) => apply keeps_replace_family_names
  | |- keeps (replace_initials _ _ _) => apply keeps_replace_initials
  | |- keeps (replace_dates _ _ _) => apply keeps_replace_dates
  | |- keeps (replace_titles _ _ _) => apply keeps_replace_titles
  | |- keeps (replace_phonenumbers _ _ _) => apply keeps_replace_phonenumbers
  | |- keeps (replace_time _ _ _) => apply keeps_replace_time
  | |- keeps (replace_cues _ _ _) => apply keeps_replace_cues
  | |- keeps (replace_patientnumber _ _) => apply keeps_replace_patientnumber
  | |- keeps (replace_znumber _ _) => apply keeps_replace_znumber
  | |- keeps (replace_firstnames _ _ _) => apply keeps_replace_firstnames
  | |- keeps (replace_reportid _ _) => apply keeps_replace_reportid
  | |- keeps (replace_cities _ _ _) => apply keeps_replace_cities
  end.

Lemma keeps_detect lk tokenized report : keeps (detect lk tokenized report).
Proof.
  unfold detect.
  apply keeps_steps; repeat (apply Forall_cons || apply Forall_nil); intros r;
    apply keeps_steps_map; intros g r';
    [ unfold on_five_gram | unfold on_four_gram | unfold on_three_gram
    | unfold on_two_gram | unfold on_token ];
    (apply keeps_steps; repeat (apply Forall_cons || apply Forall_nil); intros r'';
     keeps_on).
Qed.

Lemma keeps_merge_loop patterns :
  Forall (fun pl => is_template (snd pl) = true) patterns ->
  forall report, keeps (merge_loop patterns report).
Proof.
  induction 1 as [| [p l] rest Hl _ IH]; intros report; simpl.
  - apply keeps_ret.
  - apply keeps_bind; [| exact IH].
    apply keeps_persons. apply tmpl_template. exact Hl.
Qed.

Lemma merge_patterns_templates t_id :
  Forall (fun pl => is_template (snd pl) = true) (merge_patterns t_id).
Proof.
  unfold merge_patterns. repeat (apply Forall_cons; [reflexivity |]). apply Forall_nil.
Qed.

Lemma keeps_replace_intermediate_labels report :
  keeps (replace_intermediate_labels report).
Proof.
  unfold replace_intermediate_labels. apply keeps_steps_map. intros t r.
  apply keeps_merge_loop. apply merge_patterns_templates.
Qed.

Lemma keeps_revert_each matches : forall report, keeps (revert_each matches report).
Proof.
  induction matches as [| mt rest IH]; intros report; simpl.
  - apply keeps_ret.
  - apply keeps_bind; [apply keeps_lookup |]. intros o.
    apply keeps_bind; [apply keeps_lift |]. exact IH.
Qed.

Lemma keeps_revert_intermediate_labels report :
  keeps (revert_intermediate_labels report).
Proof.
  unfold revert_intermediate_labels.
  apply keeps_bind; [apply keeps_lift |]. intros found.
  apply keeps_steps_map. intros ms r. apply keeps_revert_each.
Qed.

Lemma keeps_passes lk tokenized :
  Forall (fun f => forall r, keeps (f r)) (passes lk tokenized).
Proof.
  unfold passes. repeat (apply Forall_cons || apply Forall_nil); intros r.
  - apply keeps_when. intros r'.
    apply keeps_steps; repeat (apply Forall_cons || apply Forall_nil); intros r''.
    + apply keeps_remove_report_status.
    + apply keeps_remove_name_addendum.
  - apply keeps_detect.
  - apply keeps_replace_intermediate_labels.
  - apply keeps_revert_intermediate_labels.
Qed.

Lemma keeps_phases lk tokenized report : keeps (phases lk tokenized report).
Proof. unfold phases. apply keeps_steps. apply keeps_passes. Qed.

End Keeps.


Lemma append_assoc (a b c : string) : (a ++ b) ++ c = a ++ (b ++ c).
Proof. induction a; simpl; congruence. Qed.

Lemma append_nil_r (a : string) : a ++ "" = a.
Proof. induction a; simpl; congruence. Qed.

Lemma append_length (a b : string) : length (a ++ b) = (length a + length b)%nat.
Proof. induction a; simpl; congruence. Qed.

Lemma take_append (d rest : string) : Str.take (length d) (d ++ rest) = d.
Proof. induction d; simpl; [destruct rest; reflexivity | congruence]. Qed.

Lemma rev_append_app (s acc : string) : Str.rev_append s acc = Str.rev s ++ acc.
Proof.
  unfold Str.rev. revert acc.
  induction s as [| c s IH]; intros acc; simpl; [reflexivity |].
  rewrite (IH (String c acc)), (IH (String c "")), append_assoc. reflexivity.
Qed.

Lemma rev_rev_append (s acc : string) :
  Str.rev (Str.rev_append s acc) = Str.rev acc ++ s.
Proof.
  revert acc. induction s as [| c s IH]; intros acc; simpl.
  - rewrite append_nil_r. reflexivity.
  - rewrite IH. unfold Str.rev at 1. simpl. rewrite rev_append_app, append_assoc.
    reflexivity.
Qed.

(** Greedy repetition of a one-character class: when the continuation
    accepts the cursor after the longest run, that is the result. *)
Lemma rep_loop_run (P : ascii -> bool) (lo : nat) (k : Re.mstate -> option Re.mstate)
  (rest : string) (e : Re.mstate) :
  Re.head_is P rest = false ->
  forall (d b : string) (p : nat) (c : list (nat * string)) (fuel count : nat)
         (last : option nat),
    Str.all P d = true ->
    (length d < fuel)%nat ->
    (lo <= count + length d)%nat ->
    (forall q, last = Some q -> (q < p)%nat) ->
    k (after d b rest p c) = Some e ->
    Re.rep_loop (Re.one P) lo None true k fuel count last (Re.MState b (d ++ rest) p c)
    = Some e.
Proof.
  intros Hrest d. induction d as [| x d IH]; intros b p c fuel count last Hd Hf Hlo Hl Hk.
  - destruct fuel as [| fuel]; [simpl in Hf; lia |].
    simpl in Hlo. simpl.
    replace (count <? lo)%nat with false by (symmetry; apply Nat.ltb_ge; lia).
    assert (Hs : Re.same_pos last (Re.MState b rest p c) = false).
    { destruct last as [q |]; simpl; [| reflexivity].
      apply Nat.eqb_neq. specialize (Hl q eq_refl). lia. }
    rewrite Hs. simpl.
    assert (Hone : forall k', Re.one P k' (Re.MState b rest p c) = None).
    { intros k'. unfold Re.one. simpl. destruct rest as [| y rest']; [reflexivity |].
      simpl in Hrest. rewrite Hrest. reflexivity. }
    rewrite Hone. simpl.
    unfold after in Hk. simpl in Hk. rewrite Nat.add_0_r in Hk. exact Hk.
  - destruct fuel as [| fuel]; [simpl in Hf; lia |].
    simpl in Hd. apply andb_prop in Hd. destruct Hd as [Hx Hd].
    simpl in Hf, Hlo.
    assert (Hk' : k (after d (String x b) rest (S p) c) = Some e).
    { unfold after in *. simpl in Hk. rewrite <- Hk. f_equal. f_equal. lia. }
    simpl Re.rep_loop.
    destruct (count <? lo)%nat eqn:Hc.
    + unfold Re.one at 1. simpl. rewrite Hx.
      apply IH; try assumption; try lia.
      intros q Hq. specialize (Hl q Hq). lia.
    + assert (Hs : Re.same_pos last (Re.MState b (String x (d ++ rest)) p c) = false).
      { destruct last as [q |]; simpl; [| reflexivity].
        apply Nat.eqb_neq. specialize (Hl q eq_refl). lia. }
      rewrite Hs. simpl.
      unfold Re.one at 1. simpl. rewrite Hx.
      rewrite IH; try assumption; try lia; [reflexivity |].
      intros q Hq. inversion Hq. lia.
Qed.

Lemma run_skip (P : ascii -> bool) (s : string) : run P s ++ skip P s = s.
Proof. induction s as [| c s IH]; simpl; [reflexivity |]. destruct (P c); simpl; congruence. Qed.

Lemma run_all (P : ascii -> bool) (s : string) : Str.all P (run P s) = true.
Proof. induction s as [| c s IH]; simpl; [reflexivity |]. destruct (P c) eqn:E; simpl; [rewrite E |]; auto. Qed.

Lemma skip_head (P : ascii -> bool) (s : string) : Re.head_is P (skip P s) = false.
Proof. induction s as [| c s IH]; simpl; [reflexivity |]. destruct (P c) eqn:E; simpl; auto. Qed.

Lemma skip_length (P : ascii -> bool) (s : string) : (length (skip P s) <= length s)%nat.
Proof. induction s as [| c s IH]; simpl; [lia |]. destruct (P c); simpl; lia. Qed.

(** The same, for the run at the head of the text. *)
Lemma rep_loop_greedy (P : ascii -> bool) (lo : nat) (k : Re.mstate -> option Re.mstate)
  (b a : string) (p : nat) (c : list (nat * string)) (fuel : nat) (e : Re.mstate) :
  (length a < fuel)%nat ->
  (lo <= length (run P a))%nat ->
  k (after (run P a) b (skip P a) p c) = Some e ->
  Re.rep_loop (Re.one P) lo None true k fuel 0 None (Re.MState b a p c) = Some e.
Proof.
  intros Hf Hlo Hk.
  pose proof (run_skip P a) as Ha.
  rewrite <- Ha at 1.
  apply rep_loop_run; try assumption.
  - apply skip_head.
  - apply run_all.
  - apply (f_equal length) in Ha. rewrite append_length in Ha. lia.
  - intros q Hq. discriminate Hq.
Qed.

Lemma run_ext (P Q : ascii -> bool) (s : string) :
  (forall c, P c = Q c) -> run P s = run Q s /\ skip P s = skip Q s.
Proof.
  intros H. induction s as [| c s [IH1 IH2]]; simpl; [split; reflexivity |].
  rewrite H. destruct (Q c); split; congruence.
Qed.

Lemma compile_stamp :
  Re.compile "\$|([0-9]+)" = Ok {| Re.form := stamp_form; Re.groups := 1 |}.
Proof. vm_compute. reflexivity. Qed.

Lemma digit_set (c : ascii) :
  Re.in_set false [Re.CRange "0" "9"] c = Char.is_digit c.
Proof. unfold Re.in_set. simpl. rewrite orb_false_r. reflexivity. Qed.

Lemma digit_not_dollar (c : ascii) : Char.is_digit c = true -> Ascii.eqb "$" c = false.
Proof.
  intros H. destruct (Ascii.eqb "$" c) eqn:E; [| reflexivity].
  apply Ascii.eqb_eq in E. subst c. discriminate H.
Qed.

(** The stamping pattern at a cursor, under a continuation that accepts
    every cursor further on. *)
Lemma m_stamp (k : Re.mstate -> option Re.mstate) (b a : string) (p : nat) :
  (forall e, (p < Re.pos e)%nat -> k e = Some e) ->
  Re.m stamp_form k (Re.MState b a p []) =
  match a with
  | EmptyString => None
  | String c a' =>
      if Ascii.eqb "$" c then Some (Re.MState (String c b) a' (S p) [])
      else if Char.is_digit c
           then Some (after (run Char.is_digit a) b (skip Char.is_digit a) p
                        [(1, run Char.is_digit a)])
           else None
  end.
Proof.
  intros Hk. unfold stamp_form.
  cbn [Re.m]. unfold Re.orelse.
  destruct a as [| c a'].
  - unfold Re.one at 1. simpl. reflexivity.
  - unfold Re.one at 1. cbn [Re.aft].
    destruct (Ascii.eqb "$" c) eqn:Ed.
    + rewrite Hk by (simpl; lia). reflexivity.
    + destruct (Char.is_digit c) eqn:Edig.
      * set (a := String c a').
        destruct (@run_ext (Re.in_set false [Re.CRange "0" "9"]) Char.is_digit a digit_set)
          as [Hrun Hskip].
        change (fun (k0 : Re.mstate -> option Re.mstate) (s : Re.mstate) =>
                  Re.one (Re.in_set false [Re.CRange "0" "9"]) k0 s)
          with (Re.one (Re.in_set false [Re.CRange "0" "9"])).
        rewrite rep_loop_greedy
          with (e := after (run Char.is_digit a) b (skip Char.is_digit a) p
                       [(1, run Char.is_digit a)]).
        -- reflexivity.
        -- lia.
        -- rewrite Hrun. subst a. simpl. rewrite Edig. simpl. lia.
        -- rewrite Hrun, Hskip. cbn [Re.pos].
           assert (Hpos : (p < p + length (run Char.is_digit a))%nat).
           { subst a. simpl. rewrite Edig. simpl. lia. }
           rewrite Hk.
           ++ unfold Re.set_cap, Re.set_caps, after. cbn [Re.bef Re.aft Re.pos Re.caps].
              f_equal. f_equal. f_equal. f_equal.
              replace (p + length (run Char.is_digit a) - p)%nat
                with (length (run Char.is_digit a)) by lia.
              rewrite <- (run_skip Char.is_digit a) at 2.
              apply take_append.
           ++ unfold Re.set_cap, Re.set_caps, after. cbn [Re.pos]. exact Hpos.
      * (* neither *)
        cbn [Re.rep_loop Nat.add Nat.ltb Nat.leb].
        unfold Re.one. cbn [Re.aft]. rewrite digit_set, Edig. reflexivity.
Qed.

Lemma restamp_nondigit_head (repl a : string) (f : bool) :
  Re.head_is Char.is_digit a = false ->
  restamp_aux repl f a = restamp_aux repl false a.
Proof. destruct a as [| c a]; simpl; [reflexivity |]. intros ->. reflexivity. Qed.

Lemma restamp_run (repl a : string) :
  restamp_aux repl true a = restamp_aux repl false (skip Char.is_digit a).
Proof.
  induction a as [| c a IH]; simpl; [reflexivity |].
  destruct (Char.is_digit c) eqn:E; simpl; [exact IH |].
  rewrite E. reflexivity.
Qed.

(** The first match of the stamping pattern from a cursor on. *)
Lemma search_stamp (repl : string) :
  forall (a b : string) (p : nat) (ma : bool) (sk : string),
    match Re.search_from stamp_form b a p ma sk with
    | None => restamp repl a = a
    | Some (f, e) =>
        exists pre,
          Re.skipped f = Str.rev sk ++ pre
          /\ Re.matched f <> EmptyString
          /\ (length (Re.aft e) < length a)%nat
          /\ restamp repl a = pre ++ repl ++ restamp repl (Re.aft e)
    end.
Proof.
  induction a as [| c a IH]; intros b p ma sk.
  - cbn [Re.search_from]. rewrite m_stamp; [reflexivity |].
    intros e He. replace (Re.pos e =? p)%nat with false
      by (symmetry; apply Nat.eqb_neq; lia).
    rewrite andb_false_r. reflexivity.
  - cbn [Re.search_from]. rewrite m_stamp.
    2:{ intros e He. replace (Re.pos e =? p)%nat with false
          by (symmetry; apply Nat.eqb_neq; lia).
        rewrite andb_false_r. reflexivity. }
    destruct (Ascii.eqb "$" c) eqn:Ed.
    + apply Ascii.eqb_eq in Ed. subst c. exists "".
      cbn [Re.skipped Re.matched Re.aft].
      rewrite append_nil_r. split; [reflexivity |]. split; [| split].
      * cbn [Re.pos]. replace (S p - p)%nat with 1%nat by lia. simpl. discriminate.
      * simpl. lia.
      * reflexivity.
    + destruct (Char.is_digit c) eqn:Edig.
      * exists "". cbn [Re.skipped Re.matched Re.aft after].
        rewrite append_nil_r. split; [reflexivity |]. split; [| split].
        -- unfold after. cbn [Re.pos].
           replace (p + length (run Char.is_digit (String c a)) - p)%nat
             with (length (run Char.is_digit (String c a))) by lia.
           simpl. rewrite Edig. simpl. discriminate.
        -- simpl. rewrite Edig. pose proof (skip_length Char.is_digit a). lia.
        -- unfold restamp. simpl. rewrite Edig. simpl. rewrite restamp_run. reflexivity.
      * specialize (IH (String c b) (S p) false (String c sk)).
        destruct (Re.search_from stamp_form (String c b) a (S p) false (String c sk))
          as [[f e] |].
        -- destruct IH as (pre & Hs & Hm & Hl & Hr). exists (String c pre).
           split; [| split; [assumption | split]].
           ++ rewrite Hs. unfold Str.rev. simpl. rewrite (rev_append_app sk (String c "")).
              rewrite append_assoc. reflexivity.
           ++ simpl. lia.
           ++ unfold restamp in *. simpl. rewrite Edig.
              rewrite Ascii.eqb_sym, Ed. simpl. rewrite Hr. reflexivity.
        -- unfold restamp in *. simpl. rewrite Edig, Ascii.eqb_sym, Ed. simpl.
           rewrite IH. reflexivity.
Qed.

Lemma scan_stamp (repl : string) :
  forall (fuel : nat) (a b : string) (p : nat) (ma : bool),
    (length a < fuel)%nat ->
    Re.splice repl (fst (Re.scan stamp_form fuel None b a p ma))
      (snd (Re.scan stamp_form fuel None b a p ma))
    = restamp repl a.
Proof.
  induction fuel as [| fuel IH]; intros a b p ma Hf; [lia |].
  cbn [Re.scan].
  pose proof (search_stamp repl a b p ma "") as Hs.
  destruct (Re.search_from stamp_form b a p ma "") as [[f e] |].
  - destruct Hs as (pre & Hsk & Hm & Hl & Hr).
    cbn [option_map].
    specialize (IH (Re.aft e) (Re.bef e) (Re.pos e) (Str.is_empty (Re.matched f))).
    destruct (Re.scan stamp_form fuel None (Re.bef e) (Re.aft e) (Re.pos e)
                (Str.is_empty (Re.matched f))) as [fs tail].
    cbn [fst snd Re.splice] in *.
    rewrite IH by lia. rewrite Hsk, Hr. reflexivity.
  - simpl. symmetry. exact Hs.
Qed.

(** [re.sub("\$|([0-9]+)", repl, t)] for a replacement without backslash. *)
Lemma sub_stamp (repl t : string) :
  Re.plain_repl repl = true ->
  Re.sub "\$|([0-9]+)" repl t 0 = Ok (restamp repl t).
Proof.
  intros Hp. unfold Re.sub. rewrite compile_stamp. cbn [rbind Re.form]. rewrite Hp.
  unfold Re.matches, Re.limit_of.
  pose proof (@scan_stamp repl (2 * length t + 3) t "" 0 false) as H.
  destruct (Re.scan stamp_form (2 * length t + 3) None "" t 0 false) as [fs tail].
  cbn [fst snd] in H. rewrite H by lia. reflexivity.
Qed.



Lemma restamp_plain (repl s : string) (rest : string) :
  Str.all plain_char s = true ->
  restamp_aux repl false (s ++ rest) = s ++ restamp_aux repl false rest.
Proof.
  induction s as [| c s IH]; simpl; [reflexivity |]. intros H.
  apply andb_prop in H. destruct H as [Hc Hs]. unfold plain_char in Hc.
  apply andb_prop in Hc. destruct Hc as [Hd Hq].
  apply negb_true_iff in Hd, Hq. rewrite Hd, Hq. simpl. rewrite IH by assumption.
  reflexivity.
Qed.

Lemma restamp_plain_nil (repl s : string) (f : bool) :
  Str.all plain_char s = true -> restamp_aux repl f s = s.
Proof.
  intros H. rewrite restamp_nondigit_head.
  - rewrite <- (append_nil_r s) at 1. rewrite restamp_plain by assumption.
    simpl. apply append_nil_r.
  - destruct s as [| c s]; simpl in *; [reflexivity |].
    apply andb_prop in H. destruct H as [Hc _]. unfold plain_char in Hc.
    apply andb_prop in Hc. destruct Hc as [Hd _]. apply negb_true_iff in Hd. exact Hd.
Qed.

Lemma restamp_digits (repl d post : string) :
  Str.all Char.is_digit d = true -> Str.all plain_char post = true ->
  restamp_aux repl true (d ++ post) = post.
Proof.
  induction d as [| c d IH]; simpl; intros Hd Hp.
  - apply restamp_plain_nil. exact Hp.
  - apply andb_prop in Hd. destruct Hd as [Hc Hd]. rewrite Hc. simpl. auto.
Qed.

Lemma restamp_stampable (repl pre mid post : string) :
  Str.all plain_char pre = true -> Str.all plain_char post = true ->
  (mid = "$" \/ digits mid) ->
  restamp repl (pre ++ mid ++ post) = pre ++ repl ++ post.
Proof.
  intros Hpre Hpost Hmid. unfold restamp. rewrite restamp_plain by assumption.
  f_equal. destruct Hmid as [-> | [Hne Hd]].
  - simpl. rewrite restamp_plain_nil by assumption. reflexivity.
  - destruct mid as [| c mid]; [congruence |]. simpl in *.
    apply andb_prop in Hd. destruct Hd as [Hc Hd]. rewrite Hc.
    rewrite restamp_digits by assumption. reflexivity.
Qed.

Lemma uint_digits (u : uint) : Str.all Char.is_digit (NilEmpty.string_of_uint u) = true.
Proof. induction u; simpl; auto. Qed.

Lemma of_N_digits (n : N) : digits (Str.of_N n).
Proof.
  split; [| apply uint_digits].
  unfold Str.of_N. destruct n as [| p]; [discriminate |].
  simpl. pose proof (DecimalPos.Unsigned.to_uint_nonnil p) as H.
  destruct (Pos.to_uint p); [congruence | | | | | | | | | |]; discriminate.
Qed.

Lemma of_N_inj (n n' : N) : Str.of_N n = Str.of_N n' -> n = n'.
Proof.
  unfold Str.of_N. intros H. apply DecimalN.Unsigned.to_uint_inj.
  pose proof (NilEmpty.usu (N.to_uint n)) as H1.
  pose proof (NilEmpty.usu (N.to_uint n')) as H2.
  rewrite H in H1. rewrite H1 in H2. congruence.
Qed.

Lemma digits_plain (s : string) : Str.all Char.is_digit s = true -> Re.plain_repl s = true.
Proof.
  unfold Re.plain_repl. intros H. apply negb_true_iff.
  induction s as [| c s IH]; cbn [Str.all Str.any] in *; [reflexivity |].
  apply andb_prop in H. destruct H as [Hc Hs]. rewrite IH by assumption.
  rewrite orb_false_r. destruct (Ascii.eqb "\" c) eqn:E; [| reflexivity].
  apply Ascii.eqb_eq in E. subst c. discriminate Hc.
Qed.

(** Two readings of one string as text, digits, text have the same digits. *)
Lemma digits_unique_run (d d' post post' : string) :
  Str.all Char.is_digit d = true -> Str.all Char.is_digit d' = true ->
  Str.all plain_char post = true -> Str.all plain_char post' = true ->
  d ++ post = d' ++ post' -> d = d'.
Proof.
  revert d'. induction d as [| c d IH]; intros d' Hd Hd' Hp Hp' E.
  - destruct d' as [| c' d']; [reflexivity |]. simpl in E. subst post.
    simpl in Hp, Hd'. apply andb_prop in Hp, Hd'. destruct Hp as [Hc _], Hd' as [Hc' _].
    unfold plain_char in Hc. rewrite Hc' in Hc. discriminate Hc.
  - destruct d' as [| c' d'].
    + simpl in E. subst post'.
      simpl in Hp', Hd. apply andb_prop in Hp', Hd. destruct Hp' as [Hc _], Hd as [Hc' _].
      unfold plain_char in Hc. rewrite Hc' in Hc. discriminate Hc.
    + simpl in E. injection E as -> E. simpl in Hd, Hd'.
      apply andb_prop in Hd, Hd'. f_equal. apply IH; tauto.
Qed.

Lemma digits_unique (pre pre' d d' post post' : string) :
  Str.all plain_char pre = true -> Str.all plain_char pre' = true ->
  digits d -> digits d' ->
  Str.all plain_char post = true -> Str.all plain_char post' = true ->
  pre ++ d ++ post = pre' ++ d' ++ post' -> d = d'.
Proof.
  revert pre'. induction pre as [| c pre IH]; intros pre' Hp Hp' Hd Hd' Hq Hq' E.
  - destruct pre' as [| c' pre'].
    + simpl in E. destruct Hd as [_ Hd], Hd' as [_ Hd'].
      apply (@digits_unique_run d d' post post'); assumption.
    + destruct Hd as [Hne Hd]. destruct d as [| x d]; [congruence |].
      simpl in E. injection E as -> E. simpl in Hd, Hp'.
      apply andb_prop in Hd, Hp'. destruct Hd as [Hx _], Hp' as [Hc _].
      unfold plain_char in Hc. rewrite Hx in Hc. discriminate Hc.
  - destruct pre' as [| c' pre'].
    + destruct Hd' as [Hne Hd']. destruct d' as [| x d']; [congruence |].
      simpl in E. injection E as -> E. simpl in Hd', Hp.
      apply andb_prop in Hd', Hp. destruct Hd' as [Hx _], Hp as [Hc _].
      unfold plain_char in Hc. rewrite Hx in Hc. discriminate Hc.
    + simpl in E. injection E as -> E. simpl in Hp, Hp'.
      apply andb_prop in Hp, Hp'. apply (IH pre'); tauto.
Qed.

Lemma stamped_inj (n n' : N) (t : string) : stamped n t -> stamped n' t -> n = n'.
Proof.
  intros (pre & post & E & Hp & Hq) (pre' & post' & E' & Hp' & Hq').
  apply of_N_inj. rewrite E in E'.
  apply (@digits_unique pre pre' (Str.of_N n) (Str.of_N n') post post');
    try assumption; apply of_N_digits.
Qed.

Lemma stamped_stampable (n : N) (t : string) : stamped n t -> stampable t.
Proof.
  intros (pre & post & E & Hp & Hq). exists pre, (Str.of_N n), post.
  repeat split; try assumption. right. apply of_N_digits.
Qed.

Lemma no_dollar_plain (t : string) :
  Str.any Char.is_digit t = false ->
  List.length (List.filter (Ascii.eqb "$") (list_ascii_of_string t)) = 0%nat ->
  Str.all plain_char t = true.
Proof.
  induction t as [| x t IH]; [reflexivity |]. cbn [Str.any Str.all list_ascii_of_string List.filter].
  intros Hd Hc. apply orb_false_iff in Hd. destruct Hd as [Hx Hd].
  destruct (Ascii.eqb "$" x) eqn:Ex; [discriminate Hc |].
  unfold plain_char at 1. rewrite Hx, Ascii.eqb_sym, Ex. simpl. auto.
Qed.

Lemma template_stampable (t : string) : is_template t = true -> stampable t.
Proof.
  unfold is_template. intros H. apply andb_prop in H. destruct H as [H _].
  apply andb_prop in H. destruct H as [Hd Hc].
  apply negb_true_iff in Hd. apply Nat.eqb_eq in Hc.
  induction t as [| c t IH]; [discriminate Hc |].
  cbn [Str.any list_ascii_of_string List.filter] in Hd, Hc.
  apply orb_false_iff in Hd. destruct Hd as [Hcd Hd].
  destruct (Ascii.eqb "$" c) eqn:E.
  - apply Ascii.eqb_eq in E. subst c. exists "", "$", t.
    cbn [List.length] in Hc. injection Hc as Hc.
    split; [reflexivity |]. split; [reflexivity |].
    split; [apply no_dollar_plain; assumption | left; reflexivity].
  - destruct (IH Hd Hc) as (pre & mid & post & Et & Hp & Hq & Hm).
    exists (String c pre), mid, post. simpl. rewrite Et.
    repeat split; try assumption.
    unfold plain_char at 1. rewrite Hcd, Ascii.eqb_sym, E. exact Hp.
Qed.

Lemma stamp_stampable (t : string) (st : state) :
  stampable t ->
  exists t', stamp t st = (Ok t', st) /\ stamped (counter st) t'.
Proof.
  intros (pre & mid & post & E & Hp & Hq & Hm). subst t.
  exists (pre ++ Str.of_N (counter st) ++ post). split.
  - unfold stamp, bind, get_counter, lift.
    rewrite sub_stamp by (apply digits_plain, of_N_digits).
    rewrite restamp_stampable by assumption. reflexivity.
  - exists pre, post. auto.
Qed.

Lemma label_of_stamped (kind : string) (c : N) :
  kind = "GEAUTORISEERD" \/ kind = "PERSOON" -> stamped c (label_of kind c).
Proof.
  intros [-> | ->]; unfold label_of.
  - exists "<GEAUTORISEERD_", ">". repeat split.
  - exists "<PERSOON_", ">". repeat split.
Qed.



Lemma dict_get_in (k v : string) (d : list (string * string)) :
  Dict.get k d = Some v -> In k (Dict.keys d).
Proof.
  induction d as [| [k' v'] d IH]; simpl; [discriminate |].
  destruct (String.eqb k k') eqn:E.
  - apply String.eqb_eq in E. auto.
  - auto.
Qed.

Lemma dict_set_keys (k v k0 : string) (d : list (string * string)) :
  In k0 (Dict.keys (Dict.set k v d)) -> k0 = k \/ In k0 (Dict.keys d).
Proof.
  induction d as [| [k' v'] d IH]; simpl.
  - intros [H | []]; auto.
  - destruct (String.eqb k k') eqn:E; simpl; intros [H | H]; auto.
    destruct (IH H); auto.
Qed.

Lemma dict_set_fresh_length (k v : string) (d : list (string * string)) :
  ~ In k (Dict.keys d) -> List.length (Dict.set k v d) = S (List.length d).
Proof.
  induction d as [| [k' v'] d IH]; simpl; [reflexivity |]. intros H.
  destruct (String.eqb k k') eqn:E.
  - apply String.eqb_eq in E. subst k'. tauto.
  - simpl. rewrite IH; tauto.
Qed.

Lemma dict_set_other (k v k0 : string) (d : list (string * string)) :
  k0 <> k -> Dict.get k0 (Dict.set k v d) = Dict.get k0 d.
Proof.
  intros Hne. induction d as [| [k' v'] d IH]; simpl.
  - destruct (String.eqb k0 k) eqn:E; [apply String.eqb_eq in E; congruence | reflexivity].
  - destruct (String.eqb k k') eqn:E; simpl.
    + apply String.eqb_eq in E. subst k'.
      destruct (String.eqb k0 k) eqn:E'; [apply String.eqb_eq in E'; congruence | reflexivity].
    + rewrite IH. reflexivity.
Qed.

Lemma dict_set_same (k v : string) (d : list (string * string)) :
  Dict.get k (Dict.set k v d) = Some v.
Proof.
  induction d as [| [k' v'] d IH]; simpl.
  - rewrite String.eqb_refl. reflexivity.
  - destruct (String.eqb k k') eqn:E; simpl; rewrite E; [reflexivity | exact IH].
Qed.

Lemma fresh_key_absent (st : state) (t : string) :
  fresh_below st -> stamped (counter st) t -> ~ In t (Dict.keys (replace_dict st)).
Proof.
  intros Hf Ht Hin. destruct (proj1 Hf t Hin) as (n & Hn & Hs).
  pose proof (stamped_inj Hs Ht). lia.
Qed.

Lemma extends_refl (st : state) : extends st st.
Proof.
  split; [reflexivity |]. split; [reflexivity |]. split; [lia |].
  intros Hf. split; [assumption |]. split; [| auto].
  rewrite N.sub_diag. simpl. lia.
Qed.

Lemma extends_trans (a b c : state) : extends a b -> extends b c -> extends a c.
Proof.
  intros (Ha & Ho & Hc & Hf) (Ha' & Ho' & Hc' & Hf').
  split; [congruence |]. split; [congruence |]. split; [lia |].
  intros Hfa. destruct (Hf Hfa) as (Hfb & Hl & Hg).
  destruct (Hf' Hfb) as (Hfc & Hl' & Hg').
  split; [assumption |]. split; [rewrite Hl', Hl; lia | auto].
Qed.

Lemma extends_record (t v : string) (st : state) :
  stamped (counter st) t -> extends st (snd (record t v st)).
Proof.
  intros Ht. unfold record. cbn [snd]. unfold extends.
  cbn [annotations original_report counter replace_dict].
  split; [reflexivity |]. split; [reflexivity |]. split; [lia |].
  intros Hf. pose proof (fresh_key_absent Hf Ht) as Habs.
  split; [split |]; [| | split].
  - intros k Hk. cbn [replace_dict counter] in *.
    destruct (@dict_set_keys _ _ _ _ Hk) as [-> | Hin].
    + exists (counter st). split; [lia | assumption].
    + destruct (proj1 Hf k Hin) as (n & Hn & Hs). exists n. split; [lia | assumption].
  - intros k1 k2 n H1 H2 S1 S2. cbn [replace_dict] in *.
    destruct (@dict_set_keys _ _ _ _ H1) as [-> | Hin1];
      destruct (@dict_set_keys _ _ _ _ H2) as [-> | Hin2].
    + reflexivity.
    + exfalso. destruct (proj1 Hf k2 Hin2) as (m & Hm & Sm).
      pose proof (stamped_inj Sm S2). pose proof (stamped_inj Ht S1). lia.
    + exfalso. destruct (proj1 Hf k1 Hin1) as (m & Hm & Sm).
      pose proof (stamped_inj Sm S1). pose proof (stamped_inj Ht S2). lia.
    + exact (proj2 Hf k1 k2 n Hin1 Hin2 S1 S2).
  - rewrite dict_set_fresh_length by assumption.
    replace (counter st + 1 - counter st)%N with 1%N by lia. simpl. lia.
  - intros k v' Hg. rewrite dict_set_other; [assumption |].
    intros ->. apply Habs. eapply dict_get_in; eassumption.
Qed.

Lemma extends_stamp (t : string) (st : state) (t' : string) (st' : state) :
  stampable t -> stamp t st = (Ok t', st') ->
  stamped (counter st) t' /\ stampable t'.
Proof.
  intros Ht E. destruct (@stamp_stampable _ st Ht) as (t'' & E' & Hs).
  rewrite E' in E. injection E as -> _. split; [assumption |].
  eapply stamped_stampable; eassumption.
Qed.

Lemma forall_firstn {A} (P : A -> Prop) (l : list A) (n : nat) :
  Forall P l -> Forall P (firstn n l).
Proof.
  intros H. revert n. induction H as [| x l Hx _ IH]; intros [| n]; simpl;
    constructor; auto.
Qed.

(** The passes between cleaning and postprocessing only add entries under
    fresh keys, one for each step of the counter. *)
Lemma passes_extends (lk : lookups) (tokenized : list (list string)) (n : nat)
  (report : string) (st : state) :
  extends st (snd (steps (firstn n (passes lk tokenized)) report st)).
Proof.
  apply (@keeps_steps extends).
  - exact extends_refl.
  - exact extends_trans.
  - apply forall_firstn.
    apply (@keeps_passes extends (fun st t => stamped (counter st) t) stampable).
    + exact extends_refl.
    + exact extends_trans.
    + intros t v st0. apply extends_record.
    + intros t st0 t' st'. apply extends_stamp.
    + exact template_stampable.
    + intros kind st0 Hk. apply label_of_stamped. exact Hk.
Qed.

Lemma phases_extends (lk : lookups) (tokenized : list (list string)) (report : string)
  (st : state) : extends st (snd (phases lk tokenized report st)).
Proof.
  unfold phases.
  rewrite <- (firstn_all (passes lk tokenized)). apply passes_extends.
Qed.


Lemma expand_sub_matches_state (sub_matches : list string) :
  forall span_end report_copy st,
    snd (expand_sub_matches sub_matches span_end report_copy st) = st.
Proof.
  induction sub_matches as [| x rest IH]; intros span_end report_copy st; [reflexivity |].
  cbn [expand_sub_matches]. unfold bind, lookup.
  destruct (Dict.get x (replace_dict st)); [apply IH | reflexivity].
Qed.

Lemma spans_of_state (all_matches matches : list string) :
  forall report_copy st, snd (spans_of all_matches matches report_copy st) = st.
Proof.
  induction matches as [| mt rest IH]; intros report_copy st; [reflexivity |].
  cbn [spans_of]. destruct (Str.contains "PERSOON" mt).
  - unfold bind at 1. unfold lookup at 1.
    destruct (Dict.get mt (replace_dict st)) as [original |]; [| reflexivity].
    unfold bind at 1. unfold lift at 1.
    destruct (Re.findall label_pattern _) as [found | e]; [| reflexivity].
    unfold bind at 1.
    match goal with
    | |- context [(if ?c then ?x else ?y) st] =>
        assert (Hst : snd ((if c then x else y) st) = st)
          by (destruct c; [apply expand_sub_matches_state | reflexivity]);
        destruct ((if c then x else y) st) as [[[span_end rc] | e] st1]
    end; cbn [snd] in Hst; subst st1; [| reflexivity].
    unfold bind. specialize (IH rc st).
    destruct (spans_of all_matches rest rc st) as [[labels | e] st1];
      cbn [snd] in IH; subst st1; reflexivity.
  - unfold bind at 1. unfold lookup at 1.
    destruct (Dict.get mt (replace_dict st)) as [original |]; [| reflexivity].
    unfold bind. specialize (IH (Str.replace mt original report_copy) st).
    destruct (spans_of all_matches rest _ st) as [[labels | e] st1];
      cbn [snd] in IH; subst st1; reflexivity.
Qed.

(** [postprocess_report]: when it returns, one annotation over the kept
    original has been appended and the replacement map is empty; the
    counter is as it was in every case. *)
Lemma postprocess_report_spec (report : string) (st : state) :
  counter (snd (postprocess_report report st)) = counter st
  /\ original_report (snd (postprocess_report report st)) = original_report st
  /\ match postprocess_report report st with
     | (Ok out, st') =>
         replace_dict st' = []
         /\ exists labels,
              annotations st'
              = (annotations st ++ [Annotation (original_report st) labels None])%list
     | (Raise e, st') => replace_dict st' = replace_dict st
     end.
Proof.
  unfold postprocess_report, bind, get_original_report, lift, get_replace_dict,
    reset_replace_dict, append_annotation, ret.
  destruct (Re.findall label_pattern report) as [matches | e]; [| auto].
  pose proof (spans_of_state matches matches report st) as Hs.
  destruct (spans_of matches matches report st) as [[labels | e] st1];
    cbn [snd] in Hs; subst st1; [| auto].
  cbn [counter replace_dict original_report annotations].
  destruct (clean_tags (Dict.keys (replace_dict st)) report) as [out | e];
    cbn [snd counter replace_dict original_report annotations]; [| auto].
  repeat split. exists labels. reflexivity.
Qed.

Lemma processing_spec (lk : lookups) (raw : string) (st : state) :
  match clean_report raw with
  | Ok cleaned =>
      match tokenize_reports cleaned with
      | Ok tokenized =>
          processing lk raw st = phases lk tokenized cleaned (with_original cleaned st)
      | Raise e => processing lk raw st = (Raise e, st)
      end
  | Raise e => processing lk raw st = (Raise e, st)
  end.
Proof.
  unfold processing, bind, lift, set_original_report, with_original.
  destruct (clean_report raw) as [cleaned | e]; [| reflexivity].
  destruct (tokenize_reports cleaned) as [tokenized | e]; reflexivity.
Qed.

Lemma fresh_below_with_original (cleaned : string) (st : state) :
  fresh_below st -> fresh_below (with_original cleaned st).
Proof. intros H. exact H. Qed.

(** [processing] adds entries under fresh keys, one for each step of the
    counter, and leaves the annotations alone. *)
Lemma processing_extends (lk : lookups) (raw : string) (st : state) :
  let st' := snd (processing lk raw st) in
  annotations st' = annotations st
  /\ (counter st <= counter st')%N
  /\ (fresh_below st ->
      fresh_below st'
      /\ List.length (replace_dict st')
         = (List.length (replace_dict st) + N.to_nat (counter st' - counter st))%nat).
Proof.
  pose proof (processing_spec lk raw st) as H.
  destruct (clean_report raw) as [cleaned | e].
  2:{ rewrite H. cbn [snd]. split; [reflexivity |]. split; [lia |].
      intros Hf. split; [assumption |]. rewrite N.sub_diag. simpl. lia. }
  destruct (tokenize_reports cleaned) as [tokenized | e].
  2:{ rewrite H. cbn [snd]. split; [reflexivity |]. split; [lia |].
      intros Hf. split; [assumption |]. rewrite N.sub_diag. simpl. lia. }
  rewrite H.
  destruct (phases_extends lk tokenized cleaned (with_original cleaned st))
    as (Ha & Ho & Hc & Hf).
  cbn zeta. split; [exact Ha |]. split; [exact Hc |].
  intros Hfresh. destruct (Hf Hfresh) as (Hf' & Hl & _). split; [exact Hf' | exact Hl].
Qed.



Lemma sample_lookups_loaded : load sample_config default_entities = Ok sample_lookups.
Proof. vm_compute. reflexivity. Qed.

Lemma anonymize_report_unfold (lk : lookups) (raw : string) (st : state) :
  anonymize_report lk raw st
  = match processing lk raw st with
    | (Ok report, st1) => postprocess_report report st1
    | (Raise e, st1) => (Raise e, st1)
    end.
Proof. reflexivity. Qed.

Lemma perform_invariant (lk : lookups) (st : state) (c : call) :
  (counter st <= counter (perform lk st c))%N
  /\ (fresh_below st -> fresh_below (perform lk st c)).
Proof.
  destruct c as [report | index meta_dict]; cbn [perform].
  - rewrite anonymize_report_unfold.
    destruct (processing_extends lk report st) as (_ & Hc & Hf). cbn zeta in Hc, Hf.
    destruct (processing lk report st) as [[out | e] st1]; cbn [snd] in *.
    + destruct (postprocess_report_spec out st1) as (Hc' & _ & Hd).
      split; [lia |]. intros Hfresh. destruct (Hf Hfresh) as [Hf1 _].
      destruct (postprocess_report out st1) as [[out' | e] st2]; cbn [snd] in *.
      * destruct Hd as [Hd _]. unfold fresh_below. rewrite Hd.
        split; [intros k [] | intros k1 k2 n []].
      * unfold fresh_below in *. rewrite Hd, Hc'. exact Hf1.
    + split; [exact Hc |]. intros Hfresh. apply Hf. exact Hfresh.
  - unfold add_metadata. destruct (set_meta _ _ _); cbn [snd counter].
    + split; [lia |]. intros Hf. exact Hf.
    + split; [lia |]. intros Hf. exact Hf.
Qed.

Lemma after_calls_fresh (lk : lookups) (calls : list call) :
  fresh_below (after_calls lk calls).
Proof.
  unfold after_calls.
  assert (H : forall st, fresh_below st -> fresh_below (fold_left (perform lk) calls st)).
  { induction calls as [| c calls IH]; intros st Hst; [exact Hst |].
    cbn [fold_left]. apply IH. exact (proj2 (perform_invariant lk st c) Hst). }
  apply H. split; [intros k [] | intros k1 k2 n []].
Qed.

Lemma after_calls_counter (lk : lookups) (calls : list call) :
  (10000 <= counter (after_calls lk calls))%N.
Proof.
  unfold after_calls.
  assert (H : forall s, (10000 <= counter s)%N ->
                        (10000 <= counter (fold_left (perform lk) calls s))%N).
  { induction calls as [| c calls' IH]; intros s Hs; [exact Hs |].
    cbn [fold_left]. apply IH.
    pose proof (proj1 (perform_invariant lk s c)). lia. }
  apply H. apply N.le_refl.
Qed.

Lemma anonymize_report_counter (lk : lookups) (raw : string) (st : state) :
  counter (snd (anonymize_report lk raw st)) = counter (snd (processing lk raw st)).
Proof.
  rewrite anonymize_report_unfold.
  destruct (processing lk raw st) as [[out | e] s1]; cbn [snd]; [| reflexivity].
  exact (proj1 (postprocess_report_spec out s1)).
Qed.

Lemma postprocess_report_clears (report : string) (st : state) (out : string) :
  fst (postprocess_report report st) = Ok out ->
  replace_dict (snd (postprocess_report report st)) = [].
Proof.
  intros Hout. destruct (postprocess_report_spec report st) as (_ & _ & Hd).
  destruct (postprocess_report report st) as [[out' | e] st']; cbn [fst snd] in *.
  - apply Hd.
  - discriminate Hout.
Qed.

(** C5.  The counter is 10000 after construction; recording an entry adds
    one to it and nothing else changes it: no call of the interface
    decreases it, postprocessing keeps it (and clears the map when it
    returns), and over the passes of one report, on an engine that has
    served any sequence of calls, it grows by exactly the number of
    entries added to the replacement map. *)
Theorem counter_counts_recorded_entries (lk : lookups) (calls : list call) :
  counter initial_state = 10000%N
  /\ (forall t v st,
        counter (snd (record t v st)) = (counter st + 1)%N
        /\ Dict.get t (replace_dict (snd (record t v st))) = Some v)
  /\ (forall st c, (counter st <= counter (perform lk st c))%N)
  /\ (forall report st,
        counter (snd (postprocess_report report st)) = counter st
        /\ (forall out, fst (postprocess_report report st) = Ok out ->
              replace_dict (snd (postprocess_report report st)) = []))
  /\ (forall raw,
        (10000 <= counter (after_calls lk calls))%N
        /\ (counter (after_calls lk calls)
            <= counter (snd (processing lk raw (after_calls lk calls))))%N
        /\ List.length (replace_dict (snd (processing lk raw (after_calls lk calls))))
           = (List.length (replace_dict (after_calls lk calls))
              + N.to_nat (counter (snd (processing lk raw (after_calls lk calls)))
                          - counter (after_calls lk calls)))%nat
        /\ counter (snd (anonymize_report lk raw (after_calls lk calls)))
           = counter (snd (processing lk raw (after_calls lk calls)))).
Proof.
  split; [reflexivity |]. split; [| split; [| split]].
  - intros t v st. split; [reflexivity |]. apply dict_set_same.
  - intros st c. exact (proj1 (perform_invariant lk st c)).
  - intros report st. split; [exact (proj1 (postprocess_report_spec report st)) |].
    intros out. apply postprocess_report_clears.
  - intros raw.
    destruct (processing_extends lk raw (after_calls lk calls)) as (_ & Hc & Hf).
    destruct (Hf (after_calls_fresh lk calls)) as [_ Hl].
    split; [apply after_calls_counter |]. split; [exact Hc |]. split; [exact Hl |].
    apply anonymize_report_counter.
Qed.

(** When [anonymize_report] returns, it has appended one annotation: its
    text is the cleaned report, which is also kept as the original report;
    and the call depends on the raw input through its cleaned form only. *)
Theorem annotation_text_is_cleaned_report (lk : lookups) (raw : string) (st : state)
  (out : string) (st' : state) :
  anonymize_report lk raw st = (Ok out, st') ->
  exists cleaned labels,
    clean_report raw = Ok cleaned
    /\ annotations st' = (annotations st ++ [Annotation cleaned labels None])%list
    /\ original_report st' = cleaned
    /\ (forall raw', clean_report raw' = Ok cleaned ->
          anonymize_report lk raw' st = (Ok out, st')).
Proof.
  intros Hrun.
  assert (Hdep : forall raw', clean_report raw' = clean_report raw ->
                   anonymize_report lk raw' st = anonymize_report lk raw st).
  { intros raw' E. unfold anonymize_report, processing. rewrite E. reflexivity. }
  pose proof Hrun as Hrun0.
  rewrite anonymize_report_unfold in Hrun.
  pose proof (processing_spec lk raw st) as Hp.
  destruct (clean_report raw) as [cleaned | e];
    [| rewrite Hp in Hrun; discriminate Hrun].
  destruct (tokenize_reports cleaned) as [tokenized | e];
    [| rewrite Hp in Hrun; discriminate Hrun].
  rewrite Hp in Hrun.
  destruct (phases_extends lk tokenized cleaned (with_original cleaned st))
    as (Ha & Ho & _).
  destruct (phases lk tokenized cleaned (with_original cleaned st)) as [[report | e] st1];
    [| discriminate Hrun].
  cbn [snd] in Ha, Ho. cbn [with_original annotations original_report] in Ha, Ho.
  destruct (postprocess_report_spec report st1) as (_ & Ho' & Hd).
  rewrite Hrun in Ho', Hd. cbn [snd] in Ho'. destruct Hd as [_ [labels Hl]].
  exists cleaned, labels. rewrite Ho in Hl, Ho'. rewrite Ha in Hl.
  split; [reflexivity |]. split; [exact Hl |]. split; [exact Ho' |].
  intros raw' E. rewrite (Hdep raw' E). exact Hrun0.
Qed.

Lemma annotation_text_is_cleaned_report_witness :
  exists cleaned labels,
    clean_report "a  14-01-2020" = Ok cleaned
    /\ annotations
         (State 10001 [] "a 14-01-2020"
            [Annotation "a 14-01-2020" [(2, 12, "<DATUM>")%Z] None])
       = (annotations initial_state ++ [Annotation cleaned labels None])%list
    /\ original_report
         (State 10001 [] "a 14-01-2020"
            [Annotation "a 14-01-2020" [(2, 12, "<DATUM>")%Z] None]) = cleaned
    /\ (forall raw', clean_report raw' = Ok cleaned ->
          anonymize_report sample_lookups raw' initial_state
          = (Ok "a <DATUM>",
             State 10001 [] "a 14-01-2020"
               [Annotation "a 14-01-2020" [(2, 12, "<DATUM>")%Z] None])).
Proof.
  apply (@annotation_text_is_cleaned_report sample_lookups "a  14-01-2020" initial_state).
  vm_compute. reflexivity.
Defined.


(** C10.  The offsets of a recorded span are not always offsets into the
    cleaned report.  On an addendum line in which the name after "door"
    occurs twice, the preprocessor replaces both occurrences by one label;
    postprocessing finds the label twice, restores both occurrences at the
    first, and searches in vain at the second: [str.find] returns -1 and the
    second span is recorded as (-1, 2). *)
Theorem annotation_span_outside_text :
  fresh_run sample_config default_entities "ADDENDUM: >> Jan door Jan"
  = (Ok "ADDENDUM: >> <PERSOON> door <PERSOON>",
     {| counter := 10001;
        replace_dict := [];
        original_report := "ADDENDUM: >> Jan door Jan";
        annotations :=
          [Annotation "ADDENDUM: >> Jan door Jan"
             [(13, 16, "<PERSOON>"); (-1, 2, "<PERSOON>")]%Z None] |}).
Proof. vm_compute. reflexivity. Qed.


(** ** Patterns that spell a text *)

Lemma lit_char_ascii (c : ascii) : lit_char c = true -> (Char.code c < 128)%nat.
Proof.
  unfold lit_char. intros H. apply andb_prop in H. destruct H as [H _].
  apply Nat.ltb_lt in H. exact H.
Qed.

Lemma parse_seq_lit (c : ascii) (s' : string) (g f : nat) :
  lit_char c = true ->
  Re.parse_seq (S (S f)) (String c s') g
  = rbind (Re.quantify (Re.RChar c) s') (fun '(q, s2) =>
      rbind (Re.parse_seq (S f) s2 g) (fun '(r, s3, g2) =>
        Ok (Re.RSeq q r, s3, g2))).
Proof.
  intros H.
  destruct c as [b0 b1 b2 b3 b4 b5 b6 b7].
  destruct b0, b1, b2, b3, b4, b5, b6, b7; try discriminate H; reflexivity.
Qed.

Lemma parse_seq_esc (c : ascii) (s' : string) (g f : nat) :
  esc_char c = true ->
  Re.parse_seq (S (S f)) (String "\" (String c s')) g
  = rbind (Re.quantify (Re.RChar c) s') (fun '(q, s2) =>
      rbind (Re.parse_seq (S f) s2 g) (fun '(r, s3, g2) =>
        Ok (Re.RSeq q r, s3, g2))).
Proof.
  intros H.
  destruct c as [b0 b1 b2 b3 b4 b5 b6 b7].
  destruct b0, b1, b2, b3, b4, b5, b6, b7; try discriminate H; reflexivity.
Qed.

Lemma parse_quant_lit (c : ascii) (s : string) :
  lit_char c = true -> Re.parse_quant (String c s) = None.
Proof.
  intros H.
  destruct c as [b0 b1 b2 b3 b4 b5 b6 b7].
  destruct b0, b1, b2, b3, b4, b5, b6, b7; try discriminate H; reflexivity.
Qed.

Lemma parse_quant_spells (p x rest : string) :
  spells p x -> Re.parse_quant rest = None -> Re.parse_quant (p ++ rest) = None.
Proof.
  intros H Hr. destruct H as [| c p x Hc _ | c p x Hc _]; simpl.
  - exact Hr.
  - apply parse_quant_lit. exact Hc.
  - reflexivity.
Qed.

Lemma quantify_none (a : Re.regex) (s : string) :
  Re.parse_quant s = None -> Re.quantify a s = Ok (a, s).
Proof. intros H. unfold Re.quantify. rewrite H. reflexivity. Qed.

(** Parsing a pattern that spells [x]: the characters of [x], then what
    the rest of the pattern parses to. *)
Lemma parse_seq_spells (p x : string) :
  spells p x ->
  forall (rest : string) (g f : nat) (r : Re.regex) (s3 : string) (g2 : nat),
    Re.parse_quant rest = None ->
    Re.parse_seq (S f) rest g = Ok (r, s3, g2) ->
    Re.parse_seq (length x + S f) (p ++ rest) g = Ok (lits x r, s3, g2).
Proof.
  induction 1 as [| c p x Hc Hs IH | c p x Hc Hs IH]; intros rest g f r s3 g2 Hq Hr.
  - exact Hr.
  - cbn [length append]. replace (S (length x) + S f)%nat with (S (S (length x + f))) by lia.
    rewrite parse_seq_lit by exact Hc.
    rewrite quantify_none by (eapply parse_quant_spells; eassumption).
    cbn [rbind]. replace (S (length x + f)) with (length x + S f)%nat by lia.
    rewrite (IH rest g f r s3 g2 Hq Hr). reflexivity.
  - cbn [length append]. replace (S (length x) + S f)%nat with (S (S (length x + f))) by lia.
    rewrite parse_seq_esc by exact Hc.
    rewrite quantify_none by (eapply parse_quant_spells; eassumption).
    cbn [rbind]. replace (S (length x + f)) with (length x + S f)%nat by lia.
    rewrite (IH rest g f r s3 g2 Hq Hr). reflexivity.
Qed.

Lemma spells_length (p x : string) : spells p x -> (length x <= length p)%nat.
Proof. induction 1; simpl; lia. Qed.

Lemma spells_literal (x : string) : Str.all lit_char x = true -> spells x x.
Proof.
  induction x as [| c x IH]; simpl; intros H; [constructor |].
  apply andb_prop in H. destruct H as [Hc Hx]. constructor; auto.
Qed.

Lemma special_esc (c : ascii) :
  (Char.code c <? 128)%nat = true ->
  if Re.is_special c then esc_char c = true else lit_char c = true.
Proof.
  intros H.
  destruct c as [b0 b1 b2 b3 b4 b5 b6 b7].
  destruct b0, b1, b2, b3, b4, b5, b6, b7; try discriminate H; reflexivity.
Qed.

Lemma spells_escape (x : string) :
  Str.all (fun c => (Char.code c <? 128)%nat) x = true -> spells (Re.escape x) x.
Proof.
  induction x as [| c x IH]; simpl; intros H; [constructor |].
  apply andb_prop in H. destruct H as [Hc Hx].
  pose proof (special_esc c Hc) as Hs.
  destruct (Re.is_special c); constructor; auto.
Qed.

(** [re.compile] of a pattern without metacharacter. *)
Lemma compile_literal (x : string) :
  Str.all lit_char x = true ->
  Re.compile x = Ok {| Re.form := lits x Re.REps; Re.groups := 0 |}.
Proof.
  intros H. unfold Re.compile.
  replace (4 * length x + 8)%nat with (S (length x + S (3 * length x + 6))) by lia.
  cbn [Re.parse_alt].
  pose proof (@parse_seq_spells x x (spells_literal x H) "" 1 (3 * length x + 6)
                Re.REps "" 1 eq_refl eq_refl) as P.
  rewrite append_nil_r in P. rewrite P. reflexivity.
Qed.

(** ** Matching a spelled text *)

Lemma prefixb_append (x rest : string) : Str.prefixb x (x ++ rest) = true.
Proof. induction x as [| c x IH]; simpl; [reflexivity |]. rewrite Ascii.eqb_refl. exact IH. Qed.

Lemma prefixb_split (x a : string) :
  Str.prefixb x a = true -> a = x ++ Str.drop (length x) a.
Proof.
  revert a. induction x as [| c x IH]; intros a H; [destruct a; reflexivity |].
  destruct a as [| d a]; [discriminate H |]. simpl in H.
  apply andb_prop in H. destruct H as [Hc Hx]. apply Ascii.eqb_eq in Hc. subst d.
  simpl. f_equal. apply IH. exact Hx.
Qed.

Lemma drop_length (n : nat) (a : string) : (length (Str.drop n a) <= length a)%nat.
Proof.
  revert a. induction n as [| n IH]; intros a; [simpl; lia |].
  destruct a as [| c a]; simpl; [lia |]. specialize (IH a). lia.
Qed.

Lemma drop_length_prefix (x a : string) :
  Str.prefixb x a = true -> (length (Str.drop (length x) a) + length x = length a)%nat.
Proof.
  intros H. pose proof (f_equal length (prefixb_split x a H)) as E.
  rewrite append_length in E. lia.
Qed.

(** The characters of [x] in a row: a test for a prefix. *)
Lemma m_lits (x : string) (r : Re.regex) (k : Re.mstate -> option Re.mstate) :
  forall (b a : string) (p : nat) (c : list (nat * string)),
    Re.m (lits x r) k (Re.MState b a p c)
    = if Str.prefixb x a
      then Re.m r k (after x b (Str.drop (length x) a) p c)
      else None.
Proof.
  induction x as [| y x IH]; intros b a p c.
  - unfold after. simpl. rewrite Nat.add_0_r. destruct a; reflexivity.
  - cbn [lits Re.m]. unfold Re.one. cbn [Re.aft].
    destruct a as [| d a]; [reflexivity |]. cbn [Str.prefixb].
    destruct (Ascii.eqb y d) eqn:E; [| reflexivity]. cbn [andb Re.bef Re.pos Re.caps].
    rewrite IH. apply Ascii.eqb_eq in E. subst d.
    destruct (Str.prefixb x a); [| reflexivity].
    unfold after. cbn [Str.rev_append Str.drop length]. do 2 f_equal. lia.
Qed.



Lemma replace_fuel_enough (x repl : string) :
  x <> EmptyString ->
  forall (n : nat) (a : string) (f1 f2 : nat),
    (length a < n)%nat -> (length a < f1)%nat -> (length a < f2)%nat ->
    Str.replace_fuel f1 x repl a = Str.replace_fuel f2 x repl a.
Proof.
  intros Hx. induction n as [| n IH]; intros a f1 f2 Hn H1 H2; [lia |].
  destruct f1 as [| f1]; [lia |]. destruct f2 as [| f2]; [lia |].
  cbn [Str.replace_fuel]. destruct (Str.prefixb x a) eqn:Hp.
  - f_equal. pose proof (drop_length_prefix x a Hp) as Hl.
    assert (0 < length x)%nat by (destruct x; [congruence | simpl; lia]).
    apply IH; lia.
  - destruct a as [| d a]; [reflexivity |]. f_equal. simpl in *. apply IH; lia.
Qed.




(** ** The report-status preprocessor *)

Lemma any_append (P : ascii -> bool) (a b : string) :
  Str.any P (a ++ b) = Str.any P a || Str.any P b.
Proof. induction a as [| c a IH]; simpl; [reflexivity |]. rewrite IH, orb_assoc. reflexivity. Qed.

Lemma all_append (P : ascii -> bool) (a b : string) :
  Str.all P (a ++ b) = Str.all P a && Str.all P b.
Proof. induction a as [| c a IH]; simpl; [reflexivity |]. rewrite IH, andb_assoc. reflexivity. Qed.




Lemma split_char_acc_line (sep : ascii) (l rest acc : string) :
  Str.any (Ascii.eqb sep) l = false ->
  Str.split_char_acc sep (l ++ rest) acc
  = Str.split_char_acc sep rest (Str.rev_append l acc).
Proof.
  revert acc. induction l as [| c l IH]; intros acc H; [reflexivity |].
  simpl in H. apply orb_false_iff in H. destruct H as [Hc Hl].
  cbn [append Str.split_char_acc]. rewrite Ascii.eqb_sym, Hc. apply IH. exact Hl.
Qed.







(** ** Every match is a piece of the subject *)

Lemma fwd_refl (s : Re.mstate) : fwd s s.
Proof. exists "". simpl. repeat split. lia. Qed.

Lemma fwd_trans (s1 s2 s3 : Re.mstate) : fwd s1 s2 -> fwd s2 s3 -> fwd s1 s3.
Proof.
  intros (d1 & Ha1 & Hb1 & Hp1) (d2 & Ha2 & Hb2 & Hp2). exists (d1 ++ d2).
  split; [rewrite Ha1, Ha2, append_assoc; reflexivity |].
  split.
  - rewrite Hb2, Hb1. clear. revert d2. generalize (Re.bef s1).
    induction d1 as [| c d1 IH]; intros b d2; simpl; [reflexivity | apply IH].
  - rewrite append_length. lia.
Qed.

Lemma fwd_caps (s s' : Re.mstate) (c : list (nat * string)) :
  fwd s s' -> fwd s (Re.set_caps c s').
Proof. intros (d & Ha & Hb & Hp). exists d. repeat split; assumption. Qed.

Lemma fwd_one (P : ascii -> bool) (k : Re.mstate -> option Re.mstate) (s e : Re.mstate) :
  Re.one P k s = Some e -> exists s', fwd s s' /\ k s' = Some e.
Proof.
  unfold Re.one. destruct (Re.aft s) as [| c a'] eqn:Ea; [discriminate |].
  destruct (P c); [| discriminate]. intros H.
  eexists. split; [| exact H]. exists (String c ""). simpl. rewrite Ea.
  repeat split. lia.
Qed.

(** A continuation is only ever given cursors further on in the subject. *)
Definition forward (body : (Re.mstate -> option Re.mstate) -> Re.mstate -> option Re.mstate)
  : Prop :=
  forall k s e, body k s = Some e -> exists s', fwd s s' /\ k s' = Some e.

Lemma rep_loop_forward body (lo : nat) (hi : option nat) (greedy : bool)
  (k : Re.mstate -> option Re.mstate) :
  forward body ->
  forall (fuel count : nat) (last : option nat) (s e : Re.mstate),
    Re.rep_loop body lo hi greedy k fuel count last s = Some e ->
    exists s', fwd s s' /\ k s' = Some e.
Proof.
  intros Hb. induction fuel as [| fuel IH]; intros count last s e H; [discriminate H |].
  cbn [Re.rep_loop] in H.
  assert (Hmore : forall l,
            body (Re.rep_loop body lo hi greedy k fuel (S count) l) s = Some e ->
            exists s', fwd s s' /\ k s' = Some e).
  { intros l Hm. destruct (Hb _ _ _ Hm) as (s1 & F1 & H1).
    destruct (IH _ _ _ _ H1) as (s2 & F2 & H2).
    exists s2. split; [eapply fwd_trans; eassumption | exact H2]. }
  destruct (count <? lo)%nat; [eapply Hmore; exact H |].
  destruct greedy; unfold Re.orelse in H.
  - destruct (Re.may_repeat count hi && negb (Re.same_pos last s)).
    + destruct (body _ s) as [e' |] eqn:Em.
      * inversion H; subst e'. eapply Hmore; exact Em.
      * exists s. split; [apply fwd_refl | exact H].
    + exists s. split; [apply fwd_refl | exact H].
  - destruct (k s) as [e' |] eqn:Ek.
    + inversion H; subst e'. exists s. split; [apply fwd_refl | exact Ek].
    + destruct (Re.may_repeat count hi && negb (Re.same_pos last s)); [| discriminate H].
      eapply Hmore; exact H.
Qed.

Lemma m_forward (r : Re.regex) : forward (Re.m r).
Proof.
  induction r as [| c | | neg items | r1 IH1 r2 IH2 | r1 IH1 r2 IH2 | r0 IH lo hi greedy
                 | i r0 IH | neg r0 IH | neg w r0 IH | neg | | | ];
    intros k s e H; cbn [Re.m] in H.
  - exists s. split; [apply fwd_refl | exact H].
  - eapply fwd_one; exact H.
  - eapply fwd_one; exact H.
  - eapply fwd_one; exact H.
  - destruct (IH1 _ _ _ H) as (s1 & F1 & H1).
    destruct (IH2 _ _ _ H1) as (s2 & F2 & H2).
    exists s2. split; [eapply fwd_trans; eassumption | exact H2].
  - unfold Re.orelse in H. destruct (Re.m r1 k s) as [e' |] eqn:E1.
    + inversion H; subst e'. eapply IH1; exact E1.
    + eapply IH2; exact H.
  - eapply rep_loop_forward; [exact IH | exact H].
  - destruct (IH _ _ _ H) as (s1 & F1 & H1).
    eexists. split; [| exact H1]. apply fwd_caps. exact F1.
  - destruct (Re.m r0 (fun e0 => Some e0) s) as [e' |]; destruct neg; try discriminate H.
    + eexists. split; [| exact H]. apply fwd_caps, fwd_refl.
    + exists s. split; [apply fwd_refl | exact H].
  - destruct (Re.back w s) as [s0 |].
    + destruct (Re.m r0 _ s0) as [e' |]; destruct neg; try discriminate H.
      * eexists. split; [| exact H]. apply fwd_caps, fwd_refl.
      * exists s. split; [apply fwd_refl | exact H].
    + destruct neg; [| discriminate H]. exists s. split; [apply fwd_refl | exact H].
  - destruct (xorb neg (Re.at_boundary s)); [| discriminate H].
    exists s. split; [apply fwd_refl | exact H].
  - destruct (Re.pos s =? 0)%nat; [| discriminate H].
    exists s. split; [apply fwd_refl | exact H].
  - destruct (Re.at_eol s); [| discriminate H].
    exists s. split; [apply fwd_refl | exact H].
  - destruct (Str.is_empty (Re.aft s)); [| discriminate H].
    exists s. split; [apply fwd_refl | exact H].
Qed.

Lemma search_from_pieces (r : Re.regex) :
  forall (a b : string) (p : nat) (ma : bool) (sk : string) (f : Re.found) (e : Re.mstate),
    Re.search_from r b a p ma sk = Some (f, e) ->
    exists pre,
      Re.skipped f = Str.rev sk ++ pre /\ a = pre ++ Re.matched f ++ Re.aft e.
Proof.
  induction a as [| c a IH]; intros b p ma sk f e H; cbn [Re.search_from] in H.
  - destruct (Re.m r _ _) as [e' |] eqn:Em; [| discriminate H].
    inversion H; subst f e'. clear H.
    destruct (m_forward _ _ _ Em) as (s' & (d & Ha & _ & Hp) & Hk).
    destruct (ma && (Re.pos s' =? p)%nat); [discriminate Hk |].
    inversion Hk; subst s'. cbn [Re.aft Re.pos] in *.
    exists "". cbn [Re.skipped Re.matched]. rewrite append_nil_r.
    split; [reflexivity |]. destruct d; [| discriminate Ha].
    simpl in Ha. rewrite <- Ha. destruct (Re.pos e - p)%nat; reflexivity.
  - destruct (Re.m r _ _) as [e' |] eqn:Em.
    + inversion H; subst f e'. clear H.
      destruct (m_forward _ _ _ Em) as (s' & (d & Ha & _ & Hp) & Hk).
      destruct (ma && (Re.pos s' =? p)%nat); [discriminate Hk |].
      inversion Hk; subst s'. cbn [Re.aft Re.pos] in *.
      exists "". cbn [Re.skipped Re.matched]. rewrite append_nil_r.
      split; [reflexivity |]. cbn [append].
      rewrite Hp. replace (p + length d - p)%nat with (length d) by lia.
      rewrite Ha. rewrite take_append. reflexivity.
    + destruct (IH _ _ _ _ _ _ H) as (pre & Hs & Ea). exists (String c pre).
      split.
      * rewrite Hs. unfold Str.rev. cbn [Str.rev_append].
        rewrite (rev_append_app sk (String c "")), append_assoc. reflexivity.
      * cbn [append]. congruence.
Qed.

(** The matches of a scan, with the text between them, make up the
    subject. *)
Lemma scan_rebuilt (r : Re.regex) :
  forall (fuel : nat) (limit : option nat) (b a : string) (p : nat) (ma : bool),
    rebuilt (fst (Re.scan r fuel limit b a p ma)) (snd (Re.scan r fuel limit b a p ma)) = a.
Proof.
  induction fuel as [| fuel IH]; intros limit b a p ma.
  - destruct limit as [[| n] |]; reflexivity.
  - assert (Hstep :
      rebuilt
        (fst (match Re.search_from r b a p ma "" with
              | None => ([], a)
              | Some (f, e) =>
                  let '(fs, tail) :=
                    Re.scan r fuel (option_map pred limit) (Re.bef e) (Re.aft e) (Re.pos e)
                      (Str.is_empty (Re.matched f)) in
                  (f :: fs, tail)
              end))
        (snd (match Re.search_from r b a p ma "" with
              | None => ([], a)
              | Some (f, e) =>
                  let '(fs, tail) :=
                    Re.scan r fuel (option_map pred limit) (Re.bef e) (Re.aft e) (Re.pos e)
                      (Str.is_empty (Re.matched f)) in
                  (f :: fs, tail)
              end)) = a).
    { destruct (Re.search_from r b a p ma "") as [[f e] |] eqn:Es; [| reflexivity].
      destruct (search_from_pieces _ _ _ _ _ _ Es) as (pre & Hs & Ea).
      specialize (IH (option_map pred limit) (Re.bef e) (Re.aft e) (Re.pos e)
                    (Str.is_empty (Re.matched f))).
      destruct (Re.scan r fuel (option_map pred limit) (Re.bef e) (Re.aft e) (Re.pos e)
                  (Str.is_empty (Re.matched f))) as [fs tail].
      cbn [fst snd rebuilt] in *. rewrite IH, Hs. symmetry. exact Ea. }
    cbn [Re.scan]. destruct limit as [[| n] |]; [reflexivity | exact Hstep | exact Hstep].
Qed.

(** [re.sub] and the pieces of its subject. *)
Lemma sub_pieces (p repl s : string) (count : nat) (out : string) :
  Re.sub p repl s count = Ok out ->
  exists fs tail, rebuilt fs tail = s /\ out = Re.splice repl fs tail.
Proof.
  unfold Re.sub. destruct (Re.compile p) as [c | e]; [| discriminate].
  cbn [rbind]. destruct (Re.plain_repl repl); [| discriminate].
  unfold Re.matches.
  pose proof (scan_rebuilt (Re.form c) (2 * length s + 3) (Re.limit_of count) "" s 0 false)
    as H.
  destruct (Re.scan (Re.form c) (2 * length s + 3) (Re.limit_of count) "" s 0 false)
    as [fs tail].
  cbn [fst snd] in H. intros E. inversion E. exists fs, tail. split; [exact H | reflexivity].
Qed.


(** ** Labels in a text *)

Lemma get_app_l (i : nat) (a b : string) :
  (i < length a)%nat -> String.get i (a ++ b) = String.get i a.
Proof. intros H. symmetry. apply append_correct1. exact H. Qed.

Lemma get_app_r (i : nat) (a b : string) :
  String.get (length a + i) (a ++ b) = String.get i b.
Proof. rewrite Nat.add_comm. symmetry. apply append_correct2. Qed.

Lemma get_mid (i : nat) (a w b : string) :
  (i < length w)%nat -> String.get (length a + i) (a ++ w ++ b) = String.get i w.
Proof. intros H. rewrite get_app_r. apply get_app_l. exact H. Qed.

Lemma get_any_false (P : ascii -> bool) (s : string) (i : nat) (c : ascii) :
  Str.any P s = false -> String.get i s = Some c -> P c = false.
Proof.
  revert i. induction s as [| d s IH]; intros i H G; [discriminate G |].
  simpl in H. apply orb_false_iff in H. destruct H as [Hd Hs].
  destruct i as [| i]; simpl in G; [inversion G; subst; exact Hd | eauto].
Qed.

Lemma bracketed_get (w : string) :
  bracketed w ->
  (2 <= length w)%nat
  /\ String.get 0 w = Some "<"%char
  /\ String.get (length w - 1) w = Some ">"%char
  /\ forall i c, (0 < i)%nat -> (i < length w - 1)%nat ->
       String.get i w = Some c -> is_angle c = false.
Proof.
  intros (body & E & Hb). subst w. cbn [length]. rewrite append_length. cbn [length].
  split; [lia |]. split; [reflexivity |]. split.
  - replace (S (length body + 1) - 1)%nat with (S (length body + 0)) by lia.
    cbn [String.get]. rewrite get_app_r. reflexivity.
  - intros i c H0 H1 G. destruct i as [| i]; [lia |]. cbn [String.get] in G.
    rewrite get_app_l in G by lia. eapply get_any_false; eassumption.
Qed.

Lemma append_eq_le (u v x z : string) :
  u ++ v = x ++ z -> (length u <= length x)%nat -> exists m, x = u ++ m /\ v = m ++ z.
Proof.
  revert x. induction u as [| c u IH]; intros x E H.
  - exists x. split; [reflexivity | exact E].
  - destruct x as [| d x]; [simpl in H; lia |]. simpl in E.
    injection E as Ec E. subst d.
    destruct (IH x E ltac:(simpl in H; lia)) as (m & Ex & Ev).
    exists m. split; [simpl; congruence | exact Ev].
Qed.

Lemma append_eq_same (u v x z : string) :
  u ++ v = x ++ z -> length u = length x -> u = x /\ v = z.
Proof.
  revert x. induction u as [| c u IH]; intros x E H.
  - destruct x; [split; [reflexivity | exact E] | discriminate H].
  - destruct x as [| d x]; [discriminate H |]. simpl in E, H.
    injection E as Ec E. subst d.
    destruct (IH x E ltac:(lia)) as [Eu Ev]. split; congruence.
Qed.

(** Two bracketed pieces of one text are apart or the same piece. *)
Lemma bracketed_apart (a w b x t y : string) :
  bracketed w -> bracketed t ->
  a ++ w ++ b = x ++ t ++ y ->
  (length a + length w <= length x)%nat
  \/ (length x + length t <= length a)%nat
  \/ (length a = length x /\ w = t).
Proof.
  intros Hw Ht E.
  destruct (bracketed_get Hw) as (Lw & W0 & W1 & Wi).
  destruct (bracketed_get Ht) as (Lt & T0 & T1 & Ti).
  assert (Gw : forall i, (i < length w)%nat ->
                 String.get (length a + i) (x ++ t ++ y) = String.get i w).
  { intros i Hi. rewrite <- E. apply get_mid. exact Hi. }
  assert (Gt : forall i, (i < length t)%nat ->
                 String.get (length x + i) (a ++ w ++ b) = String.get i t).
  { intros i Hi. rewrite E. apply get_mid. exact Hi. }
  destruct (Nat.le_gt_cases (length a + length w) (length x)) as [H1 | H1]; [auto |].
  destruct (Nat.le_gt_cases (length x + length t) (length a)) as [H2 | H2]; [auto |].
  right. right.
  destruct (Nat.lt_trichotomy (length a) (length x)) as [Hlt | [Heq | Hgt]].
  - (* [w] begins first: the first character of [t] lies inside [w] *)
    exfalso.
    pose proof (Gw (length x - length a)%nat ltac:(lia)) as G.
    replace (length a + (length x - length a))%nat with (length x + 0)%nat in G by lia.
    rewrite get_mid in G by lia. rewrite T0 in G. symmetry in G.
    destruct (Nat.eq_dec (length x - length a) (length w - 1)) as [Hl | Hl].
    + rewrite Hl, W1 in G. discriminate G.
    + pose proof (Wi (length x - length a)%nat "<"%char ltac:(lia) ltac:(lia) G) as A.
      discriminate A.
  - split; [exact Heq |].
    assert (Hlen : length w = length t).
    { destruct (Nat.lt_trichotomy (length w) (length t)) as [Hl | [Hl | Hl]];
        [| exact Hl |]; exfalso.
      - pose proof (Gw (length w - 1)%nat ltac:(lia)) as G.
        rewrite Heq in G. rewrite get_mid in G by lia. rewrite W1 in G.
        pose proof (Ti (length w - 1)%nat ">"%char ltac:(lia) ltac:(lia) G) as A.
        discriminate A.
      - pose proof (Gt (length t - 1)%nat ltac:(lia)) as G.
        rewrite <- Heq in G. rewrite get_mid in G by lia. rewrite T1 in G.
        pose proof (Wi (length t - 1)%nat ">"%char ltac:(lia) ltac:(lia) G) as A.
        discriminate A. }
    destruct (append_eq_same a (w ++ b) x (t ++ y) E Heq) as [_ E'].
    destruct (append_eq_same w b t y E' Hlen) as [Ew _]. exact Ew.
  - exfalso.
    pose proof (Gt (length a - length x)%nat ltac:(lia)) as G.
    replace (length x + (length a - length x))%nat with (length a + 0)%nat in G by lia.
    rewrite get_mid in G by lia. rewrite W0 in G. symmetry in G.
    destruct (Nat.eq_dec (length a - length x) (length t - 1)) as [Hl | Hl].
    + rewrite Hl, T1 in G. discriminate G.
    + pose proof (Ti (length a - length x)%nat "<"%char ltac:(lia) ltac:(lia) G) as A.
      discriminate A.
Qed.

Lemma occurs_in_app_l (w x y : string) : occurs_in w x -> occurs_in w (x ++ y).
Proof. intros (a & b & E). exists a, (b ++ y). subst x. rewrite !append_assoc. reflexivity. Qed.

Lemma occurs_in_app_r (w x y : string) : occurs_in w y -> occurs_in w (x ++ y).
Proof. intros (a & b & E). exists (x ++ a), b. subst y. rewrite !append_assoc. reflexivity. Qed.

(** A bracketed piece of [x ++ t ++ y], with [t] bracketed, is [t] or lies
    in [x] or in [y]. *)
Lemma bracketed_around (w x t y : string) :
  bracketed w -> bracketed t -> occurs_in w (x ++ t ++ y) ->
  occurs_in w x \/ w = t \/ occurs_in w y.
Proof.
  intros Hw Ht (a & b & E). symmetry in E.
  destruct (bracketed_apart a b x y Hw Ht E) as [H | [H | [_ H]]].
  - left. rewrite <- append_assoc in E.
    destruct (append_eq_le (a ++ w) b x (t ++ y) E) as (m & Ex & _).
    { rewrite append_length. exact H. }
    exists a, m. rewrite Ex, append_assoc. reflexivity.
  - right. right. symmetry in E. rewrite <- append_assoc in E.
    destruct (append_eq_le (x ++ t) y a (w ++ b) E) as (m & Ea & Ey).
    { rewrite append_length. exact H. }
    exists m, b. exact Ey.
  - right. left. exact H.
Qed.

(** After a substitution by a bracketed text, a bracketed piece of the
    result is the replacement or a piece of the subject. *)
Lemma splice_occurs_in (w t : string) (fs : list Re.found) (tail : string) :
  bracketed w -> bracketed t ->
  occurs_in w (Re.splice t fs tail) ->
  w = t \/ occurs_in w (rebuilt fs tail).
Proof.
  intros Hw Ht. induction fs as [| f fs IH]; cbn [Re.splice rebuilt]; [auto |].
  intros H. destruct (@bracketed_around _ _ _ _ Hw Ht H) as [Hx | [Hx | Hx]].
  - right. apply occurs_in_app_l. exact Hx.
  - left. exact Hx.
  - destruct (IH Hx) as [E | Hs]; [left; exact E |].
    right. apply occurs_in_app_r, occurs_in_app_r. exact Hs.
Qed.


(** ** Labels and templates are bracketed *)

Lemma all_any_false (P Q : ascii -> bool) (s : string) :
  (forall c, P c = true -> Q c = false) -> Str.all P s = true -> Str.any Q s = false.
Proof.
  intros H. induction s as [| c s IH]; simpl; [reflexivity |]. intros Hs.
  apply andb_prop in Hs. destruct Hs as [Hc Hs]. rewrite (H c Hc), IH by exact Hs.
  reflexivity.
Qed.

Lemma kind_char_not_angle (c : ascii) : kind_char c = true -> is_angle c = false.
Proof.
  destruct c as [b0 b1 b2 b3 b4 b5 b6 b7].
  destruct b0, b1, b2, b3, b4, b5, b6, b7; try discriminate 1; reflexivity.
Qed.

Lemma digit_not_angle (c : ascii) : Char.is_digit c = true -> is_angle c = false.
Proof.
  destruct c as [b0 b1 b2 b3 b4 b5 b6 b7].
  destruct b0, b1, b2, b3, b4, b5, b6, b7; try discriminate 1; reflexivity.
Qed.

Lemma is_label_bracketed (w : string) : is_label w = true -> bracketed w.
Proof.
  unfold is_label. destruct w as [| c s]; [discriminate |].
  destruct (Ascii.eqb c "<") eqn:Ec.
  2:{ destruct c as [b0 b1 b2 b3 b4 b5 b6 b7].
      destruct b0, b1, b2, b3, b4, b5, b6, b7; try discriminate 1; discriminate Ec. }
  apply Ascii.eqb_eq in Ec. subst c. intros H.
  apply andb_prop in H. destruct H as [_ H]. apply String.eqb_eq in H.
  exists (run kind_char s ++ run Char.is_digit (skip kind_char s)). split.
  - f_equal. rewrite append_assoc, <- H, run_skip, run_skip. reflexivity.
  - rewrite any_append.
    rewrite (all_any_false kind_char is_angle _ kind_char_not_angle (run_all _ _)).
    rewrite (all_any_false Char.is_digit is_angle _ digit_not_angle (run_all _ _)).
    reflexivity.
Qed.

Lemma any_rev_append (P : ascii -> bool) (s acc : string) :
  Str.any P (Str.rev_append s acc) = Str.any P s || Str.any P acc.
Proof.
  revert acc. induction s as [| c s IH]; intros acc; simpl; [reflexivity |].
  rewrite IH. simpl. destruct (P c), (Str.any P s); reflexivity.
Qed.

Lemma rev_involutive (s : string) : Str.rev (Str.rev s) = s.
Proof. unfold Str.rev at 2. rewrite rev_rev_append. reflexivity. Qed.

Lemma template_bracketed (t : string) : is_template t = true -> bracketed t.
Proof.
  unfold is_template. intros H. apply andb_prop in H. destruct H as [_ H].
  destruct t as [| c s]; [discriminate H |].
  destruct (Ascii.eqb c "<") eqn:Ec.
  2:{ destruct c as [b0 b1 b2 b3 b4 b5 b6 b7].
      destruct b0, b1, b2, b3, b4, b5, b6, b7; try discriminate H; discriminate Ec. }
  apply Ascii.eqb_eq in Ec. subst c.
  destruct (Str.rev s) as [| d r] eqn:Er; [discriminate H |].
  destruct (Ascii.eqb d ">") eqn:Ed.
  2:{ destruct d as [b0 b1 b2 b3 b4 b5 b6 b7].
      destruct b0, b1, b2, b3, b4, b5, b6, b7; try discriminate H; discriminate Ed. }
  apply Ascii.eqb_eq in Ed. subst d.
  assert (Hr : Str.any is_angle r = false).
  { destruct (Str.any is_angle r); [| reflexivity].
    cbv beta iota in H. simpl in H. discriminate H. }
  exists (Str.rev r). split.
  - f_equal. rewrite <- (rev_involutive s), Er. unfold Str.rev. cbn [Str.rev_append].
    apply rev_append_app.
  - unfold Str.rev. rewrite any_rev_append, Hr. reflexivity.
Qed.

Lemma restamp_aux_angle (repl : string) :
  Str.any is_angle repl = false ->
  forall (body : string) (f : bool),
    Str.any is_angle body = false ->
    Str.any is_angle (restamp_aux repl f body) = false
    /\ restamp_aux repl f (body ++ ">") = restamp_aux repl f body ++ ">".
Proof.
  intros Hr. induction body as [| c body IH]; intros f Hb.
  - split; [reflexivity | destruct f; reflexivity].
  - simpl in Hb. apply orb_false_iff in Hb. destruct Hb as [Hc Hb].
    cbn [restamp_aux append].
    destruct (Char.is_digit c).
    + destruct (IH true Hb) as [H1 H2]. rewrite H2. split.
      * rewrite any_append, H1. destruct f; simpl; [reflexivity | rewrite Hr; reflexivity].
      * rewrite append_assoc. reflexivity.
    + destruct (IH false Hb) as [H1 H2]. rewrite H2. split.
      * rewrite any_append, H1. destruct (Ascii.eqb c "$"); simpl;
          [rewrite Hr | rewrite Hc]; reflexivity.
      * rewrite append_assoc. reflexivity.
Qed.

Lemma restamp_bracketed (repl t : string) :
  Str.any is_angle repl = false -> bracketed t -> bracketed (restamp repl t).
Proof.
  intros Hr (body & E & Hb). subst t.
  destruct (@restamp_aux_angle repl Hr body false Hb) as [H1 H2].
  exists (restamp_aux repl false body). split; [| exact H1].
  unfold restamp. cbn [restamp_aux Char.is_digit]. simpl. rewrite H2. reflexivity.
Qed.

Lemma of_N_no_angle (n : N) : Str.any is_angle (Str.of_N n) = false.
Proof. apply (all_any_false Char.is_digit is_angle _ digit_not_angle), of_N_digits. Qed.

(** Stamping a bracketed template gives a bracketed label. *)
Lemma stamp_label_tmpl (t : string) (st : state) :
  label_tmpl t ->
  exists t', stamp t st = (Ok t', st) /\ label_tmpl t' /\ stamped (counter st) t'.
Proof.
  intros [Hs Hb]. destruct (@stamp_stampable t st Hs) as (t' & E & Hst).
  exists t'. split; [exact E |]. split; [| exact Hst].
  split; [eapply stamped_stampable; exact Hst |].
  unfold stamp, bind, get_counter, lift in E.
  rewrite sub_stamp in E by (apply digits_plain, of_N_digits).
  injection E as <-. apply restamp_bracketed; [apply of_N_no_angle | exact Hb].
Qed.

Lemma template_label_tmpl (t : string) : is_template t = true -> label_tmpl t.
Proof. intros H. split; [apply template_stampable | apply template_bracketed]; exact H. Qed.

Lemma label_of_bracketed (kind : string) (c : N) :
  kind = "GEAUTORISEERD" \/ kind = "PERSOON" -> bracketed (label_of kind c).
Proof.
  intros [-> | ->]; unfold label_of.
  - exists ("GEAUTORISEERD_" ++ Str.of_N c). split; [reflexivity |].
    cbn [append Str.any]. simpl. apply of_N_no_angle.
  - exists ("PERSOON_" ++ Str.of_N c). split; [reflexivity |].
    cbn [append Str.any]. simpl. apply of_N_no_angle.
Qed.


(** ** The invariant of the working text through the passes *)

Lemma dict_set_in (k v k0 : string) (d : list (string * string)) :
  k0 = k \/ In k0 (Dict.keys d) -> In k0 (Dict.keys (Dict.set k v d)).
Proof.
  induction d as [| [k' v'] d IH]; simpl.
  - intros [H | []]; auto.
  - destruct (String.eqb k k') eqn:E; simpl.
    + apply String.eqb_eq in E. subst k'. intros [H | [H | H]]; auto.
    + intros [H | [H | H]]; auto.
Qed.

(** A substitution by a bracketed label followed by recording the label. *)
Lemma known_sub (p t mt report out : string) (count : nat) (st : state) :
  known report st -> bracketed t -> Re.sub p t report count = Ok out ->
  known out (snd (record t mt st)).
Proof.
  intros Hk Ht Hs w Hw Ho. unfold record. cbn [snd replace_dict].
  apply dict_set_in.
  destruct (sub_pieces _ _ _ _ Hs) as (fs & tail & Er & Eo). subst out.
  destruct (@splice_occurs_in w t fs tail (is_label_bracketed w Hw) Ht Ho) as [E | H].
  - left. exact E.
  - right. apply Hk; [exact Hw |]. rewrite <- Er. exact H.
Qed.

Lemma known_record (report t v : string) (st : state) :
  known report st -> known report (snd (record t v st)).
Proof.
  intros Hk w Hw Ho. unfold record. cbn [snd replace_dict].
  apply dict_set_in. right. apply Hk; assumption.
Qed.

Lemma post_bind {A B} (c : M A) (f : A -> M B) (Q : A -> state -> Prop)
  (R : B -> state -> Prop) (st : state) :
  post c Q st -> (forall a st1, Q a st1 -> post (f a) R st1) -> post (bind c f) R st.
Proof.
  unfold post, bind. intros Hc Hf.
  destruct (c st) as [[a | e] st1]; [apply Hf; exact Hc | exact I].
Qed.

Lemma post_ret {A} (a : A) (Q : A -> state -> Prop) (st : state) :
  Q a st -> post (ret a) Q st.
Proof. intros H. exact H. Qed.

Lemma post_lift {A} (x : res A) (Q : A -> state -> Prop) (st : state) :
  (forall a, x = Ok a -> Q a st) -> post (lift x) Q st.
Proof. intros H. unfold post, lift. destruct x; [apply H; reflexivity | exact I]. Qed.

Lemma post_stamp (t_id : string) (st : state) :
  label_tmpl t_id -> post (stamp t_id) (fun t st1 => st1 = st /\ label_tmpl t) st.
Proof.
  intros Ht. destruct (@stamp_label_tmpl t_id st Ht) as (t & Es & Ht' & _).
  unfold post. rewrite Es. split; [reflexivity | exact Ht'].
Qed.

(** One substitution of the primitives: stamp, substitute, record. *)
Lemma post_substitute (p report mt t : string) (count : nat) (st : state)
  (k : string -> M string) :
  known report st -> bracketed t ->
  (forall out st1, known out st1 -> post (k out) known st1) ->
  post (report_temp <- lift (Re.sub p t report count) ;; record t mt ;; k report_temp)
    known st.
Proof.
  intros Hk Ht Hnext.
  apply post_bind
    with (Q := fun out st1 => st1 = st /\ Re.sub p t report count = Ok out).
  { apply post_lift. intros out E. split; [reflexivity | exact E]. }
  intros out st1 [-> Esub].
  apply post_bind with (Q := fun _ st1 => st1 = snd (record t mt st)); [reflexivity |].
  intros _ st1 ->. apply Hnext.
  exact (@known_sub _ _ mt _ _ _ st Hk Ht Esub).
Qed.

Lemma holds_ret (r : string) : holds r (ret r).
Proof. intros st H. exact H. Qed.

Lemma holds_lift_bind {A} (r : string) (x : res A) (f : A -> M string) :
  (forall a, holds r (f a)) -> holds r (bind (lift x) f).
Proof.
  intros H st Hk.
  apply post_bind with (Q := fun _ st1 => st1 = st); [apply post_lift; reflexivity |].
  intros a st1 ->. apply H. exact Hk.
Qed.

Lemma holds_bind (r : string) (c : M string) (f : string -> M string) :
  holds r c -> (forall r', holds r' (f r')) -> holds r (bind c f).
Proof.
  intros Hc Hf st Hk. eapply post_bind; [apply Hc; exact Hk |].
  intros r' st1 H'. apply Hf. exact H'.
Qed.

Lemma holds_when (c : bool) (f : string -> M string) (r : string) :
  (forall r', holds r' (f r')) -> holds r (when c f r).
Proof. intros H. unfold when. destruct c; [apply H | apply holds_ret]. Qed.

Lemma holds_guard (c : res bool) (f : string -> M string) (r : string) :
  (forall r', holds r' (f r')) -> holds r (guard c f r).
Proof.
  intros H. unfold guard. apply holds_lift_bind.
  intros []; [apply H | apply holds_ret].
Qed.

Lemma holds_steps (fs : list (string -> M string)) :
  Forall (fun f => forall r, holds r (f r)) fs -> forall r, holds r (steps fs r).
Proof.
  induction 1 as [| f fs Hf _ IH]; intros r; cbn [steps].
  - apply holds_ret.
  - apply holds_bind; [apply Hf | exact IH].
Qed.

Lemma holds_steps_map {X} (g : X -> string -> M string) (l : list X) :
  (forall x r, holds r (g x r)) -> forall r, holds r (steps (List.map g l) r).
Proof. intros H. apply holds_steps. induction l; constructor; auto. Qed.

Lemma holds_replace_each (pat : string -> string) (matches : list string) :
  forall report t_id,
    label_tmpl t_id -> holds report (replace_each pat matches report t_id).
Proof.
  induction matches as [| mt rest IH]; intros report t_id Ht st Hk; cbn [replace_each].
  - exact Hk.
  - eapply post_bind; [apply post_stamp; exact Ht |].
    intros t st1 [-> Ht']. cbv beta.
    apply post_substitute; [exact Hk | exact (proj2 Ht') |].
    intros out st1 Hout. apply IH; assumption.
Qed.

Lemma holds_replace_with (pat : string -> string) (report input_text t_id : string) :
  label_tmpl t_id -> holds report (replace_with pat report input_text t_id).
Proof.
  intros Ht. unfold replace_with. apply holds_lift_bind.
  intros ms. apply holds_replace_each. exact Ht.
Qed.

Lemma holds_text (x t_id report : string) :
  label_tmpl t_id -> holds report (text x t_id report).
Proof. apply holds_replace_with. Qed.

Lemma holds_no_escape (x t_id report : string) :
  label_tmpl t_id -> holds report (no_escape x t_id report).
Proof. apply holds_replace_with. Qed.

Lemma holds_end_dot (x t_id report : string) :
  label_tmpl t_id -> holds report (end_dot x t_id report).
Proof. apply holds_replace_with. Qed.

Lemma holds_all_end_dot (x t_id report : string) :
  label_tmpl t_id -> holds report (all_end_dot x t_id report).
Proof. apply holds_replace_with. Qed.

Lemma holds_no_hyphen (lk : lookups) (x t_id report : string) :
  label_tmpl t_id -> holds report (no_hyphen lk x t_id report).
Proof.
  intros Ht. unfold no_hyphen, replace_text_no_hyphen. apply holds_lift_bind.
  intros c. destruct (Ascii.eqb c "."); apply holds_replace_with; exact Ht.
Qed.

Lemma holds_replace_each_outside (pat : string -> string) (b e : Z)
  (matches : list (nat * nat * string)) :
  forall report t_id,
    label_tmpl t_id -> holds report (replace_each_outside pat b e matches report t_id).
Proof.
  induction matches as [| [[s0 e0] mv] rest IH]; intros report t_id Ht st Hk;
    cbn [replace_each_outside].
  - exact Hk.
  - destruct (_ || _)%bool; [| apply IH; assumption].
    eapply post_bind; [apply post_stamp; exact Ht |].
    intros t st1 [-> Ht']. cbv beta.
    apply post_substitute; [exact Hk | exact (proj2 Ht') |].
    intros out st1 Hout. apply IH; assumption.
Qed.

Lemma holds_with_exceptions (lk : lookups) (x : string) (behind ahead : list string)
  (t_id report : string) :
  label_tmpl t_id -> holds report (with_exceptions lk x behind ahead t_id report).
Proof.
  intros Ht. unfold with_exceptions, replace_text_with_exceptions.
  apply holds_lift_bind. intros [b e]. apply holds_lift_bind. intros ms.
  apply holds_replace_each_outside. exact Ht.
Qed.

Lemma holds_persons (report pattern t_id : string) :
  label_tmpl t_id -> holds report (replace_text_persons report pattern t_id).
Proof.
  intros Ht. unfold replace_text_persons. apply holds_lift_bind.
  intros ms. apply holds_replace_each. exact Ht.
Qed.

Lemma holds_status_loop (groups : list (list string)) :
  forall report, holds report (status_loop groups report).
Proof.
  induction groups as [| g rest IH]; intros report; cbn [status_loop].
  - apply holds_ret.
  - apply holds_lift_bind. intros [|]; [| apply IH].
    intros st Hk.
    apply post_bind with (Q := fun c st1 => st1 = st /\ c = counter st);
      [split; reflexivity |].
    intros c st1 [-> ->]. cbv beta zeta.
    apply post_substitute;
      [exact Hk | apply label_of_bracketed; left; reflexivity |].
    intros out st1 Hout. apply IH. exact Hout.
Qed.

Lemma holds_remove_report_status (report : string) :
  holds report (remove_report_status report).
Proof. apply holds_status_loop. Qed.

(** *** Lines *)

Lemma split_char_acc_nonempty (sep : ascii) (s acc : string) :
  Str.split_char_acc sep s acc <> [].
Proof.
  revert acc. induction s as [| c s IH]; intros acc; cbn [Str.split_char_acc];
    [discriminate |].
  destruct (Ascii.eqb c sep); [discriminate | apply IH].
Qed.

Lemma join_split_acc (s acc : string) :
  Str.join Str.nl (Str.split_char_acc Char.nl s acc) = Str.rev acc ++ s.
Proof.
  revert acc. induction s as [| c s IH]; intros acc; cbn [Str.split_char_acc].
  - cbn [Str.join]. rewrite append_nil_r. reflexivity.
  - destruct (Ascii.eqb c Char.nl) eqn:E.
    + apply Ascii.eqb_eq in E. subst c.
      pose proof (split_char_acc_nonempty Char.nl s "") as Hn.
      specialize (IH "").
      destruct (Str.split_char_acc Char.nl s "") as [| y l]; [congruence |].
      cbn [Str.join]. cbn [Str.join] in IH. rewrite IH. reflexivity.
    + rewrite IH. unfold Str.rev. cbn [Str.rev_append].
      rewrite (rev_append_app acc (String c "")), append_assoc. reflexivity.
Qed.

Lemma join_split (s : string) : Str.join Str.nl (Str.split_char Char.nl s) = s.
Proof. unfold Str.split_char. apply join_split_acc. Qed.

Lemma occurs_in_refl (w : string) : occurs_in w w.
Proof. exists "", "". rewrite append_nil_r. reflexivity. Qed.

Lemma occurs_in_trans (w x y : string) : occurs_in w x -> occurs_in x y -> occurs_in w y.
Proof.
  intros (a & b & E) (a' & b' & E'). exists (a' ++ a), (b ++ b'). subst x y.
  rewrite !append_assoc. reflexivity.
Qed.

Lemma line_occurs_in_join (line : string) (lines : list string) :
  In line lines -> occurs_in line (Str.join Str.nl lines).
Proof.
  induction lines as [| x l IH]; [intros [] |].
  intros [-> | H].
  - destruct l as [| y l]; [apply occurs_in_refl |].
    cbn [Str.join]. apply occurs_in_app_l, occurs_in_refl.
  - destruct l as [| y l]; [destruct H |].
    cbn [Str.join]. apply occurs_in_app_r, occurs_in_app_r. apply IH. exact H.
Qed.

Lemma kind_char_not_nl (c : ascii) : kind_char c = true -> Ascii.eqb Char.nl c = false.
Proof.
  destruct c as [b0 b1 b2 b3 b4 b5 b6 b7].
  destruct b0, b1, b2, b3, b4, b5, b6, b7; try discriminate 1; reflexivity.
Qed.

Lemma digit_not_nl (c : ascii) : Char.is_digit c = true -> Ascii.eqb Char.nl c = false.
Proof.
  destruct c as [b0 b1 b2 b3 b4 b5 b6 b7].
  destruct b0, b1, b2, b3, b4, b5, b6, b7; try discriminate 1; reflexivity.
Qed.

Lemma is_label_one_line (w : string) :
  is_label w = true -> Str.any (Ascii.eqb Char.nl) w = false.
Proof.
  unfold is_label. destruct w as [| c s]; [discriminate |].
  destruct (Ascii.eqb c "<") eqn:Ec.
  2:{ destruct c as [b0 b1 b2 b3 b4 b5 b6 b7].
      destruct b0, b1, b2, b3, b4, b5, b6, b7; try discriminate 1; discriminate Ec. }
  apply Ascii.eqb_eq in Ec. subst c. intros H.
  apply andb_prop in H. destruct H as [_ H]. apply String.eqb_eq in H.
  rewrite <- (run_skip kind_char s), <- (run_skip Char.is_digit (skip kind_char s)), H.
  cbn [Str.any]. rewrite !any_append.
  rewrite (all_any_false kind_char _ _ kind_char_not_nl (run_all _ _)).
  rewrite (all_any_false Char.is_digit _ _ digit_not_nl (run_all _ _)).
  reflexivity.
Qed.

Lemma occurs_in_around_char (w x y : string) (c : ascii) :
  Str.any (Ascii.eqb c) w = false ->
  occurs_in w (x ++ String c y) -> occurs_in w x \/ occurs_in w y.
Proof.
  intros Hw (a & b & E). symmetry in E.
  destruct (Nat.le_gt_cases (length a + length w) (length x)) as [H1 | H1].
  - left. rewrite <- append_assoc in E.
    destruct (@append_eq_le (a ++ w) b x (String c y) E) as (m & Ex & _).
    { rewrite append_length. exact H1. }
    exists a, m. rewrite Ex, append_assoc. reflexivity.
  - destruct (Nat.le_gt_cases (S (length x)) (length a)) as [H2 | H2].
    + right. symmetry in E.
      change (x ++ String c y) with (x ++ String c "" ++ y) in E.
      rewrite <- append_assoc in E.
      destruct (@append_eq_le (x ++ String c "") y a (w ++ b) E) as (m & _ & Ey).
      { rewrite append_length. simpl. lia. }
      exists m, b. exact Ey.
    + exfalso.
      assert (G1 : String.get (length x + 0) (x ++ String c y) = Some c)
        by (rewrite get_app_r; reflexivity).
      rewrite <- E in G1.
      replace (length x + 0)%nat with (length a + (length x - length a))%nat in G1 by lia.
      rewrite get_mid in G1 by lia.
      pose proof (get_any_false _ _ _ Hw G1) as A. rewrite Ascii.eqb_refl in A.
      discriminate A.
Qed.

Lemma label_in_join (w : string) (lines : list string) :
  is_label w = true -> occurs_in w (Str.join Str.nl lines) ->
  exists line, In line lines /\ occurs_in w line.
Proof.
  intros Hw. induction lines as [| x l IH]; cbn [Str.join].
  - intros (a & b & E). destruct a; [| discriminate E].
    destruct w; [discriminate Hw | discriminate E].
  - destruct l as [| y l].
    + intros H. exists x. split; [left; reflexivity | exact H].
    + intros H. unfold Str.nl in H. cbn [append] in H.
      destruct (@occurs_in_around_char w x _ Char.nl (is_label_one_line w Hw) H)
        as [Hx | Hy].
      * exists x. split; [left; reflexivity | exact Hx].
      * destruct (IH Hy) as (line & Hin & Ho). exists line. split; [right; exact Hin | exact Ho].
Qed.

Lemma known_line (report line : string) (st : state) :
  known report st -> occurs_in line report -> known line st.
Proof. intros Hk Hl w Hw Ho. apply Hk; [exact Hw |]. eapply occurs_in_trans; eassumption. Qed.

Lemma known_join (lines : list string) (st : state) :
  (forall line, In line lines -> known line st) -> known (Str.join Str.nl lines) st.
Proof.
  intros H w Hw Ho. destruct (label_in_join lines Hw Ho) as (line & Hin & Hl).
  exact (H line Hin w Hw Hl).
Qed.

Lemma addendum_line_known (line : string) (st : state) :
  known line st ->
  post (if Str.contains "ADDENDUM: >>" line
        then matches <- lift (Re.findall "(?<=door )[^0-9]+" line) ;;
             match matches with
             | [] => ret line
             | m0 :: _ =>
                 c <- get_counter ;;
                 line0 <- lift (Re.sub m0 (label_of "PERSOON" c) line 0) ;;
                 record (label_of "PERSOON" c) m0 ;; ret line0
             end
        else ret line)
    (fun l st1 => known l st1 /\ (forall r, known r st -> known r st1)) st.
Proof.
  intros Hk.
  destruct (Str.contains "ADDENDUM: >>" line); [| apply post_ret; auto].
  apply post_bind with (Q := fun _ st1 => st1 = st); [apply post_lift; reflexivity |].
  intros [| m0 ms] st1 ->; [apply post_ret; auto |].
  apply post_bind with (Q := fun c st1 => st1 = st /\ c = counter st);
    [split; reflexivity |].
  intros c st1 [-> ->].
  apply post_bind
    with (Q := fun out st1 => st1 = st
                 /\ Re.sub m0 (label_of "PERSOON" (counter st)) line 0 = Ok out).
  { apply post_lift. intros out E. split; [reflexivity | exact E]. }
  intros out st1 [-> Esub].
  apply post_bind
    with (Q := fun _ st1 => st1 = snd (record (label_of "PERSOON" (counter st)) m0 st));
    [reflexivity |].
  intros _ st1 ->. apply post_ret. split.
  - exact (@known_sub _ _ m0 _ _ _ st Hk
             (@label_of_bracketed "PERSOON" (counter st) (or_intror eq_refl)) Esub).
  - intros r Hr. exact (@known_record r _ m0 st Hr).
Qed.

Lemma addendum_loop_known (lines : list string) :
  forall st,
    (forall line, In line lines -> known line st) ->
    post (addendum_loop lines)
      (fun ls st' =>
         (forall line, In line ls -> known line st')
         /\ (forall r, known r st -> known r st')) st.
Proof.
  induction lines as [| line rest IH]; intros st Hk; cbn [addendum_loop].
  - apply post_ret. split; [intros l [] | auto].
  - eapply post_bind; [apply addendum_line_known; apply Hk; left; reflexivity |].
    intros l st1 [Hl Hmono]. cbv beta.
    eapply post_bind; [apply IH; intros x Hx; apply Hmono, Hk; right; exact Hx |].
    intros ls st2 [Hls Hmono2]. cbv beta. apply post_ret. split.
    + intros x [<- | Hx]; [apply Hmono2; exact Hl | apply Hls; exact Hx].
    + intros r Hr. apply Hmono2, Hmono. exact Hr.
Qed.

Lemma holds_remove_name_addendum (report : string) :
  holds report (remove_name_addendum report).
Proof.
  intros st Hk. unfold remove_name_addendum.
  eapply post_bind.
  - apply addendum_loop_known. intros line Hin. apply (known_line Hk).
    rewrite <- (join_split report). apply line_occurs_in_join. exact Hin.
  - intros ls st1 [Hls _]. cbv beta. apply post_ret. apply known_join. exact Hls.
Qed.


Lemma holds_raise (r : string) (e : exn) : holds r (lift (Raise e)).
Proof. intros st H. exact I. Qed.

Ltac holds_step :=
  lazymatch goal with
  | |- holds _ (ret _) => apply holds_ret
  | |- holds _ (lift (Raise _)) => apply holds_raise
  | |- holds _ (text _ _ _) => apply holds_text; apply template_label_tmpl; reflexivity
  | |- holds _ (no_escape _ _ _) =>
      apply holds_no_escape; apply template_label_tmpl; reflexivity
  | |- holds _ (end_dot _ _ _) => apply holds_end_dot; apply template_label_tmpl; reflexivity
  | |- holds _ (all_end_dot _ _ _) =>
      apply holds_all_end_dot; apply template_label_tmpl; reflexivity
  | |- holds _ (no_hyphen _ _ _ _) =>
      apply holds_no_hyphen; apply template_label_tmpl; reflexivity
  | |- holds _ (with_exceptions _ _ _ _ _ _) =>
      apply holds_with_exceptions; apply template_label_tmpl; reflexivity
  | |- holds _ (replace_text_persons _ _ _) =>
      apply holds_persons; apply template_label_tmpl; reflexivity
  | |- holds _ (bind (lift _) _) => apply holds_lift_bind; intros ?
  | |- holds _ (bind _ _) => apply holds_bind; [| intros ?]
  | |- holds _ (when _ _ _) => apply holds_when; intros ?
  | |- holds _ (guard _ _ _) => apply holds_guard; intros ?
  | |- holds _ (steps (List.map _ _) _) => apply holds_steps_map; intros ? ?
  | |- holds _ (steps _ _) =>
      apply holds_steps; repeat (apply Forall_cons || apply Forall_nil); intros ?
  | |- holds _ (match ?x with _ => _ end) => destruct x
  | |- holds _ (let _ := _ in _) => cbv zeta
  | |- holds _ ((fun _ => _) _) => cbv beta
  end.

Ltac holds_tac := repeat holds_step.

Lemma holds_replace_family_names (lk : lookups) (report : string) (tokens : list string) :
  holds report (replace_family_names lk report tokens).
Proof. unfold replace_family_names. holds_tac. Qed.

Lemma holds_replace_initials (lk : lookups) (report : string) (tokens : list string) :
  holds report (replace_initials lk report tokens).
Proof. unfold replace_initials. holds_tac. Qed.

Lemma holds_replace_dates (lk : lookups) (report : string) (tokens : list string) :
  holds report (replace_dates lk report tokens).
Proof. unfold replace_dates. holds_tac. Qed.

Lemma holds_replace_titles (lk : lookups) (report : string) (tokens : list string) :
  holds report (replace_titles lk report tokens).
Proof. unfold replace_titles. holds_tac. Qed.

Lemma holds_replace_phonenumbers (lk : lookups) (report : string) (tokens : list string) :
  holds report (replace_phonenumbers lk report tokens).
Proof. unfold replace_phonenumbers. holds_tac. Qed.

Lemma holds_replace_time (lk : lookups) (report : string) (tokens : list string) :
  holds report (replace_time lk report tokens).
Proof. unfold replace_time. holds_tac. Qed.

Lemma holds_replace_cues (lk : lookups) (report : string) (tokens : list string) :
  holds report (replace_cues lk report tokens).
Proof. unfold replace_cues. holds_tac. Qed.

Lemma holds_replace_patientnumber (report : string) (tokens : list string) :
  holds report (replace_patientnumber report tokens).
Proof. unfold replace_patientnumber. holds_tac. Qed.

Lemma holds_replace_znumber (report : string) (tokens : list string) :
  holds report (replace_znumber report tokens).
Proof. unfold replace_znumber. holds_tac. Qed.

Lemma holds_replace_firstnames (lk : lookups) (report : string) (tokens : list string) :
  holds report (replace_firstnames lk report tokens).
Proof. unfold replace_firstnames. holds_tac. Qed.

Lemma holds_replace_reportid (report : string) (tokens : list string) :
  holds report (replace_reportid report tokens).
Proof. unfold replace_reportid. holds_tac. Qed.

Lemma holds_replace_cities (lk : lookups) (report : string) (tokens : list string) :
  holds report (replace_cities lk report tokens).
Proof. unfold replace_cities. holds_tac. Qed.


Lemma holds_on (lk : lookups) (entity : string)
  (detector : string -> list string -> M string) (tokens : list string) (report : string) :
  (forall r, holds r (detector r tokens)) -> holds report (on lk entity detector tokens report).
Proof. intros H. unfold on. apply holds_when. exact H. Qed.

Ltac holds_on :=
  apply holds_on; intros ?;
  lazymatch goal with
  | |- holds _ (replace_family_names _ _ _) => apply holds_replace_family_names
  | |- holds _ (replace_initials _ _ _) => apply holds_replace_initials
  | |- holds _ (replace_dates _ _ _) => apply holds_replace_dates
  | |- holds _ (replace_titles _ _ _) => apply holds_replace_titles
  | |- holds _ (replace_phonenumbers _ _ _) => apply holds_replace_phonenumbers
  | |- holds _ (replace_time _ _ _) => apply holds_replace_time
  | |- holds _ (replace_cues _ _ _) => apply holds_replace_cues
  | |- holds _ (replace_patientnumber _ _) => apply holds_replace_patientnumber
  | |- holds _ (replace_znumber _ _) => apply holds_replace_znumber
  | |- holds _ (replace_firstnames _ _ _) => apply holds_replace_firstnames
  | |- holds _ (replace_reportid _ _) => apply holds_replace_reportid
  | |- holds _ (replace_cities _ _ _) => apply holds_replace_cities
  end.

Lemma holds_detect (lk : lookups) (tokenized : list (list string)) (report : string) :
  holds report (detect lk tokenized report).
Proof.
  unfold detect.
  apply holds_steps; repeat (apply Forall_cons || apply Forall_nil); intros r;
    apply holds_steps_map; intros g r';
    [ unfold on_five_gram | unfold on_four_gram | unfold on_three_gram
    | unfold on_two_gram | unfold on_token ];
    (apply holds_steps; repeat (apply Forall_cons || apply Forall_nil); intros r'';
     holds_on).
Qed.

Lemma holds_merge_loop (patterns : list (string * string)) :
  Forall (fun pl => is_template (snd pl) = true) patterns ->
  forall report, holds report (merge_loop patterns report).
Proof.
  induction 1 as [| [p l] rest Hl _ IH]; intros report; cbn [merge_loop].
  - apply holds_ret.
  - apply holds_bind; [| exact IH].
    apply holds_persons. apply template_label_tmpl. exact Hl.
Qed.

Lemma holds_replace_intermediate_labels (report : string) :
  holds report (replace_intermediate_labels report).
Proof.
  unfold replace_intermediate_labels. apply holds_steps_map. intros t r.
  apply holds_merge_loop. apply merge_patterns_templates.
Qed.

(** The preprocessors, detection and merging keep the invariant. *)
Lemma holds_passes (lk : lookups) (tokenized : list (list string)) :
  Forall (fun f => forall r, holds r (f r)) (firstn 3 (passes lk tokenized)).
Proof.
  unfold passes. cbn [firstn].
  repeat (apply Forall_cons || apply Forall_nil); intros r.
  - apply holds_when. intros r'.
    apply holds_steps; repeat (apply Forall_cons || apply Forall_nil); intros r''.
    + apply holds_remove_report_status.
    + apply holds_remove_name_addendum.
  - apply holds_detect.
  - apply holds_replace_intermediate_labels.
Qed.

Lemma firstn_firstn_le {A} (l : list A) (n m : nat) :
  (n <= m)%nat -> firstn n l = firstn n (firstn m l).
Proof.
  revert n m. induction l as [| x l IH]; intros [| n] [| m] H; simpl;
    try reflexivity; try lia.
  f_equal. apply IH. lia.
Qed.

Lemma no_angle_no_label (text : string) :
  Str.any (Ascii.eqb "<") text = false ->
  forall w, is_label w = true -> ~ occurs_in w text.
Proof.
  intros Ht w Hw (a & b & E). subst text.
  rewrite !any_append in Ht. apply orb_false_iff in Ht. destruct Ht as [_ Ht].
  apply orb_false_iff in Ht. destruct Ht as [Ht _].
  destruct (is_label_bracketed w Hw) as (body & -> & _). discriminate Ht.
Qed.

Lemma after_calls_distinct (lk : lookups) (calls : list call) :
  distinct_counters (replace_dict (after_calls lk calls)).
Proof. exact (proj2 (after_calls_fresh lk calls)). Qed.

(** C6.  A report that holds the text of a label.  After cleaning the
    working text is the label "<DATUM_5>", for which the replacement map has
    no entry; after every pass the text is still that label and the map is
    still empty; postprocessing then looks the label up in the map and
    raises [KeyError]. *)
Theorem label_in_report_has_no_entry :
  clean_report "<DATUM_5>" = Ok "<DATUM_5>"
  /\ tokenize_reports "<DATUM_5>" = Ok [["<DATUM_5>"]]
  /\ is_label "<DATUM_5>" = true
  /\ (forall n,
        steps (firstn n (passes sample_lookups [["<DATUM_5>"]])) "<DATUM_5>"
          (with_original "<DATUM_5>" initial_state)
        = (Ok "<DATUM_5>", with_original "<DATUM_5>" initial_state))
  /\ Dict.get "<DATUM_5>" (replace_dict (with_original "<DATUM_5>" initial_state)) = None
  /\ fresh_run sample_config default_entities "<DATUM_5>"
     = (Raise KeyError,
        {| counter := 10000;
           replace_dict := [];
           original_report := "<DATUM_5>";
           annotations := [] |}).
Proof.
  split; [vm_compute; reflexivity |]. split; [vm_compute; reflexivity |].
  split; [vm_compute; reflexivity |]. split; [| split; vm_compute; reflexivity].
  intros n. do 4 (destruct n as [| n]; [vm_compute; reflexivity |]).
  rewrite firstn_all2 by (cbn [List.length passes]; lia).
  vm_compute. reflexivity.
Qed.

(** On an engine that has served any sequence of calls, for a cleaned
    report that holds no label, after each of the first three passes (the
    preprocessors, detection, merging) every label <KIND_N> in the working
    text is a key of the replacement map, and no two keys of the map carry
    the same counter value. *)
Theorem labels_have_entries_until_reversion (lk : lookups) (calls : list call)
  (cleaned : string) (tokenized : list (list string)) (n : nat) :
  (forall w, is_label w = true -> ~ occurs_in w cleaned) ->
  (n <= 3)%nat ->
  post (steps (firstn n (passes lk tokenized)) cleaned)
    (fun report st' =>
       labels_known report (replace_dict st')
       /\ distinct_counters (replace_dict st'))
    (with_original cleaned (after_calls lk calls)).
Proof.
  intros Hclean Hn.
  assert (Hk : known cleaned (with_original cleaned (after_calls lk calls))).
  { intros w Hw Ho. destruct (Hclean w Hw Ho). }
  assert (Hh : holds cleaned (steps (firstn n (passes lk tokenized)) cleaned)).
  { rewrite (firstn_firstn_le (passes lk tokenized) Hn).
    apply holds_steps. apply forall_firstn. apply holds_passes. }
  specialize (Hh _ Hk).
  pose proof (passes_extends lk tokenized n cleaned
                (with_original cleaned (after_calls lk calls))) as He.
  unfold post in *.
  destruct (steps (firstn n (passes lk tokenized)) cleaned
              (with_original cleaned (after_calls lk calls))) as [[r | e] st'];
    [| exact I].
  split; [exact Hh |]. cbn [snd] in He.
  destruct He as (_ & _ & _ & He).
  exact (proj2 (proj1 (He (after_calls_fresh lk calls)))).
Qed.

Lemma labels_have_entries_until_reversion_witness :
  post (steps (firstn 3 (passes sample_lookups [["14-01-2020"; "te"; "Nijmegen"]]))
          "14-01-2020 te Nijmegen")
    (fun report st' =>
       labels_known report (replace_dict st')
       /\ distinct_counters (replace_dict st'))
    (with_original "14-01-2020 te Nijmegen" (after_calls sample_lookups [])).
Proof.
  apply (@labels_have_entries_until_reversion sample_lookups []
           "14-01-2020 te Nijmegen" [["14-01-2020"; "te"; "Nijmegen"]] 3).
  - apply no_angle_no_label. vm_compute. reflexivity.
  - lia.
Defined.


(** ** The pattern of [replace_text] *)

Lemma parse_alt_eq (s : string) (g f : nat) :
  Re.parse_alt (S f) s g
  = rbind (Re.parse_seq f s g) (fun '(r1, s1, g1) =>
      match s1 with
      | String "|" s2 =>
          rbind (Re.parse_alt f s2 g1) (fun '(r2, s3, g2) => Ok (Re.RAlt r1 r2, s3, g2))
      | _ => Ok (r1, s1, g1)
      end).
Proof. reflexivity. Qed.

Lemma parse_seq_open (s : string) (g f : nat) :
  Re.parse_seq (S f) (String "(" s) g
  = rbind (Re.parse_atom f (String "(" s) g) (fun '(a, s1, g1) =>
      rbind (Re.quantify a s1) (fun '(q, s2) =>
        rbind (Re.parse_seq f s2 g1) (fun '(r, s3, g2) =>
          Ok (Re.RSeq q r, s3, g2)))).
Proof. reflexivity. Qed.

Lemma parse_seq_backslash (s : string) (g f : nat) :
  Re.parse_seq (S f) (String "\" s) g
  = rbind (Re.parse_atom f (String "\" s) g) (fun '(a, s1, g1) =>
      rbind (Re.quantify a s1) (fun '(q, s2) =>
        rbind (Re.parse_seq f s2 g1) (fun '(r, s3, g2) =>
          Ok (Re.RSeq q r, s3, g2)))).
Proof. reflexivity. Qed.

Lemma parse_atom_wordb (s : string) (g f : nat) :
  Re.parse_atom (S f) (String "\" (String "b" s)) g = Ok (Re.RWordB false, s, g).
Proof. reflexivity. Qed.

Lemma parse_atom_not_behind_slash (s : string) (g f : nat) :
  Re.parse_atom (S (S (S (S (S f))))) ("(?<!/)" ++ s) g = Ok (not_behind "/", s, g).
Proof. reflexivity. Qed.

Lemma parse_atom_not_behind_hyphen (s : string) (g f : nat) :
  Re.parse_atom (S (S (S (S (S f))))) ("(?<!-)" ++ s) g = Ok (not_behind "-", s, g).
Proof. reflexivity. Qed.

Lemma parse_atom_not_behind_underscore (s : string) (g f : nat) :
  Re.parse_atom (S (S (S (S (S f))))) ("(?<!_)" ++ s) g = Ok (not_behind "_", s, g).
Proof. reflexivity. Qed.

Lemma parse_seq_text_tail (g f : nat) :
  Re.parse_seq (S (S (S (S (S (S (S (S (S (S f)))))))))) "\b(?!/)(?!-)(?!_)" g
  = Ok (text_tail, EmptyString, g).
Proof. reflexivity. Qed.

Lemma escape_spells_length (x : string) :
  ascii_text x = true -> (length x <= length (Re.escape x))%nat.
Proof. intros H. apply spells_length, spells_escape. exact H. Qed.

(** [re.compile(pat_text x)] *)
Lemma compile_text (x : string) :
  ascii_text x = true ->
  Re.compile (pat_text x) = Ok {| Re.form := text_form x; Re.groups := 0 |}.
Proof.
  intros Hx. unfold Re.compile, pat_text.
  pose proof (escape_spells_length x Hx) as Hl.
  assert (Hf : exists k,
            (4 * length ("\b" ++ "(?<!/)(?<!-)(?<!_)" ++ Re.escape x ++ "\b"
                           ++ "(?!/)(?!-)(?!_)") + 8
             = S (S (S (S (S (S (S (S (S (S (S (S (S (S (S (S (length x + k)))))))))))))))))%nat).
  { exists (4 * length ("\b" ++ "(?<!/)(?<!-)(?<!_)" ++ Re.escape x ++ "\b"
                          ++ "(?!/)(?!-)(?!_)") + 8 - 16 - length x)%nat.
    rewrite !append_length. cbn [length]. lia. }
  destruct Hf as [k Hf]. rewrite Hf. clear Hf.
  rewrite parse_alt_eq.
  change ("\b" ++ "(?<!/)(?<!-)(?<!_)" ++ Re.escape x ++ "\b" ++ "(?!/)(?!-)(?!_)")
    with (String "\" (String "b" ("(?<!/)" ++ "(?<!-)" ++ "(?<!_)"
            ++ (Re.escape x ++ "\b(?!/)(?!-)(?!_)")))).
  rewrite parse_seq_backslash, parse_atom_wordb. cbn [rbind].
  rewrite quantify_none by reflexivity. cbn [rbind].
  change ("(?<!/)" ++ "(?<!-)" ++ "(?<!_)" ++ Re.escape x ++ "\b(?!/)(?!-)(?!_)")
    with (String "(" ("?<!/)" ++ "(?<!-)" ++ "(?<!_)" ++ Re.escape x
                        ++ "\b(?!/)(?!-)(?!_)")).
  rewrite parse_seq_open.
  change (String "(" ("?<!/)" ++ "(?<!-)" ++ "(?<!_)" ++ Re.escape x
                        ++ "\b(?!/)(?!-)(?!_)"))
    with ("(?<!/)" ++ (String "(" ("?<!-)" ++ "(?<!_)" ++ Re.escape x
                                     ++ "\b(?!/)(?!-)(?!_)"))).
  rewrite parse_atom_not_behind_slash. cbn [rbind].
  rewrite quantify_none by reflexivity. cbn [rbind].
  rewrite parse_seq_open.
  change (String "(" ("?<!-)" ++ "(?<!_)" ++ Re.escape x ++ "\b(?!/)(?!-)(?!_)"))
    with ("(?<!-)" ++ (String "(" ("?<!_)" ++ Re.escape x ++ "\b(?!/)(?!-)(?!_)"))).
  rewrite parse_atom_not_behind_hyphen. cbn [rbind].
  rewrite quantify_none by reflexivity. cbn [rbind].
  rewrite parse_seq_open.
  change (String "(" ("?<!_)" ++ Re.escape x ++ "\b(?!/)(?!-)(?!_)"))
    with ("(?<!_)" ++ (Re.escape x ++ "\b(?!/)(?!-)(?!_)")).
  rewrite parse_atom_not_behind_underscore. cbn [rbind].
  rewrite quantify_none
    by (apply (@parse_quant_spells (Re.escape x) x); [apply spells_escape; exact Hx
                                                     | reflexivity]).
  cbn [rbind].
  replace (S (S (S (S (S (S (S (S (S (S (S (length x + k))))))))))))
    with (length x + S (S (S (S (S (S (S (S (S (S (S k)))))))))))%nat by lia.
  rewrite (@parse_seq_spells (Re.escape x) x (spells_escape x Hx)
             "\b(?!/)(?!-)(?!_)" 1 _ text_tail "" 1 eq_refl
             (parse_seq_text_tail 1 (S k))).
  reflexivity.
Qed.

(** ** Matching the pattern of [replace_text] *)

Lemma m_seq (r1 r2 : Re.regex) (k : Re.mstate -> option Re.mstate) (s : Re.mstate) :
  Re.m (Re.RSeq r1 r2) k s = Re.m r1 (Re.m r2 k) s.
Proof. reflexivity. Qed.

Lemma m_eps (k : Re.mstate -> option Re.mstate) (s : Re.mstate) : Re.m Re.REps k s = k s.
Proof. reflexivity. Qed.

Lemma m_wordb (k : Re.mstate -> option Re.mstate) (s : Re.mstate) :
  Re.m (Re.RWordB false) k s = if Re.at_boundary s then k s else None.
Proof. reflexivity. Qed.

Lemma m_not_ahead (c : ascii) (k : Re.mstate -> option Re.mstate) (s : Re.mstate) :
  Re.m (not_ahead c) k s = if Re.head_is (Ascii.eqb c) (Re.aft s) then None else k s.
Proof.
  unfold not_ahead. cbn [Re.m]. unfold Re.one.
  destruct (Re.aft s) as [| d a]; [reflexivity |]. cbn [Re.head_is].
  destruct (Ascii.eqb c d); reflexivity.
Qed.

Lemma m_not_behind (c : ascii) (k : Re.mstate -> option Re.mstate) (s : Re.mstate) :
  Re.pos s = length (Re.bef s) ->
  Re.m (not_behind c) k s = if Re.head_is (Ascii.eqb c) (Re.bef s) then None else k s.
Proof.
  intros Hwf. unfold not_behind. cbn [Re.m Re.back].
  destruct (Re.bef s) as [| d b] eqn:Eb; [reflexivity |]. cbn [Re.head_is].
  unfold Re.one. cbn [Re.aft Re.bef Re.pos Re.caps].
  destruct (Ascii.eqb c d); [| reflexivity].
  replace (S (Re.pos s - 1) =? Re.pos s)%nat with true
    by (symmetry; apply Nat.eqb_eq; simpl in Hwf; lia).
  reflexivity.
Qed.

Lemma head_is_joiner (s : string) :
  Re.head_is joiner s
  = Re.head_is (Ascii.eqb "/") s || Re.head_is (Ascii.eqb "-") s
    || Re.head_is (Ascii.eqb "_") s.
Proof. destruct s; reflexivity. Qed.

Lemma m_text_tail (k : Re.mstate -> option Re.mstate) (s : Re.mstate) :
  Re.m text_tail k s
  = if Re.at_boundary s && negb (Re.head_is joiner (Re.aft s)) then k s else None.
Proof.
  unfold text_tail. rewrite m_seq, m_wordb.
  destruct (Re.at_boundary s); [| reflexivity].
  rewrite m_seq, m_not_ahead, head_is_joiner.
  destruct (Re.head_is (Ascii.eqb "/") (Re.aft s)); [reflexivity |].
  rewrite m_seq, m_not_ahead.
  destruct (Re.head_is (Ascii.eqb "-") (Re.aft s)); [reflexivity |].
  rewrite m_seq, m_not_ahead.
  destruct (Re.head_is (Ascii.eqb "_") (Re.aft s)); reflexivity.
Qed.

(** The pattern of [replace_text] at a cursor. *)
Lemma m_text (x : string) (k : Re.mstate -> option Re.mstate) (b a : string) (p : nat)
  (c : list (nat * string)) :
  p = length b ->
  Re.m (text_form x) k (Re.MState b a p c)
  = if text_at x b a then k (after x b (Str.drop (length x) a) p c) else None.
Proof.
  intros Hwf. unfold text_form, text_at.
  rewrite m_seq, m_wordb. unfold Re.at_boundary at 1. cbn [Re.bef Re.aft].
  fold (word_edge b a). destruct (word_edge b a); [| reflexivity].
  rewrite head_is_joiner.
  rewrite m_seq, m_not_behind by exact Hwf. cbn [Re.bef].
  destruct (Re.head_is (Ascii.eqb "/") b); [reflexivity |].
  rewrite m_seq, m_not_behind by exact Hwf. cbn [Re.bef].
  destruct (Re.head_is (Ascii.eqb "-") b); [reflexivity |].
  rewrite m_seq, m_not_behind by exact Hwf. cbn [Re.bef].
  destruct (Re.head_is (Ascii.eqb "_") b); [reflexivity |].
  cbn [orb negb andb]. rewrite m_lits.
  destruct (Str.prefixb x a); [| reflexivity].
  rewrite m_text_tail. unfold after. unfold Re.at_boundary. cbn [Re.bef Re.aft].
  fold (word_edge (Str.rev_append x b) (Str.drop (length x) a)).
  reflexivity.
Qed.


(** ** Patterns without a match, patterns that match the whole subject *)

Lemma search_from_none (r : Re.regex) :
  forall (a b : string) (p : nat) (ma : bool) (sk : string),
    (forall pre a' k, a = pre ++ a' ->
       Re.m r k (Re.MState (Str.rev_append pre b) a' (p + length pre) []) = None) ->
    Re.search_from r b a p ma sk = None.
Proof.
  induction a as [| c a IH]; intros b p ma sk H; cbn [Re.search_from].
  - pose proof (H "" "" (fun e => if ma && (Re.pos e =? p)%nat then None else Some e)
                  eq_refl) as H0.
    cbn [Str.rev_append length] in H0. rewrite Nat.add_0_r in H0. rewrite H0. reflexivity.
  - pose proof (H "" (String c a)
                  (fun e => if ma && (Re.pos e =? p)%nat then None else Some e) eq_refl)
      as H0.
    cbn [Str.rev_append length] in H0. rewrite Nat.add_0_r in H0. rewrite H0.
    apply IH. intros pre a' k E.
    pose proof (H (String c pre) a' k ltac:(simpl; congruence)) as H1.
    cbn [Str.rev_append length] in H1.
    replace (S p + length pre)%nat with (p + S (length pre))%nat by lia. exact H1.
Qed.

(** [no_match r s]: the form [r] matches at no cursor of the subject [s]. *)
Lemma matches_none (r : Re.regex) (limit : option nat) (s : string) :
  no_match r s -> Re.matches r limit s = ([], s).
Proof.
  intros H. unfold Re.matches.
  replace (2 * length s + 3)%nat with (S (2 * length s + 2)) by lia.
  cbn [Re.scan].
  rewrite search_from_none.
  - destruct limit as [[| n] |]; reflexivity.
  - intros pre a' k E. rewrite rev_append_app, append_nil_r. apply H. exact E.
Qed.

Lemma findall_none (p s : string) (c : Re.pattern) :
  Re.compile p = Ok c -> no_match (Re.form c) s -> Re.findall p s = Ok [].
Proof.
  intros Hc H. unfold Re.findall. rewrite Hc. cbn [rbind].
  rewrite matches_none by exact H. reflexivity.
Qed.

Lemma sub_none (p repl s : string) (count : nat) (c : Re.pattern) :
  Re.compile p = Ok c -> Re.plain_repl repl = true -> no_match (Re.form c) s ->
  Re.sub p repl s count = Ok s.
Proof.
  intros Hc Hr H. unfold Re.sub. rewrite Hc. cbn [rbind]. rewrite Hr.
  rewrite matches_none by exact H. reflexivity.
Qed.

Lemma split_none (p s : string) (c : Re.pattern) :
  Re.compile p = Ok c -> no_match (Re.form c) s -> Re.split p s = Ok [s].
Proof.
  intros Hc H. unfold Re.split. rewrite Hc. cbn [rbind].
  rewrite matches_none by exact H. reflexivity.
Qed.

Lemma finditer_none (p s : string) (c : Re.pattern) :
  Re.compile p = Ok c -> no_match (Re.form c) s -> Re.finditer p s = Ok [].
Proof.
  intros Hc H. unfold Re.finditer. rewrite Hc. cbn [rbind].
  rewrite matches_none by exact H. reflexivity.
Qed.

Lemma take_all (z : string) : Str.take (length z) z = z.
Proof. induction z as [| c z IH]; simpl; congruence. Qed.

(** A form that matches the whole of a non-empty subject from its start,
    and nothing at its end. *)
Lemma matches_whole (r : Re.regex) (limit : option nat) (x : string) :
  x <> EmptyString -> limit <> Some 0%nat ->
  (forall k, Re.m r k (Re.MState "" x 0 []) = k (after x "" "" 0 [])) ->
  (forall k, Re.m r k (after x "" "" 0 []) = None) ->
  Re.matches r limit x = ([Re.Found "" x []], "").
Proof.
  intros Hx Hl Hstart Hend. unfold Re.matches.
  replace (2 * length x + 3)%nat with (S (S (2 * length x + 1))) by lia.
  assert (Hs : Re.search_from r "" x 0 false ""
               = Some (Re.Found "" x [], after x "" "" 0 [])).
  { destruct x as [| c x]; [congruence |]. cbn [Re.search_from]. rewrite Hstart.
    unfold after. cbn [Re.pos andb Re.caps Nat.add].
    rewrite Nat.sub_0_r, take_all. reflexivity. }
  assert (Hs2 : forall ma, Re.search_from r (Str.rev_append x "") "" (0 + length x) ma ""
                     = None).
  { intros ma. cbn [Re.search_from]. fold (after x "" "" 0 []). rewrite Hend. reflexivity. }
  cbn [Re.scan]. destruct limit as [[| n] |]; [congruence | |].
  - rewrite Hs. cbn [option_map pred]. unfold after at 1 2 3. cbn [Re.bef Re.aft Re.pos].
    destruct n as [| n]; cbn [Re.scan]; [reflexivity |].
    rewrite Hs2. reflexivity.
  - rewrite Hs. cbn [option_map]. unfold after at 1 2 3. cbn [Re.bef Re.aft Re.pos].
    cbn [Re.scan]. rewrite Hs2. reflexivity.
Qed.


(** ** The primitives on a text they match as a whole, or not at all *)

Lemma stamp_label_at (t_id : string) (st : state) :
  stamp t_id st = (Ok (label_at t_id (counter st)), st).
Proof.
  unfold stamp, bind, get_counter, lift, label_at.
  rewrite sub_stamp by (apply digits_plain, of_N_digits). reflexivity.
Qed.

Lemma restamp_aux_plain_repl (repl : string) :
  Re.plain_repl repl = true ->
  forall (t : string) (f : bool),
    Re.plain_repl t = true -> Re.plain_repl (restamp_aux repl f t) = true.
Proof.
  unfold Re.plain_repl. intros Hr. apply negb_true_iff in Hr.
  induction t as [| c t IH]; intros f Ht; [reflexivity |].
  apply negb_true_iff in Ht. cbn [Str.any] in Ht. apply orb_false_iff in Ht.
  destruct Ht as [Hc Ht]. apply negb_true_iff.
  cbn [restamp_aux].
  destruct (Char.is_digit c).
  - rewrite any_append.
    specialize (IH true ltac:(apply negb_true_iff; exact Ht)).
    apply negb_true_iff in IH. rewrite IH.
    destruct f; cbn [Str.any]; [reflexivity | rewrite Hr; reflexivity].
  - rewrite any_append.
    specialize (IH false ltac:(apply negb_true_iff; exact Ht)).
    apply negb_true_iff in IH. rewrite IH.
    destruct (Ascii.eqb c "$"); cbn [Str.any]; [rewrite Hr | rewrite Hc]; reflexivity.
Qed.

Lemma label_at_plain_repl (t_id : string) (c : N) :
  Re.plain_repl t_id = true -> Re.plain_repl (label_at t_id c) = true.
Proof.
  intros H. unfold label_at, restamp. apply restamp_aux_plain_repl; [| exact H].
  apply digits_plain, of_N_digits.
Qed.

(** A primitive whose pattern has no match returns the report as it is. *)
Lemma replace_with_none (pat : string -> string) (report x t_id : string)
  (c : Re.pattern) (st : state) :
  Re.compile (pat x) = Ok c -> no_match (Re.form c) report ->
  replace_with pat report x t_id st = (Ok report, st).
Proof.
  intros Hc Hn. unfold replace_with, bind, lift.
  rewrite (@findall_none _ _ _ Hc Hn). reflexivity.
Qed.

(** A primitive whose pattern matches the report as a whole, and the
    match as a whole, replaces it by the label and records it. *)
Lemma replace_with_whole (pat : string -> string) (x t_id : string) (c : Re.pattern)
  (st : state) :
  x <> EmptyString -> Re.plain_repl t_id = true ->
  Re.compile (pat x) = Ok c -> Re.groups c = 0%nat ->
  (forall k, Re.m (Re.form c) k (Re.MState "" x 0 []) = k (after x "" "" 0 [])) ->
  (forall k, Re.m (Re.form c) k (after x "" "" 0 []) = None) ->
  replace_with pat x x t_id st
  = (Ok (label_at t_id (counter st)),
     snd (record (label_at t_id (counter st)) x st)).
Proof.
  intros Hx Hp Hc Hg Hstart Hend. unfold replace_with.
  unfold bind at 1, lift at 1. unfold Re.findall. rewrite Hc. cbn [rbind].
  rewrite (@matches_whole (Re.form c) None x Hx ltac:(discriminate) Hstart Hend).
  cbn [fst Re.items_of]. unfold Re.item_of. rewrite Hg. cbn [rbind Re.matched].
  cbn [replace_each]. unfold bind at 1. rewrite stamp_label_at.
  unfold bind at 1, lift at 1. unfold Re.sub. rewrite Hc. cbn [rbind].
  rewrite label_at_plain_repl by exact Hp.
  rewrite (@matches_whole (Re.form c) (Re.limit_of 1) x Hx ltac:(discriminate) Hstart Hend).
  cbn [Re.splice Re.skipped append]. rewrite append_nil_r.
  reflexivity.
Qed.

Lemma rev_append_length (s acc : string) :
  length (Str.rev_append s acc) = (length s + length acc)%nat.
Proof.
  revert acc. induction s as [| c s IH]; intros acc; simpl; [reflexivity |].
  rewrite IH. simpl. lia.
Qed.

Lemma rev_length (s : string) : length (Str.rev s) = length s.
Proof. unfold Str.rev. rewrite rev_append_length. simpl. lia. Qed.

Lemma no_match_text (x report : string) :
  (forall pre a', report = pre ++ a' -> text_at x (Str.rev pre) a' = false) ->
  no_match (text_form x) report.
Proof.
  intros H pre a' k E. rewrite m_text by (rewrite rev_length; reflexivity).
  rewrite (H pre a' E). reflexivity.
Qed.

Lemma prefixb_long (y a : string) : (length a < length y)%nat -> Str.prefixb y a = false.
Proof.
  revert a. induction y as [| c y IH]; intros a H; [simpl in H; lia |].
  destruct a as [| d a]; [reflexivity |]. simpl in *.
  rewrite IH by lia. apply andb_false_r.
Qed.

Lemma text_at_not_prefix (x b a : string) : Str.prefixb x a = false -> text_at x b a = false.
Proof.
  intros H. unfold text_at. rewrite H.
  destruct (word_edge b a), (Re.head_is joiner b); reflexivity.
Qed.

(** [replace_text] with a text longer than the report. *)
Lemma replace_text_long (report x t_id : string) (st : state) :
  ascii_text x = true -> (length report < length x)%nat ->
  replace_text report x t_id st = (Ok report, st).
Proof.
  intros Hx Hl. apply (@replace_with_none pat_text report x t_id _ st (compile_text x Hx)).
  cbn [Re.form]. apply no_match_text. intros pre a' E.
  apply text_at_not_prefix, prefixb_long.
  apply (f_equal length) in E. rewrite append_length in E. lia.
Qed.

(** [replace_text] with the report itself, between word characters. *)
Lemma replace_text_whole (x t_id : string) (st : state) :
  ascii_text x = true -> x <> EmptyString -> Re.plain_repl t_id = true ->
  text_at x "" x = true ->
  replace_text x x t_id st
  = (Ok (label_at t_id (counter st)),
     snd (record (label_at t_id (counter st)) x st)).
Proof.
  intros Hx Hne Hp Ht.
  apply (@replace_with_whole pat_text x t_id _ st Hne Hp (compile_text x Hx) eq_refl); cbn [Re.form].
  - intros k. rewrite m_text by reflexivity. rewrite Ht.
    replace (Str.drop (length x) x) with "" ; [reflexivity |].
    clear. induction x as [| c x IH]; [reflexivity | exact IH].
  - intros k. unfold after. rewrite m_text by (rewrite rev_append_length; simpl; lia).
    rewrite text_at_not_prefix; [reflexivity |].
    destruct x; [congruence | reflexivity].
Qed.


(** ** Labels and the pattern of [replace_text] *)

Lemma head_rev_append_all (P : ascii -> bool) (s acc : string) :
  Str.all P s = true -> s <> EmptyString -> Re.head_is P (Str.rev_append s acc) = true.
Proof.
  revert acc. induction s as [| c s IH]; intros acc Hs Hne; [congruence |].
  cbn [Str.all] in Hs. apply andb_prop in Hs. destruct Hs as [Hc Hs].
  cbn [Str.rev_append]. destruct s as [| d s]; [exact Hc |].
  apply IH; [exact Hs | discriminate].
Qed.

Lemma head_rev_append_acc (P : ascii -> bool) (s acc : string) :
  Str.all P s = true -> Re.head_is P acc = true ->
  Re.head_is P (Str.rev_append s acc) = true.
Proof.
  revert acc. induction s as [| c s IH]; intros acc Hs Ha; [exact Ha |].
  cbn [Str.all] in Hs. apply andb_prop in Hs. destruct Hs as [Hc Hs].
  cbn [Str.rev_append]. apply IH; [exact Hs | exact Hc].
Qed.

Lemma rev_append_rev (x pre : string) :
  Str.rev_append x (Str.rev pre) = Str.rev (pre ++ x).
Proof.
  unfold Str.rev. generalize "". induction pre as [| c pre IH]; intros acc;
    cbn [Str.rev_append append]; [reflexivity | apply IH].
Qed.

Lemma append_inv_tail (a b c : string) : a ++ c = b ++ c -> a = b.
Proof.
  revert b. induction a as [| x a IH]; intros b E.
  - destruct b as [| y b]; [reflexivity |]. exfalso.
    apply (f_equal length) in E. simpl in E. rewrite append_length in E. lia.
  - destruct b as [| y b].
    + exfalso. apply (f_equal length) in E. simpl in E. rewrite append_length in E. lia.
    + simpl in E. injection E as -> E. f_equal. apply IH. exact E.
Qed.

(** The word boundaries of a label are after its opening bracket and
    before its closing one. *)
Lemma label_edge (body pre a : string) :
  Str.all Char.is_word body = true -> body <> EmptyString ->
  String "<" (body ++ ">") = pre ++ a ->
  word_edge (Str.rev pre) a = true ->
  pre = "<" \/ a = ">".
Proof.
  intros Hb Hne E Hw. unfold word_edge in Hw.
  destruct pre as [| c pre1].
  - simpl in E. subst a. discriminate Hw.
  - simpl in E. injection E as <- E.
    destruct pre1 as [| d pre1]; [left; reflexivity |]. right.
    destruct (Nat.le_gt_cases (length (String d pre1)) (length body)) as [Hl | Hl].
    + symmetry in E.
      destruct (@append_eq_le (String d pre1) a body ">" E Hl) as (m & Eb & Ea).
      destruct m as [| y m]; [exact Ea |]. exfalso.
      rewrite Eb, all_append in Hb. apply andb_prop in Hb. destruct Hb as [Hp Hm].
      cbn [Str.all] in Hm. apply andb_prop in Hm. destruct Hm as [Hy _].
      subst a. cbn [append Re.head_is] in Hw. rewrite Hy in Hw.
      change (Str.rev (String "<" (String d pre1)))
        with (Str.rev_append pre1 (String d "<")) in Hw.
      cbn [Str.all] in Hp. apply andb_prop in Hp. destruct Hp as [Hd Hp].
      rewrite (@head_rev_append_acc Char.is_word pre1 (String d "<") Hp Hd) in Hw.
      discriminate Hw.
    + exfalso.
      destruct (@append_eq_le body ">" (String d pre1) a E ltac:(lia)) as (m & Ep & Em).
      destruct m as [| y m].
      { rewrite append_nil_r in Ep. rewrite Ep in Hl. lia. }
      simpl in Em. injection Em as <- Em.
      destruct m; [| discriminate Em]. destruct a; [| discriminate Em].
      rewrite Ep in Hw. unfold Str.rev in Hw.
      change (String "<" (body ++ ">")) with (("<" ++ body) ++ ">") in Hw.
      cbn [Re.head_is] in Hw.
      assert (Hh : forall s acc, Re.head_is Char.is_word (Str.rev_append (s ++ ">") acc)
                                 = false).
      { clear. induction s as [| c s IH]; intros acc; [reflexivity | apply IH]. }
      rewrite Hh in Hw. discriminate Hw.
Qed.

(** The pattern of [replace_text] matches in a label only the whole of
    its inside. *)
Lemma no_match_text_label (body x : string) :
  Str.all Char.is_word body = true -> body <> EmptyString ->
  x <> EmptyString -> x <> body ->
  no_match (text_form x) (String "<" (body ++ ">")).
Proof.
  intros Hb Hne Hx Hxb. apply no_match_text. intros pre a' E.
  unfold text_at.
  destruct (word_edge (Str.rev pre) a') eqn:H1; [| reflexivity].
  destruct (Re.head_is joiner (Str.rev pre)); [reflexivity |].
  destruct (Str.prefixb x a') eqn:H3; [| reflexivity].
  cbn [negb andb].
  destruct (word_edge (Str.rev_append x (Str.rev pre)) (Str.drop (length x) a')) eqn:H4;
    [| reflexivity].
  exfalso.
  pose proof (prefixb_split x a' H3) as Ea.
  set (rest := Str.drop (length x) a') in *.
  rewrite rev_append_rev in H4.
  assert (E2 : String "<" (body ++ ">") = (pre ++ x) ++ rest).
  { rewrite E, Ea, append_assoc. reflexivity. }
  destruct (@label_edge body pre a' Hb Hne E H1) as [Hp | Ha];
    destruct (@label_edge body (pre ++ x) rest Hb Hne E2 H4) as [Hp2 | Hr].
  - subst pre. simpl in Hp2. injection Hp2 as Hp2. congruence.
  - subst pre. simpl in E. injection E as E. rewrite Ea, Hr in E.
    apply append_inv_tail in E. congruence.
  - rewrite Ha in Ea. destruct pre as [| c pre]; simpl in Hp2.
    + subst x. discriminate Ea.
    + injection Hp2 as _ Hp2. destruct pre; [| discriminate Hp2].
      simpl in Hp2. congruence.
  - rewrite Ha, Hr in Ea. destruct x as [| c x]; [congruence |].
    apply (f_equal length) in Ea. simpl in Ea. rewrite append_length in Ea.
    simpl in Ea. lia.
Qed.

Lemma kind_char_word (c : ascii) : kind_char c = true -> Char.is_word c = true.
Proof.
  destruct c as [b0 b1 b2 b3 b4 b5 b6 b7].
  destruct b0, b1, b2, b3, b4, b5, b6, b7; try discriminate 1; reflexivity.
Qed.

Lemma digit_word (c : ascii) : Char.is_digit c = true -> Char.is_word c = true.
Proof.
  destruct c as [b0 b1 b2 b3 b4 b5 b6 b7].
  destruct b0, b1, b2, b3, b4, b5, b6, b7; try discriminate 1; reflexivity.
Qed.

Lemma all_impl (P Q : ascii -> bool) (s : string) :
  (forall c, P c = true -> Q c = true) -> Str.all P s = true -> Str.all Q s = true.
Proof.
  intros H. induction s as [| c s IH]; simpl; [reflexivity |]. intros Hs.
  apply andb_prop in Hs. destruct Hs as [Hc Hs]. rewrite (H c Hc), IH by exact Hs.
  reflexivity.
Qed.

(** The inside of a label: word characters, and at least one. *)
Lemma is_label_inside (body : string) :
  is_label (String "<" (body ++ ">")) = true ->
  Str.all Char.is_word body = true /\ body <> EmptyString.
Proof.
  unfold is_label. set (s := body ++ ">"). intros H.
  apply andb_prop in H. destruct H as [H H3]. apply andb_prop in H. destruct H as [H1 H2].
  apply String.eqb_eq in H3.
  assert (Es : s = (run kind_char s ++ run Char.is_digit (skip kind_char s)) ++ ">").
  { rewrite append_assoc, <- H3, run_skip, run_skip. reflexivity. }
  apply append_inv_tail in Es. rewrite Es. split.
  - rewrite all_append.
    rewrite (all_impl kind_char Char.is_word _ kind_char_word (run_all _ _)).
    rewrite (all_impl Char.is_digit Char.is_word _ digit_word (run_all _ _)).
    reflexivity.
  - destruct (run kind_char s); [discriminate H1 | discriminate].
Qed.


(** [replace_text] leaves a working text that is a label <KIND_N> as it is
    and records nothing, for every text it is asked to replace but the
    inside KIND_N of the label itself. *)
Theorem label_inert_to_replace_text (body x t_id : string) (st : state) :
  is_label (String "<" (body ++ ">")) = true ->
  ascii_text x = true -> x <> EmptyString -> x <> body ->
  replace_text (String "<" (body ++ ">")) x t_id st = (Ok (String "<" (body ++ ">")), st).
Proof.
  intros Hl Hx Hne Hxb. destruct (is_label_inside body Hl) as [Hb Hbn].
  apply (@replace_with_none pat_text _ x t_id _ st (compile_text x Hx)).
  cbn [Re.form]. apply no_match_text_label; assumption.
Qed.

Lemma label_inert_to_replace_text_witness :
  replace_text (String "<" ("DATUM_10000" ++ ">")) "2020" "<DATUM_$>" initial_state
  = (Ok (String "<" ("DATUM_10000" ++ ">")), initial_state).
Proof.
  apply (@label_inert_to_replace_text "DATUM_10000" "2020" "<DATUM_$>" initial_state).
  - vm_compute. reflexivity.
  - vm_compute. reflexivity.
  - discriminate.
  - discriminate.
Defined.


(** ** Tokens of word characters *)

Ltac by_bits c :=
  destruct c as [b0 b1 b2 b3 b4 b5 b6 b7];
  destruct b0, b1, b2, b3, b4, b5, b6, b7; try discriminate 1; reflexivity.

Lemma alpha_word (c : ascii) : Char.is_alpha c = true -> Char.is_word c = true.
Proof. by_bits c. Qed.

Lemma word_not_space (c : ascii) : Char.is_word c = true -> Char.is_space c = false.
Proof. by_bits c. Qed.

Lemma word_not_newline (c : ascii) : Char.is_word c = true -> Ascii.eqb Char.nl c = false.
Proof. by_bits c. Qed.

Lemma word_not_hyphen (c : ascii) : Char.is_word c = true -> Ascii.eqb "-" c = false.
Proof. by_bits c. Qed.

Lemma word_not_slash (c : ascii) : Char.is_word c = true -> Ascii.eqb "/" c = false.
Proof. by_bits c. Qed.

Lemma word_not_blank (c : ascii) : Char.is_word c = true -> Ascii.eqb " " c = false.
Proof. by_bits c. Qed.

Lemma word_not_dot (c : ascii) : Char.is_word c = true -> Ascii.eqb "." c = false.
Proof. by_bits c. Qed.

Lemma word_not_angle (c : ascii) : Char.is_word c = true -> Ascii.eqb "<" c = false.
Proof. by_bits c. Qed.

Lemma word_ascii (c : ascii) : Char.is_word c = true -> (Char.code c <? 128)%nat = true.
Proof. by_bits c. Qed.

Lemma digit_not_alpha (c : ascii) : Char.is_digit c = true -> Char.is_alpha c = false.
Proof. by_bits c. Qed.

Lemma lower_alpha (c : ascii) : Char.is_alpha (Char.lower c) = Char.is_alpha c.
Proof.
  destruct c as [b0 b1 b2 b3 b4 b5 b6 b7].
  destruct b0, b1, b2, b3, b4, b5, b6, b7; reflexivity.
Qed.

(** The characters at which [tokenize_reports] splits a line. *)
Lemma compile_punctuation :
  Re.compile "[,;:()!?.]"
  = Ok {| Re.form :=
            Re.RSeq (Re.RSet false
                       [Re.CChar ","; Re.CChar ";"; Re.CChar ":"; Re.CChar "(";
                        Re.CChar ")"; Re.CChar "!"; Re.CChar "?"; Re.CChar "."])
                    Re.REps;
          Re.groups := 0 |}.
Proof. vm_compute. reflexivity. Qed.

Lemma word_not_punctuation (c : ascii) :
  Char.is_word c = true ->
  Re.in_set false
    [Re.CChar ","; Re.CChar ";"; Re.CChar ":"; Re.CChar "("; Re.CChar ")"; Re.CChar "!";
     Re.CChar "?"; Re.CChar "."] c = false.
Proof. by_bits c. Qed.

Lemma no_match_set (neg : bool) (items : list Re.citem) (r : Re.regex) (s : string) :
  Str.any (Re.in_set neg items) s = false -> no_match (Re.RSeq (Re.RSet neg items) r) s.
Proof.
  intros H pre a' k E. subst s. rewrite any_append in H.
  apply orb_false_iff in H. destruct H as [_ H].
  cbn [Re.m]. unfold Re.one. cbn [Re.aft]. destruct a' as [| c a']; [reflexivity |].
  cbn [Str.any] in H. apply orb_false_iff in H. destruct H as [H _]. rewrite H. reflexivity.
Qed.

Lemma contains_char (c : ascii) (s : string) :
  Str.contains (String c "") s = Str.any (Ascii.eqb c) s.
Proof.
  unfold Str.contains. induction s as [| b s IH]; [reflexivity |].
  cbn [Str.find Str.prefixb Str.any]. destruct (Ascii.eqb c b); cbn [andb orb].
  - destruct s; reflexivity.
  - destruct (Str.find (String c "") s); cbn [option_map] in *; exact IH.
Qed.

Lemma split_char_one (sep : ascii) (a : string) :
  Str.any (Ascii.eqb sep) a = false -> Str.split_char sep a = [a].
Proof.
  intros H. unfold Str.split_char.
  rewrite <- (append_nil_r a) at 1. rewrite split_char_acc_line by exact H.
  cbn [Str.split_char_acc]. rewrite rev_rev_append. reflexivity.
Qed.

Lemma eqb_flip (a b : ascii) : Ascii.eqb a b = Ascii.eqb b a.
Proof. apply Ascii.eqb_sym. Qed.

Lemma split_char_joined (sep : ascii) (d m y : string) :
  Str.any (Ascii.eqb sep) d = false -> Str.any (Ascii.eqb sep) m = false ->
  Str.any (Ascii.eqb sep) y = false ->
  Str.split_char sep (joined sep d m y) = [d; m; y].
Proof.
  intros Hd Hm Hy. unfold Str.split_char, joined.
  rewrite split_char_acc_line by exact Hd. cbn [Str.split_char_acc].
  rewrite Ascii.eqb_refl. rewrite (rev_rev_append d ""). cbn [Str.rev Str.rev_append append].
  rewrite split_char_acc_line by exact Hm. cbn [Str.split_char_acc].
  rewrite Ascii.eqb_refl. rewrite (rev_rev_append m ""). cbn [Str.rev Str.rev_append append].
  fold (Str.split_char sep y). rewrite split_char_one by exact Hy. reflexivity.
Qed.

Lemma split_ws_acc_word (w rest acc : string) :
  Str.any Char.is_space w = false ->
  Str.split_ws_acc (w ++ rest) acc = Str.split_ws_acc rest (Str.rev_append w acc).
Proof.
  revert acc. induction w as [| c w IH]; intros acc H; [reflexivity |].
  cbn [Str.any] in H. apply orb_false_iff in H. destruct H as [Hc Hw].
  cbn [append Str.split_ws_acc Str.rev_append]. rewrite Hc. apply IH. exact Hw.
Qed.

Lemma rev_append_not_empty (w acc : string) :
  w <> EmptyString -> Str.is_empty (Str.rev_append w acc) = false.
Proof.
  intros H. pose proof (rev_append_length w acc) as L.
  destruct (Str.rev_append w acc); [| reflexivity].
  destruct w; [congruence | simpl in L; lia].
Qed.

Lemma split_ws_one (a : string) :
  Str.any Char.is_space a = false -> a <> EmptyString -> Str.split_ws a = [a].
Proof.
  intros H Hne. unfold Str.split_ws.
  rewrite <- (append_nil_r a) at 1. rewrite split_ws_acc_word by exact H.
  cbn [Str.split_ws_acc]. rewrite rev_append_not_empty by exact Hne.
  rewrite rev_rev_append. reflexivity.
Qed.

Lemma split_ws_joined (d m y : string) :
  Str.any Char.is_space d = false -> Str.any Char.is_space m = false ->
  Str.any Char.is_space y = false ->
  d <> EmptyString -> m <> EmptyString -> y <> EmptyString ->
  Str.split_ws (joined " " d m y) = [d; m; y].
Proof.
  intros Hd Hm Hy Nd Nm Ny. unfold Str.split_ws, joined.
  rewrite split_ws_acc_word by exact Hd. cbn [Str.split_ws_acc].
  change (Char.is_space " ") with true. cbv iota.
  rewrite rev_append_not_empty by exact Nd. rewrite (rev_rev_append d ""). cbn [Str.rev Str.rev_append append].
  rewrite split_ws_acc_word by exact Hm. cbn [Str.split_ws_acc].
  change (Char.is_space " ") with true. cbv iota.
  rewrite rev_append_not_empty by exact Nm. rewrite (rev_rev_append m ""). cbn [Str.rev Str.rev_append append].
  fold (Str.split_ws y). rewrite split_ws_one by assumption. reflexivity.
Qed.

(** A line without punctuation and newline is its own only line, and its
    tokens are its words. *)
Lemma tokenize_one_line (s : string) :
  Str.any (Ascii.eqb Char.nl) s = false ->
  Str.any (Re.in_set false
             [Re.CChar ","; Re.CChar ";"; Re.CChar ":"; Re.CChar "("; Re.CChar ")";
              Re.CChar "!"; Re.CChar "?"; Re.CChar "."]) s = false ->
  tokenize_reports s = Ok [Str.split_ws s].
Proof.
  intros Hn Hp. unfold tokenize_reports. rewrite split_char_one by exact Hn.
  cbn [tokenize_lines].
  rewrite (@split_none "[,;:()!?.]" s _ compile_punctuation)
    by (cbn [Re.form]; apply no_match_set; exact Hp).
  reflexivity.
Qed.


(** ** The parts of a written date *)

Lemma isdigit_all (s : string) :
  Str.isdigit s = true -> Str.all Char.is_digit s = true /\ s <> EmptyString.
Proof.
  unfold Str.isdigit. intros H. apply andb_prop in H. destruct H as [E A].
  split; [exact A |]. intros ->. discriminate E.
Qed.

Lemma isalpha_all (s : string) :
  Str.isalpha s = true -> Str.all Char.is_alpha s = true /\ s <> EmptyString.
Proof.
  unfold Str.isalpha. intros H. apply andb_prop in H. destruct H as [E A].
  split; [exact A |]. intros ->. discriminate E.
Qed.

Lemma isdigit_word (s : string) : Str.isdigit s = true -> Str.all Char.is_word s = true.
Proof. intros H. exact (@all_impl _ _ s digit_word (proj1 (@isdigit_all s H))). Qed.

Lemma isalpha_word (s : string) : Str.isalpha s = true -> Str.all Char.is_word s = true.
Proof. intros H. exact (@all_impl _ _ s alpha_word (proj1 (@isalpha_all s H))). Qed.

Lemma in_range_int (lo hi : N) (s : string) : in_range lo hi s = true -> int_in lo hi s = Ok true.
Proof. unfold in_range. destruct (int_in lo hi s) as [[|] | e]; congruence. Qed.

Lemma day_text_parts (d : string) :
  day_text d = true ->
  Str.isdigit d = true /\ len_le d 2 = true /\ int_in 1 31 d = Ok true.
Proof.
  unfold day_text. intros H. apply andb_prop in H. destruct H as [H H3].
  apply andb_prop in H. destruct H as [H1 H2].
  repeat split; [exact H1 | exact H2 | apply in_range_int; exact H3].
Qed.

Lemma month_text_parts (m : string) :
  month_text m = true ->
  Str.isdigit m = true /\ len_le m 2 = true /\ int_in 1 12 m = Ok true.
Proof.
  unfold month_text. intros H. apply andb_prop in H. destruct H as [H H3].
  apply andb_prop in H. destruct H as [H1 H2].
  repeat split; [exact H1 | exact H2 | apply in_range_int; exact H3].
Qed.

Lemma year_text_parts (y : string) :
  year_text y = true ->
  Str.isdigit y = true /\ len_eq y 4 = true /\ century y = true.
Proof.
  unfold year_text. intros H. apply andb_prop in H. destruct H as [H H3].
  apply andb_prop in H. destruct H as [H1 H2]. repeat split; assumption.
Qed.

Lemma len_le_not_eq (s : string) (n k : nat) :
  len_le s n = true -> (n < k)%nat -> len_eq s k = false.
Proof.
  unfold len_le, len_eq. intros H L. apply Nat.leb_le in H. apply Nat.eqb_neq. lia.
Qed.

Lemma len_eq_not_eq (s : string) (n k : nat) :
  len_eq s n = true -> n <> k -> len_eq s k = false.
Proof.
  unfold len_eq. intros H L. apply Nat.eqb_eq in H. apply Nat.eqb_neq. lia.
Qed.

Lemma len_eq_not_le (s : string) (n k : nat) :
  len_eq s n = true -> (k < n)%nat -> len_le s k = false.
Proof.
  unfold len_eq, len_le. intros H L. apply Nat.eqb_eq in H. apply Nat.leb_gt. lia.
Qed.

Lemma map_empty (f : ascii -> ascii) (s : string) :
  Str.is_empty (Str.map f s) = Str.is_empty s.
Proof. destruct s; reflexivity. Qed.

Lemma isalpha_lower (t : string) : Str.isalpha (Str.lower t) = Str.isalpha t.
Proof.
  unfold Str.isalpha, Str.lower. rewrite map_empty. f_equal.
  induction t as [| c t IH]; [reflexivity |]. cbn [Str.map Str.all].
  rewrite lower_alpha, IH. reflexivity.
Qed.

Lemma alphabetic_mem (l : list string) (t : string) :
  alphabetic l = true -> Str.mem t l = true -> Str.isalpha t = true.
Proof.
  unfold alphabetic, Str.mem. induction l as [| a l IH]; [discriminate 2 |].
  cbn [forallb existsb]. intros Ha Hm.
  apply andb_prop in Ha. destruct Ha as [Ha Hl].
  apply orb_prop in Hm. destruct Hm as [Hm | Hm]; [| exact (IH Hl Hm)].
  apply String.eqb_eq in Hm. subst t. exact Ha.
Qed.

Lemma not_alpha_mem (l : list string) (t : string) :
  alphabetic l = true -> Str.isalpha t = false -> Str.mem (Str.lower t) l = false.
Proof.
  intros Hl Ht. destruct (Str.mem (Str.lower t) l) eqn:E; [| reflexivity].
  pose proof (alphabetic_mem _ _ Hl E) as A. rewrite isalpha_lower in A. congruence.
Qed.

Lemma digit_head_not_alpha (d rest : string) :
  Str.isdigit d = true -> Str.isalpha (d ++ rest) = false.
Proof.
  intros H. destruct (@isdigit_all _ H) as [A N]. destruct d as [| c d]; [congruence |].
  cbn [Str.all] in A. apply andb_prop in A. destruct A as [Hc _].
  unfold Str.isalpha. cbn [append Str.is_empty Str.all negb andb].
  rewrite (digit_not_alpha c Hc). reflexivity.
Qed.

Lemma isdigit_not_alpha (d : string) : Str.isdigit d = true -> Str.isalpha d = false.
Proof. intros H. rewrite <- (append_nil_r d). apply digit_head_not_alpha. exact H. Qed.

Lemma isalpha_not_digit (w : string) : Str.isalpha w = true -> Str.isdigit w = false.
Proof.
  intros H. destruct (Str.isdigit w) eqn:E; [| reflexivity].
  rewrite (isdigit_not_alpha w E) in H. discriminate H.
Qed.

Section MonthLists.

Variable lk : lookups.
Hypothesis months_alphabetic : alphabetic (months lk) = true.
Hypothesis abbreviated_alphabetic : alphabetic (months_abbreviated lk) = true.

Lemma not_alpha_not_month (t : string) : Str.isalpha t = false -> is_month lk t = false.
Proof.
  intros H. unfold is_month.
  rewrite (not_alpha_mem _ _ months_alphabetic H),
          (not_alpha_mem _ _ abbreviated_alphabetic H).
  reflexivity.
Qed.

Lemma month_is_alpha (t : string) : is_month lk t = true -> Str.isalpha t = true.
Proof.
  intros H. destruct (Str.isalpha t) eqn:E; [reflexivity |].
  rewrite (not_alpha_not_month t E) in H. discriminate H.
Qed.

End MonthLists.

(** ** Reading a date written with hyphens or slashes *)

Lemma prefixb_refl (x : string) : Str.prefixb x x = true.
Proof. rewrite <- (append_nil_r x) at 2. apply prefixb_append. Qed.

Lemma drop_all (x : string) : Str.drop (length x) x = EmptyString.
Proof. induction x as [| c x IH]; [reflexivity | exact IH]. Qed.

Lemma text_at_whole (x : string) :
  Re.head_is Char.is_word x = true -> Re.head_is Char.is_word (Str.rev x) = true ->
  text_at x "" x = true.
Proof.
  intros Hh Ht. unfold text_at, word_edge. rewrite prefixb_refl, drop_all.
  fold (Str.rev x). rewrite Hh, Ht. reflexivity.
Qed.

Lemma head_append (P : ascii -> bool) (a b : string) :
  a <> EmptyString -> Re.head_is P (a ++ b) = Re.head_is P a.
Proof. destruct a; [congruence | reflexivity]. Qed.

Lemma head_all (P : ascii -> bool) (a : string) :
  Str.all P a = true -> a <> EmptyString -> Re.head_is P a = true.
Proof.
  destruct a as [| c a]; [congruence |]. cbn [Str.all Re.head_is]. intros H _.
  apply andb_prop in H. tauto.
Qed.

Lemma joined_edges (sep : ascii) (d m y : string) :
  Str.isdigit d = true -> Str.isdigit y = true ->
  text_at (joined sep d m y) "" (joined sep d m y) = true.
Proof.
  intros Hd Hy. destruct (@isdigit_all _ Hd) as [Ad Nd]. destruct (@isdigit_all _ Hy) as [Ay Ny].
  apply text_at_whole.
  - unfold joined. rewrite head_append by exact Nd.
    apply head_all; [apply isdigit_word; exact Hd | exact Nd].
  - unfold joined.
    change (d ++ String sep (m ++ String sep y))
      with (d ++ (String sep "" ++ (m ++ (String sep "" ++ y)))).
    rewrite <- !append_assoc. rewrite <- rev_append_rev.
    apply head_rev_append_all; [apply isdigit_word; exact Hy | exact Ny].
Qed.


(** ** [replace_dates] on a date written with hyphens or slashes *)

Lemma steps_cons (f : string -> M string) (fs : list (string -> M string))
  (report : string) (st : state) :
  steps (f :: fs) report st
  = match f report st with
    | (Ok r, st') => steps fs r st'
    | (Raise e, st') => (Raise e, st')
    end.
Proof. reflexivity. Qed.

Lemma steps_nil (report : string) (st : state) : steps [] report st = (Ok report, st).
Proof. reflexivity. Qed.

Lemma when_false (f : string -> M string) (report : string) (st : state) :
  when false f report st = (Ok report, st).
Proof. reflexivity. Qed.

Lemma when_true (f : string -> M string) (report : string) (st : state) :
  when true f report st = f report st.
Proof. reflexivity. Qed.

Lemma guard_true (f : string -> M string) (report : string) (st : state) :
  guard (Ok true) f report st = f report st.
Proof. reflexivity. Qed.

Lemma ascii_joined (sep : ascii) (d m y : string) :
  (Char.code sep <? 128)%nat = true ->
  Str.all Char.is_word d = true -> Str.all Char.is_word m = true ->
  Str.all Char.is_word y = true ->
  ascii_text (joined sep d m y) = true.
Proof.
  intros Hs Hd Hm Hy. unfold ascii_text, joined.
  rewrite all_append. cbn [Str.all]. rewrite all_append. cbn [Str.all].
  rewrite Hs, (@all_impl _ _ d word_ascii Hd), (@all_impl _ _ m word_ascii Hm),
    (@all_impl _ _ y word_ascii Hy).
  reflexivity.
Qed.

Lemma any_joined (P : ascii -> bool) (sep : ascii) (d m y : string) :
  Str.any P (joined sep d m y) = Str.any P d || P sep || Str.any P m || Str.any P y.
Proof.
  unfold joined. rewrite any_append. cbn [Str.any]. rewrite any_append. cbn [Str.any].
  destruct (Str.any P d), (P sep), (Str.any P m); reflexivity.
Qed.

Lemma length_joined (sep : ascii) (d m y : string) :
  length (joined sep d m y) = (length d + length m + length y + 2)%nat.
Proof. unfold joined. rewrite append_length. cbn [length]. rewrite append_length. cbn [length]. lia. Qed.

Lemma joined_not_empty (sep : ascii) (d m y : string) : joined sep d m y <> EmptyString.
Proof. unfold joined. destruct d; discriminate. Qed.

Lemma date_text_joined (sep : ascii) (d m y : string) :
  sep = "-"%char \/ sep = "/"%char ->
  Str.all Char.is_word d = true -> Str.all Char.is_word m = true ->
  Str.all Char.is_word y = true ->
  date_text_of (joined sep d m y) = [d; m; y].
Proof.
  intros Hs Hd Hm Hy. unfold date_text_of. rewrite contains_char, any_joined.
  rewrite (@all_any_false _ _ d word_not_hyphen Hd), (@all_any_false _ _ m word_not_hyphen Hm),
    (@all_any_false _ _ y word_not_hyphen Hy).
  destruct Hs as [-> | ->]; cbn [orb Ascii.eqb Bool.eqb].
  - apply split_char_joined; apply (@all_any_false _ _ _ word_not_hyphen); assumption.
  - apply split_char_joined; apply (@all_any_false _ _ _ word_not_slash); assumption.
Qed.

Section NumericDate.

Variable lk : lookups.
Hypothesis months_alphabetic : alphabetic (months lk) = true.
Hypothesis abbreviated_alphabetic : alphabetic (months_abbreviated lk) = true.

Variables (sep : ascii) (d m y : string).
Hypothesis sep_joins : sep = "-"%char \/ sep = "/"%char.
Hypothesis day_ok : day_text d = true.
Hypothesis month_ok : month_text m = true.
Hypothesis year_ok : year_text y = true.

Lemma replace_dates_numeric (st : state) :
  replace_dates lk (joined sep d m y) [joined sep d m y] st
  = (Ok (label_at "<DATUM_$>" (counter st)),
     snd (record (label_at "<DATUM_$>" (counter st)) (joined sep d m y) st)).
Proof.
  destruct (@day_text_parts d day_ok) as (Dd & Ld & Id).
  destruct (@month_text_parts m month_ok) as (Dm & Lm & Im).
  destruct (@year_text_parts y year_ok) as (Dy & Ly & Cy).
  pose proof (@len_eq_not_eq y 4 2 Ly ltac:(lia)) as Ly2.
  pose proof (@len_le_not_eq d 2 4 Ld ltac:(lia)) as Ld4.
  pose proof (@not_alpha_not_month lk months_alphabetic abbreviated_alphabetic m
                (@isdigit_not_alpha m Dm)) as Mm.
  unfold replace_dates. cbv zeta.
  rewrite (@date_text_joined sep d m y sep_joins (@isdigit_word d Dd) (@isdigit_word m Dm)
             (@isdigit_word y Dy)).
  cbv beta iota.
  assert (L4 : len_eq (joined sep d m y) 4 = false).
  { unfold len_eq. rewrite length_joined. unfold len_eq in Ly. apply Nat.eqb_eq in Ly.
    apply Nat.eqb_neq. lia. }
  pose proof (@not_alpha_not_month lk months_alphabetic abbreviated_alphabetic _
                (@digit_head_not_alpha d (String sep (m ++ String sep y)) Dd)) as Mj.
  fold (joined sep d m y) in Mj.
  rewrite Dd, Dm, Dy, Ld, Lm, Ly, Ly2, Ld4, Cy, Mm, Id, Im, L4, Mj.
  cbn [andb rand rbind].
  rewrite steps_cons. cbv beta. rewrite when_false.
  rewrite steps_cons. cbv beta. rewrite when_false.
  rewrite steps_cons. cbv beta. rewrite when_false.
  rewrite steps_cons. cbv beta. rewrite when_true, guard_true. unfold text at 1.
  rewrite replace_text_whole;
    [| apply ascii_joined;
       [destruct sep_joins as [-> | ->]; reflexivity
       | apply isdigit_word; assumption ..]
     | apply joined_not_empty
     | reflexivity
     | apply joined_edges; assumption ].
  rewrite steps_cons. cbv beta. rewrite when_false.
  rewrite steps_cons. cbv beta. unfold ret at 1.
  rewrite steps_cons. cbv beta. unfold ret at 1.
  rewrite steps_cons, when_false.
  rewrite steps_cons, when_false.
  reflexivity.
Qed.

End NumericDate.


(** ** The pattern of [replace_text_end_dot] *)

Lemma compile_end_dot (x : string) :
  ascii_text x = true ->
  Re.compile (pat_end_dot x)
  = Ok {| Re.form := Re.RSeq (Re.RWordB false) (lits x Re.REps); Re.groups := 0 |}.
Proof.
  intros Hx. unfold Re.compile, pat_end_dot.
  pose proof (escape_spells_length x Hx) as Hl.
  assert (Hf : exists k,
            (4 * length ("\b" ++ Re.escape x) + 8 = S (S (S (length x + k))))%nat).
  { exists (4 * length ("\b" ++ Re.escape x) + 8 - 3 - length x)%nat.
    rewrite !append_length. cbn [length]. lia. }
  destruct Hf as [k Hf]. rewrite Hf. clear Hf.
  rewrite parse_alt_eq.
  change ("\b" ++ Re.escape x) with (String "\" (String "b" (Re.escape x))).
  rewrite parse_seq_backslash, parse_atom_wordb. cbn [rbind].
  rewrite <- (append_nil_r (Re.escape x)).
  rewrite quantify_none
    by (apply (@parse_quant_spells (Re.escape x) x); [apply spells_escape; exact Hx
                                                     | reflexivity]).
  cbn [rbind].
  replace (S (length x + k)) with (length x + S k)%nat by lia.
  rewrite (@parse_seq_spells (Re.escape x) x (spells_escape x Hx)
             "" 1 _ Re.REps "" 1 eq_refl eq_refl).
  reflexivity.
Qed.

Lemma prefixb_any (P : ascii -> bool) (x a : string) :
  Str.prefixb x a = true -> Str.any P x = true -> Str.any P a = true.
Proof.
  intros H Hx. rewrite (prefixb_split x a H), any_append, Hx. reflexivity.
Qed.

(** A text with a character that the report does not have is found
    nowhere in it. *)
Lemma no_match_lits_absent (P : ascii -> bool) (x report : string) (r0 r : Re.regex) :
  Str.any P x = true -> Str.any P report = false ->
  (forall k s, Re.m r0 k s = k s \/ Re.m r0 k s = None) ->
  no_match (Re.RSeq r0 (lits x r)) report.
Proof.
  intros Hx Hr H0 pre a' k E. subst report. rewrite m_seq.
  destruct (H0 (Re.m (lits x r) k) (Re.MState (Str.rev pre) a' (0 + length pre) [])) as [-> | ->];
    [| reflexivity].
  rewrite m_lits. destruct (Str.prefixb x a') eqn:Ep; [| reflexivity].
  rewrite any_append in Hr. apply orb_false_iff in Hr. destruct Hr as [_ Hr].
  rewrite (prefixb_any P x a' Ep Hx) in Hr. discriminate Hr.
Qed.

Lemma end_dot_absent (P : ascii -> bool) (x t_id report : string) (st : state) :
  ascii_text x = true -> Str.any P x = true -> Str.any P report = false ->
  end_dot x t_id report st = (Ok report, st).
Proof.
  intros Ha Hx Hr. unfold end_dot, replace_text_end_dot.
  apply (@replace_with_none pat_end_dot report x t_id _ st (compile_end_dot x Ha)).
  cbn [Re.form]. apply (@no_match_lits_absent P x report); [exact Hx | exact Hr |].
  intros k s. rewrite m_wordb. destruct (Re.at_boundary s); auto.
Qed.

(** A label is left alone by [replace_text] for any text other than its
    inside. *)
Lemma text_on_label (body x t_id : string) (st : state) :
  Str.all Char.is_word body = true -> body <> EmptyString ->
  ascii_text x = true -> x <> EmptyString -> x <> body ->
  text x t_id (String "<" (body ++ ">")) st = (Ok (String "<" (body ++ ">")), st).
Proof.
  intros Hb Hbn Hx Hne Hxb. unfold text.
  apply (@replace_with_none pat_text _ x t_id _ st (compile_text x Hx)).
  cbn [Re.form]. apply no_match_text_label; assumption.
Qed.

(** ** The detection passes when dates alone are enabled *)

Section DatesAlone.

Variable lk : lookups.
Hypothesis dates_alone : entities_to_anonymize lk = ["date"].

Lemma on_dates_alone (entity : string) (detector : string -> list string -> M string)
  (tokens : list string) (report : string) (st : state) :
  on lk entity detector tokens report st
  = if String.eqb entity "date" then detector report tokens st else (Ok report, st).
Proof.
  unfold on, enabled. rewrite dates_alone. cbn [Str.mem existsb].
  rewrite orb_false_r. destruct (String.eqb entity "date"); reflexivity.
Qed.

Lemma pair_eta (x : res string * state) :
  match x with
  | (Ok r, st') => (Ok r, st')
  | (Raise e, st') => (Raise e, st')
  end = x.
Proof. destruct x as [[r | e] st']; reflexivity. Qed.

Ltac skip_others :=
  repeat (rewrite steps_cons, on_dates_alone;
          match goal with
          | |- context [String.eqb ?a "date"] =>
              let b := eval vm_compute in (String.eqb a "date") in
              change (String.eqb a "date") with b
          end; cbv iota).

Lemma on_token_dates_alone (tokens : list string) (report : string) (st : state) :
  on_token lk tokens report st = replace_dates lk report tokens st.
Proof.
  unfold on_token. skip_others.
  destruct (replace_dates lk report tokens st) as [[r | e] st']; [| reflexivity].
  skip_others. reflexivity.
Qed.

Lemma on_two_gram_dates_alone (tokens : list string) (report : string) (st : state) :
  on_two_gram lk tokens report st = replace_dates lk report tokens st.
Proof.
  unfold on_two_gram. skip_others.
  destruct (replace_dates lk report tokens st) as [[r | e] st']; [| reflexivity].
  skip_others. reflexivity.
Qed.

Lemma on_three_gram_dates_alone (tokens : list string) (report : string) (st : state) :
  on_three_gram lk tokens report st = replace_dates lk report tokens st.
Proof.
  unfold on_three_gram. skip_others.
  destruct (replace_dates lk report tokens st) as [[r | e] st']; [| reflexivity].
  skip_others. reflexivity.
Qed.

Lemma detect_one_token (t report : string) (st : state) :
  detect lk [[t]] report st = replace_dates lk report [t] st.
Proof.
  unfold detect.
  change (report_n_grams [[t]] 5) with (@nil (list string)).
  change (report_n_grams [[t]] 4) with (@nil (list string)).
  change (report_n_grams [[t]] 3) with (@nil (list string)).
  change (report_n_grams [[t]] 2) with (@nil (list string)).
  change (report_n_grams [[t]] 1) with [[t]].
  cbn [List.map steps]. unfold bind, ret.
  rewrite on_token_dates_alone.
  destruct (replace_dates lk report [t] st) as [[r | e] st']; reflexivity.
Qed.

Lemma detect_three_tokens (t0 t1 t2 report : string) (st : state) :
  detect lk [[t0; t1; t2]] report st
  = steps [fun r => replace_dates lk r [t0; t1; t2];
           fun r => replace_dates lk r [t0; t1];
           fun r => replace_dates lk r [t1; t2];
           fun r => replace_dates lk r [t0];
           fun r => replace_dates lk r [t1];
           fun r => replace_dates lk r [t2]] report st.
Proof.
  unfold detect.
  change (report_n_grams [[t0; t1; t2]] 5) with (@nil (list string)).
  change (report_n_grams [[t0; t1; t2]] 4) with (@nil (list string)).
  change (report_n_grams [[t0; t1; t2]] 3) with [[t0; t1; t2]].
  change (report_n_grams [[t0; t1; t2]] 2) with [[t0; t1]; [t1; t2]].
  change (report_n_grams [[t0; t1; t2]] 1) with [[t0]; [t1]; [t2]].
  cbn [List.map steps]. unfold bind, ret.
  rewrite on_three_gram_dates_alone.
  destruct (replace_dates lk report [t0; t1; t2] st) as [[r | e] st']; [| reflexivity].
  rewrite on_two_gram_dates_alone.
  destruct (replace_dates lk r [t0; t1] st') as [[r1 | e] st1]; [| reflexivity].
  rewrite on_two_gram_dates_alone.
  destruct (replace_dates lk r1 [t1; t2] st1) as [[r2 | e] st2]; [| reflexivity].
  rewrite on_token_dates_alone.
  destruct (replace_dates lk r2 [t0] st2) as [[r3 | e] st3]; [| reflexivity].
  rewrite on_token_dates_alone.
  destruct (replace_dates lk r3 [t1] st3) as [[r4 | e] st4]; [| reflexivity].
  rewrite on_token_dates_alone.
  destruct (replace_dates lk r4 [t2] st4) as [[r5 | e] st5]; reflexivity.
Qed.

End DatesAlone.


(** ** [replace_dates] on a date written with a month name *)

Lemma ascii_append (a b : string) : ascii_text (a ++ b) = ascii_text a && ascii_text b.
Proof. apply all_append. Qed.

Lemma word_ascii_text (a : string) : Str.all Char.is_word a = true -> ascii_text a = true.
Proof. intros H. exact (@all_impl _ _ a word_ascii H). Qed.

Lemma ascii_joined_text (sep : ascii) (d m y : string) :
  (Char.code sep <? 128)%nat = true ->
  ascii_text d = true -> ascii_text m = true -> ascii_text y = true ->
  ascii_text (joined sep d m y) = true.
Proof.
  intros Hs Hd Hm Hy. unfold joined. rewrite ascii_append, Hd.
  cbn [ascii_text Str.all]. rewrite Hs. fold (ascii_text (m ++ String sep y)).
  rewrite ascii_append, Hm. cbn [ascii_text Str.all]. rewrite Hs. exact Hy.
Qed.

Lemma differ_by (P : ascii -> bool) (x body : string) :
  Str.any P x = true -> Str.any P body = false -> x <> body.
Proof. intros Hx Hb E. subst x. congruence. Qed.

Lemma date_text_word (w : string) : Str.all Char.is_word w = true -> date_text_of w = [w].
Proof.
  intros H. unfold date_text_of. rewrite contains_char.
  rewrite (@all_any_false _ _ w word_not_hyphen H).
  apply split_char_one. exact (@all_any_false _ _ w word_not_slash H).
Qed.

Section NamedDate.

Variable lk : lookups.
Hypothesis months_alphabetic : alphabetic (months lk) = true.
Hypothesis abbreviated_alphabetic : alphabetic (months_abbreviated lk) = true.

Variables (d mo y : string).
Hypothesis day_ok : day_text d = true.
Hypothesis month_ok : is_month lk mo = true.
Hypothesis year_ok : year_text y = true.

Let label : string := String "<" ("DATUM_10000" ++ ">").

Ltac date_facts :=
  destruct (@day_text_parts d day_ok) as (Dd & Ld & Id);
  destruct (@year_text_parts y year_ok) as (Dy & Ly & Cy);
  pose proof (@month_is_alpha lk months_alphabetic abbreviated_alphabetic mo month_ok) as Am;
  pose proof (@isalpha_not_digit mo Am) as Dm;
  pose proof (@len_eq_not_eq y 4 2 Ly ltac:(lia)) as Ly2;
  pose proof (@len_le_not_eq d 2 4 Ld ltac:(lia)) as Ld4;
  pose proof (@isdigit_word d Dd) as Wd;
  pose proof (@isalpha_word mo Am) as Wm;
  pose proof (@isdigit_word y Dy) as Wy;
  pose proof (@not_alpha_not_month lk months_alphabetic abbreviated_alphabetic d
                (@isdigit_not_alpha d Dd)) as Md;
  pose proof (@not_alpha_not_month lk months_alphabetic abbreviated_alphabetic y
                (@isdigit_not_alpha y Dy)) as My.

Ltac settle :=
  rewrite ?andb_true_r, ?andb_false_r; cbn [andb rand rbind];
  rewrite ?andb_true_r, ?andb_false_r; cbn [andb rand rbind].

Lemma replace_dates_named (st : state) :
  replace_dates lk (joined " " d mo y) [d; mo; y] st
  = (Ok (label_at "<DATUM_$>" (counter st)),
     snd (record (label_at "<DATUM_$>" (counter st)) (joined " " d mo y) st)).
Proof.
  date_facts. unfold replace_dates. cbv zeta.
  change (Str.join " " [d; mo ++ "."; y]) with (joined " " d (mo ++ ".") y).
  change (Str.join " " [d; mo; y]) with (joined " " d mo y).
  rewrite Dd, Dm, Dy, Ld, Ly, Ly2, Cy, Id, month_ok. settle.
  rewrite steps_cons. cbv beta. rewrite when_true, guard_true.
  rewrite steps_cons. unfold text at 1.
  rewrite replace_text_long;
    [| apply ascii_joined_text;
       [reflexivity | apply word_ascii_text; exact Wd
       | rewrite ascii_append, (word_ascii_text mo Wm); reflexivity
       | apply word_ascii_text; exact Wy]
     | rewrite !length_joined, append_length; cbn [length]; lia ].
  rewrite steps_cons. unfold text at 1.
  rewrite replace_text_whole;
    [| apply ascii_joined; [reflexivity | assumption ..]
     | apply joined_not_empty
     | reflexivity
     | apply joined_edges; assumption ].
  rewrite steps_nil.
  rewrite steps_cons, when_false.
  rewrite steps_cons, when_false.
  rewrite steps_cons, when_false.
  rewrite steps_cons, when_false.
  reflexivity.
Qed.

Lemma label_inside : Str.all Char.is_word "DATUM_10000" = true /\ "DATUM_10000" <> "".
Proof. split; [reflexivity | discriminate]. Qed.

Lemma text_label (x t_id : string) (st : state) :
  ascii_text x = true -> x <> EmptyString -> x <> "DATUM_10000" ->
  text x t_id label st = (Ok label, st).
Proof.
  intros Hx Hne Hb.
  exact (@text_on_label "DATUM_10000" x t_id st (proj1 label_inside) (proj2 label_inside)
           Hx Hne Hb).
Qed.

(** A text with a blank in it. *)
Lemma text_label_blank (a b t_id : string) (st : state) :
  Str.all Char.is_word a = true -> ascii_text b = true ->
  text (a ++ String " " b) t_id label st = (Ok label, st).
Proof.
  intros Ha Hb. apply text_label.
  - unfold ascii_text in *. rewrite all_append. cbn [Str.all].
    rewrite Hb, (@all_impl _ _ a word_ascii Ha). reflexivity.
  - destruct a; discriminate.
  - apply (@differ_by (Ascii.eqb " ")); [| reflexivity].
    rewrite any_append. cbn [Str.any Ascii.eqb Bool.eqb orb]. apply orb_true_r.
Qed.

Lemma replace_dates_day_month (st : state) :
  replace_dates lk label [d; mo] st = (Ok label, st).
Proof.
  date_facts. unfold replace_dates. cbv zeta.
  rewrite (date_text_word d Wd).
  change (Str.join " " [d; mo ++ "."]) with (d ++ String " " (mo ++ ".")).
  change (Str.join " " [d; mo]) with (d ++ String " " mo).
  rewrite Dd, Dm, Ld, Id, month_ok. settle.
  rewrite steps_cons, when_false.
  rewrite steps_cons. cbv beta. rewrite when_true, guard_true.
  rewrite steps_cons.
  assert (E : when (Str.mem (Str.lower mo) (months_abbreviated lk))
                (end_dot (d ++ String " " (mo ++ ".")) "<DATUM_$>") label st
              = (Ok label, st)).
  { destruct (Str.mem (Str.lower mo) (months_abbreviated lk)); [| reflexivity].
    rewrite when_true. apply (@end_dot_absent (Ascii.eqb " ")); [| | reflexivity].
    - rewrite ascii_append, (word_ascii_text d Wd). cbn [ascii_text Str.all].
      fold (ascii_text (mo ++ ".")). rewrite ascii_append, (word_ascii_text mo Wm).
      reflexivity.
    - rewrite any_append. cbn [Str.any Ascii.eqb Bool.eqb orb]. apply orb_true_r. }
  rewrite E. clear E.
  rewrite steps_cons, text_label_blank by (try assumption; apply word_ascii_text; assumption).
  rewrite steps_nil. rewrite steps_cons. cbv beta. unfold ret at 1. apply steps_nil.
Qed.

Lemma text_label_with (P : ascii -> bool) (x t_id : string) (st : state) :
  ascii_text x = true -> x <> EmptyString ->
  Str.any P x <> Str.any P "DATUM_10000" ->
  text x t_id label st = (Ok label, st).
Proof.
  intros Hx Hne Hd. apply text_label; [exact Hx | exact Hne |].
  intros E. apply Hd. rewrite E. reflexivity.
Qed.

Lemma alpha_not_digit (c : ascii) : Char.is_alpha c = true -> Char.is_digit c = false.
Proof. by_bits c. Qed.

Lemma digit_not_upper (c : ascii) : Char.is_digit c = true -> Char.is_upper c = false.
Proof. by_bits c. Qed.

Lemma replace_dates_month_year (st : state) :
  replace_dates lk label [mo; y] st = (Ok label, st).
Proof.
  date_facts. unfold replace_dates. cbv zeta.
  rewrite (date_text_word mo Wm).
  change (Str.join " " [mo ++ "."; y]) with ((mo ++ ".") ++ String " " y).
  change (Str.join " " [mo; y]) with (mo ++ String " " y).
  rewrite Dy, Dm, Ly, Cy, month_ok. settle.
  rewrite steps_cons, when_true.
  rewrite steps_cons.
  rewrite (@text_label_with (Ascii.eqb " ") ((mo ++ ".") ++ String " " y) "<DATUM_$>" st).
  - rewrite steps_cons, text_label_blank by (try assumption; apply word_ascii_text; assumption).
    rewrite steps_nil.
    rewrite steps_cons, when_false.
    rewrite steps_cons. cbv beta. unfold ret at 1. apply steps_nil.
  - rewrite !ascii_append, (word_ascii_text mo Wm). cbn [ascii_text Str.all].
    fold (ascii_text y). rewrite (word_ascii_text y Wy). reflexivity.
  - destruct mo; discriminate.
  - rewrite any_append. cbn [Str.any Ascii.eqb Bool.eqb orb]. rewrite orb_true_r.
    discriminate.
Qed.

Lemma replace_dates_day (st : state) : replace_dates lk label [d] st = (Ok label, st).
Proof.
  date_facts. unfold replace_dates. cbv zeta.
  rewrite (date_text_word d Wd). cbv beta iota.
  rewrite Dd, Ld4, Md. settle.
  do 7 (rewrite steps_cons; cbv beta; unfold ret at 1).
  rewrite steps_cons, when_false.
  rewrite steps_cons, when_false.
  reflexivity.
Qed.

Lemma replace_dates_month (st : state) : replace_dates lk label [mo] st = (Ok label, st).
Proof.
  date_facts. unfold replace_dates. cbv zeta.
  rewrite (date_text_word mo Wm). cbv beta iota.
  rewrite Dm, month_ok. settle.
  do 7 (rewrite steps_cons; cbv beta; unfold ret at 1).
  rewrite steps_cons, when_false.
  rewrite steps_cons, when_true.
  rewrite steps_cons.
  assert (E : when (Str.mem (Str.lower mo) (months_abbreviated lk))
                (end_dot (mo ++ ".") "<DATUM_$>") label st
              = (Ok label, st)).
  { destruct (Str.mem (Str.lower mo) (months_abbreviated lk)); [| reflexivity].
    rewrite when_true. apply (@end_dot_absent (Ascii.eqb ".")); [| | reflexivity].
    - rewrite ascii_append, (word_ascii_text mo Wm). reflexivity.
    - rewrite any_append. cbn [Str.any Ascii.eqb Bool.eqb orb]. apply orb_true_r. }
  rewrite E. clear E.
  rewrite steps_cons.
  rewrite (@text_label_with Char.is_digit mo "<DATUM_$>" st).
  - rewrite steps_nil. apply steps_nil.
  - apply word_ascii_text. exact Wm.
  - destruct (@isalpha_all mo Am) as [_ N]. exact N.
  - rewrite (@all_any_false _ _ mo alpha_not_digit (proj1 (@isalpha_all mo Am))).
    discriminate.
Qed.

Lemma replace_dates_year (st : state) : replace_dates lk label [y] st = (Ok label, st).
Proof.
  date_facts. unfold replace_dates. cbv zeta.
  rewrite (date_text_word y Wy). cbv beta iota.
  rewrite Dy, Ly, Cy, My. settle.
  do 7 (rewrite steps_cons; cbv beta; unfold ret at 1).
  rewrite steps_cons, when_true.
  rewrite (@text_label_with Char.is_upper y "<DATUM_$>" st).
  - rewrite steps_cons, when_false. reflexivity.
  - apply word_ascii_text. exact Wy.
  - destruct (@isdigit_all y Dy) as [_ N]. exact N.
  - rewrite (@all_any_false _ _ y digit_not_upper (proj1 (@isdigit_all y Dy))).
    discriminate.
Qed.

End NamedDate.


(** ** A report that is one written date *)

(** The passes after detection, and postprocessing, on the label of the
    first substitution of a fresh engine. *)
Lemma first_label_passes (date : string) :
  steps [replace_intermediate_labels; revert_intermediate_labels] "<DATUM_10000>"
    (State 10001 [("<DATUM_10000>", date)] date [])
  = (Ok "<DATUM_10000>", State 10001 [("<DATUM_10000>", date)] date []).
Proof. vm_compute. reflexivity. Qed.

Lemma first_label_postprocess (date : string) :
  postprocess_report "<DATUM_10000>" (State 10001 [("<DATUM_10000>", date)] date [])
  = (Ok "<DATUM>", after_first date [(0%Z, Z.of_nat (length date), "<DATUM>")]).
Proof. vm_compute. reflexivity. Qed.

Lemma tokenize_joined (sep : ascii) (d m y : string) :
  sep = "-"%char \/ sep = "/"%char ->
  Str.all Char.is_word d = true -> Str.all Char.is_word m = true ->
  Str.all Char.is_word y = true -> d <> EmptyString ->
  tokenize_reports (joined sep d m y) = Ok [[joined sep d m y]].
Proof.
  intros Hs Hd Hm Hy Nd.
  rewrite tokenize_one_line.
  - rewrite split_ws_one; [reflexivity | | apply joined_not_empty].
    rewrite any_joined.
    rewrite (@all_any_false _ _ d word_not_space Hd), (@all_any_false _ _ m word_not_space Hm),
      (@all_any_false _ _ y word_not_space Hy).
    destruct Hs as [-> | ->]; reflexivity.
  - rewrite any_joined.
    rewrite (@all_any_false _ _ d word_not_newline Hd),
      (@all_any_false _ _ m word_not_newline Hm),
      (@all_any_false _ _ y word_not_newline Hy).
    destruct Hs as [-> | ->]; reflexivity.
  - rewrite any_joined.
    rewrite (@all_any_false _ _ d word_not_punctuation Hd),
      (@all_any_false _ _ m word_not_punctuation Hm),
      (@all_any_false _ _ y word_not_punctuation Hy).
    destruct Hs as [-> | ->]; reflexivity.
Qed.

Lemma tokenize_named (d m y : string) :
  Str.all Char.is_word d = true -> Str.all Char.is_word m = true ->
  Str.all Char.is_word y = true ->
  d <> EmptyString -> m <> EmptyString -> y <> EmptyString ->
  tokenize_reports (joined " " d m y) = Ok [[d; m; y]].
Proof.
  intros Hd Hm Hy Nd Nm Ny.
  rewrite tokenize_one_line.
  - rewrite split_ws_joined; try assumption; try reflexivity;
      apply (@all_any_false _ _ _ word_not_space); assumption.
  - rewrite any_joined.
    rewrite (@all_any_false _ _ d word_not_newline Hd),
      (@all_any_false _ _ m word_not_newline Hm),
      (@all_any_false _ _ y word_not_newline Hy).
    reflexivity.
  - rewrite any_joined.
    rewrite (@all_any_false _ _ d word_not_punctuation Hd),
      (@all_any_false _ _ m word_not_punctuation Hm),
      (@all_any_false _ _ y word_not_punctuation Hy).
    reflexivity.
Qed.

Section LoneDate.

Variable lk : lookups.
Hypothesis dates_alone : entities_to_anonymize lk = ["date"].
Hypothesis months_alphabetic : alphabetic (months lk) = true.
Hypothesis abbreviated_alphabetic : alphabetic (months_abbreviated lk) = true.

Lemma phases_dates_alone (tokenized : list (list string)) (report : string) (st : state) :
  phases lk tokenized report st
  = match detect lk tokenized report st with
    | (Ok r, st') =>
        steps [replace_intermediate_labels; revert_intermediate_labels] r st'
    | (Raise e, st') => (Raise e, st')
    end.
Proof.
  unfold phases, passes. rewrite steps_cons.
  unfold enabled. rewrite dates_alone.
  change (Str.mem "person" ["date"]) with false. rewrite when_false.
  rewrite steps_cons. reflexivity.
Qed.

(** A report that, once cleaned, is one written date (day, month and year
    in digits joined by hyphens or by slashes, or day, month name and year
    separated by blanks), given to a fresh engine on which dates alone are
    enabled and whose month names are made of letters: [anonymize_report]
    returns "<DATUM>", and the one annotation holds the cleaned report with
    one span over all of it; the counter has advanced by one and the
    replacement map is empty again. *)
Theorem lone_written_date_is_tagged (raw date : string) :
  clean_report raw = Ok date -> written_date lk date ->
  anonymize_report lk raw initial_state
  = (Ok "<DATUM>", after_first date [(0%Z, Z.of_nat (length date), "<DATUM>")]).
Proof.
  intros Hc Hw. rewrite anonymize_report_unfold.
  pose proof (processing_spec lk raw initial_state) as Hp. rewrite Hc in Hp.
  destruct Hw as [sep d m y Hs Hd Hm Hy | d mo y Hd Hm Hy].
  - destruct (@day_text_parts d Hd) as (Dd & _ & _).
    destruct (@month_text_parts m Hm) as (Dm & _ & _).
    destruct (@year_text_parts y Hy) as (Dy & _ & _).
    rewrite (@tokenize_joined sep d m y Hs (@isdigit_word d Dd) (@isdigit_word m Dm)
               (@isdigit_word y Dy) (proj2 (@isdigit_all d Dd))) in Hp.
    rewrite Hp, phases_dates_alone, (@detect_one_token lk dates_alone).
    rewrite (@replace_dates_numeric lk months_alphabetic abbreviated_alphabetic
               sep d m y Hs Hd Hm Hy).
    change (label_at "<DATUM_$>" (counter (with_original (joined sep d m y) initial_state)))
      with "<DATUM_10000>".
    change (snd (record "<DATUM_10000>" (joined sep d m y)
                   (with_original (joined sep d m y) initial_state)))
      with (State 10001 [("<DATUM_10000>", joined sep d m y)] (joined sep d m y) []).
    rewrite first_label_passes. apply first_label_postprocess.
  - destruct (@day_text_parts d Hd) as (Dd & _ & _).
    destruct (@year_text_parts y Hy) as (Dy & _ & _).
    pose proof (@month_is_alpha lk months_alphabetic abbreviated_alphabetic mo Hm) as Am.
    rewrite (@tokenize_named d mo y (@isdigit_word d Dd) (@isalpha_word mo Am)
               (@isdigit_word y Dy) (proj2 (@isdigit_all d Dd)) (proj2 (@isalpha_all mo Am))
               (proj2 (@isdigit_all y Dy))) in Hp.
    rewrite Hp, phases_dates_alone, (@detect_three_tokens lk dates_alone).
    rewrite steps_cons.
    rewrite (@replace_dates_named lk months_alphabetic abbreviated_alphabetic d mo y Hd Hm Hy).
    change (label_at "<DATUM_$>" (counter (with_original (joined " " d mo y) initial_state)))
      with "<DATUM_10000>".
    change (snd (record "<DATUM_10000>" (joined " " d mo y)
                   (with_original (joined " " d mo y) initial_state)))
      with (State 10001 [("<DATUM_10000>", joined " " d mo y)] (joined " " d mo y) []).
    rewrite steps_cons.
    rewrite (@replace_dates_day_month lk months_alphabetic abbreviated_alphabetic d mo y
               Hd Hm Hy).
    rewrite steps_cons.
    rewrite (@replace_dates_month_year lk months_alphabetic abbreviated_alphabetic d mo y
               Hd Hm Hy).
    rewrite steps_cons.
    rewrite (@replace_dates_day lk months_alphabetic abbreviated_alphabetic d mo y
               Hd Hm Hy).
    rewrite steps_cons.
    rewrite (@replace_dates_month lk months_alphabetic abbreviated_alphabetic d mo y
               Hd Hm Hy).
    rewrite steps_cons.
    rewrite (@replace_dates_year lk months_alphabetic abbreviated_alphabetic d mo y
               Hd Hm Hy).
    rewrite steps_nil.
    rewrite first_label_passes. apply first_label_postprocess.
Qed.

End LoneDate.

Lemma lone_written_date_is_tagged_witness :
  anonymize_report date_lookups "14  januari 2020" initial_state
  = (Ok "<DATUM>",
     after_first (joined " " "14" "januari" "2020")
       [(0%Z, Z.of_nat (length (joined " " "14" "januari" "2020")), "<DATUM>")]).
Proof.
  apply (@lone_written_date_is_tagged date_lookups).
  - reflexivity.
  - vm_compute. reflexivity.
  - vm_compute. reflexivity.
  - vm_compute. reflexivity.
  - apply named_date; vm_compute; reflexivity.
Defined.


(** ** A text without the opening bracket of a label *)

Lemma fwd_lacks (P : ascii -> bool) (s s' : Re.mstate) :
  fwd s s' ->
  Str.any P (Re.bef s) = false -> Str.any P (Re.aft s) = false ->
  Str.any P (Re.bef s') = false /\ Str.any P (Re.aft s') = false.
Proof.
  intros (d & Ha & Hb & _) H1 H2. rewrite Ha, any_append in H2.
  apply orb_false_iff in H2. destruct H2 as [Hd H2].
  split; [| exact H2]. rewrite Hb, any_rev_append, Hd, H1. reflexivity.
Qed.

Lemma back_lacks (P : ascii -> bool) (n : nat) :
  forall s s0, Re.back n s = Some s0 ->
    Str.any P (Re.bef s) = false -> Str.any P (Re.aft s) = false ->
    Str.any P (Re.bef s0) = false /\ Str.any P (Re.aft s0) = false.
Proof.
  induction n as [| n IH]; intros s s0 H H1 H2; cbn [Re.back] in H.
  - inversion H; subst s0. split; assumption.
  - destruct (Re.bef s) as [| x b'] eqn:Eb; [discriminate H |].
    cbn [Str.any] in H1. apply orb_false_iff in H1. destruct H1 as [Hx H1].
    apply (IH _ _ H); cbn [Re.bef Re.aft Str.any]; [exact H1 |].
    rewrite Hx, H2. reflexivity.
Qed.

(** A form that needs a character matches at no cursor of a subject in
    which the character does not occur. *)
Lemma needs_none (c : ascii) (r : Re.regex) :
  needs c r = true ->
  forall k s,
    Str.any (Ascii.eqb c) (Re.bef s) = false -> Str.any (Ascii.eqb c) (Re.aft s) = false ->
    Re.m r k s = None.
Proof.
  induction r as [| d | | neg items | r1 IH1 r2 IH2 | r1 IH1 r2 IH2 | r0 IH lo hi greedy
                 | i r0 IH | neg r0 IH | neg w r0 IH | neg | | | ];
    cbn [needs]; intros Hn k s Hb Hs; try discriminate Hn.
  - cbn [Re.m]. unfold Re.one. destruct (Re.aft s) as [| x a'] eqn:Ea; [reflexivity |].
    cbn [Str.any] in Hs. apply orb_false_iff in Hs. destruct Hs as [Hx _].
    apply Ascii.eqb_eq in Hn. subst d. rewrite Hx. reflexivity.
  - cbn [Re.m]. apply orb_prop in Hn. destruct Hn as [Hn | Hn].
    + apply IH1; assumption.
    + destruct (Re.m r1 (Re.m r2 k) s) as [e |] eqn:Em; [| reflexivity].
      destruct (m_forward _ _ _ Em) as (s' & F & H').
      destruct (fwd_lacks _ F Hb Hs) as [Hb' Hs'].
      rewrite (IH2 Hn k s' Hb' Hs') in H'. discriminate H'.
  - cbn [Re.m]. apply andb_prop in Hn. destruct Hn as [H1 H2].
    unfold Re.orelse. rewrite (IH1 H1 k s Hb Hs). apply IH2; assumption.
  - cbn [Re.m]. apply andb_prop in Hn. destruct Hn as [Hlo Hn].
    apply Nat.ltb_lt in Hlo.
    replace (lo + length (Re.aft s) + 2)%nat with (S (lo + length (Re.aft s) + 1)) by lia.
    cbn [Re.rep_loop].
    replace (0 <? lo)%nat with true by (symmetry; apply Nat.ltb_lt; exact Hlo).
    apply IH; assumption.
  - cbn [Re.m]. apply IH; assumption.
  - destruct neg; [discriminate Hn |]. cbn [Re.m].
    rewrite (IH Hn _ s Hb Hs). reflexivity.
  - destruct neg; [discriminate Hn |]. cbn [Re.m].
    destruct (Re.back w s) as [s0 |] eqn:Eb; [| reflexivity].
    destruct (back_lacks _ _ _ Eb Hb Hs) as [Hb0 Hs0].
    rewrite (IH Hn _ s0 Hb0 Hs0). reflexivity.
Qed.

Lemma needs_no_match (c : ascii) (r : Re.regex) (s : string) :
  needs c r = true -> Str.any (Ascii.eqb c) s = false -> no_match r s.
Proof.
  intros Hn Hs pre a' k E. subst s. rewrite any_append in Hs.
  apply orb_false_iff in Hs. destruct Hs as [Hp Ha].
  apply (needs_none c r Hn); cbn [Re.bef Re.aft]; [| exact Ha].
  unfold Str.rev. rewrite any_rev_append, Hp. reflexivity.
Qed.

Lemma findall_needs (c : ascii) (p s : string) :
  pattern_needs c p = true -> Str.any (Ascii.eqb c) s = false -> Re.findall p s = Ok [].
Proof.
  unfold pattern_needs. intros Hp Hs.
  destruct (Re.compile p) as [f |] eqn:Ec; [| discriminate Hp].
  apply (@findall_none p s f Ec). apply (needs_no_match c); assumption.
Qed.

Lemma persons_needs (c : ascii) (report pattern t_id : string) (st : state) :
  pattern_needs c pattern = true -> Str.any (Ascii.eqb c) report = false ->
  replace_text_persons report pattern t_id st = (Ok report, st).
Proof.
  intros Hp Hs. unfold replace_text_persons, bind, lift.
  rewrite (findall_needs c pattern report Hp Hs). reflexivity.
Qed.

Lemma merge_loop_needs (c : ascii) (patterns : list (string * string)) (report : string)
  (st : state) :
  forallb (fun pl => pattern_needs c (fst pl)) patterns = true ->
  Str.any (Ascii.eqb c) report = false ->
  merge_loop patterns report st = (Ok report, st).
Proof.
  intros Hp Hs. induction patterns as [| [p l] patterns IH]; [reflexivity |].
  cbn [forallb fst] in Hp. apply andb_prop in Hp. destruct Hp as [H1 H2].
  cbn [merge_loop]. unfold bind. rewrite (persons_needs c _ _ _ st H1 Hs).
  apply IH. exact H2.
Qed.

Lemma merge_patterns_need_bracket :
  forallb (fun pl => pattern_needs "<" (fst pl)) (merge_patterns "ACHTERNAAM") = true
  /\ forallb (fun pl => pattern_needs "<" (fst pl)) (merge_patterns "W_ACHTERNAAM") = true
  /\ forallb (pattern_needs "<") revert_patterns = true
  /\ pattern_needs "<" label_pattern = true.
Proof. repeat split; vm_compute; reflexivity. Qed.

Lemma find_all_of_needs (c : ascii) (patterns : list string) (report : string) :
  forallb (pattern_needs c) patterns = true ->
  Str.any (Ascii.eqb c) report = false ->
  find_all_of patterns report = Ok (List.map (fun _ => []) patterns).
Proof.
  intros Hp Hs. induction patterns as [| p patterns IH]; [reflexivity |].
  cbn [forallb] in Hp. apply andb_prop in Hp. destruct Hp as [H1 H2].
  cbn [find_all_of List.map]. rewrite (findall_needs c p report H1 Hs). cbn [rbind].
  rewrite (IH H2). reflexivity.
Qed.

(** A working text in which "<" does not occur holds no label: merging
    and reversion return it as it is and leave the engine as it is, and
    postprocessing, on an engine whose replacement map is empty, returns it
    as it is and appends an annotation without spans. *)
Theorem text_without_bracket_is_left (report : string) (st : state) :
  Str.any (Ascii.eqb "<") report = false ->
  replace_intermediate_labels report st = (Ok report, st)
  /\ revert_intermediate_labels report st = (Ok report, st)
  /\ (replace_dict st = [] ->
      postprocess_report report st
      = (Ok report,
         State (counter st) [] (original_report st)
           (annotations st ++ [Annotation (original_report st) [] None]))).
Proof.
  intros Hs. destruct merge_patterns_need_bracket as (M1 & M2 & R & L).
  split; [| split].
  - unfold replace_intermediate_labels. cbn [List.map]. rewrite steps_cons.
    rewrite (merge_loop_needs "<" _ report st M1 Hs).
    rewrite steps_cons.
    rewrite (merge_loop_needs "<" _ report st M2 Hs).
    reflexivity.
  - unfold revert_intermediate_labels, bind, lift.
    rewrite (find_all_of_needs "<" revert_patterns report R Hs).
    reflexivity.
  - intros Hd. unfold postprocess_report, bind, lift, get_original_report,
      get_replace_dict, append_annotation, reset_replace_dict, ret.
    rewrite (findall_needs "<" label_pattern report L Hs).
    cbn [spans_of ret]. unfold ret. cbn [replace_dict]. rewrite Hd.
    reflexivity.
Qed.

Lemma text_without_bracket_is_left_witness :
  replace_intermediate_labels "CT thorax" initial_state = (Ok "CT thorax", initial_state)
  /\ revert_intermediate_labels "CT thorax" initial_state = (Ok "CT thorax", initial_state)
  /\ (replace_dict initial_state = [] ->
      postprocess_report "CT thorax" initial_state
      = (Ok "CT thorax",
         State (counter initial_state) [] (original_report initial_state)
           (annotations initial_state
            ++ [Annotation (original_report initial_state) [] None]))).
Proof.
  apply (@text_without_bracket_is_left "CT thorax" initial_state).
  vm_compute. reflexivity.
Defined.


(** ** Tokenizing never fails *)

Lemma pieces_no_group (c : Re.pattern) (fs : list Re.found) (tail : string) :
  Re.groups c = 0%nat -> exists l, Re.pieces c fs tail = Ok l.
Proof.
  intros Hg. induction fs as [| f fs IH]; [eexists; reflexivity |].
  destruct IH as [l Hl]. cbn [Re.pieces]. rewrite Hl. cbn [rbind]. rewrite Hg.
  eexists. reflexivity.
Qed.

Lemma split_punctuation_returns (s : string) : exists l, Re.split "[,;:()!?.]" s = Ok l.
Proof.
  unfold Re.split. rewrite compile_punctuation. cbn [rbind Re.form].
  destruct (Re.matches _ None s) as [fs tail].
  apply pieces_no_group. reflexivity.
Qed.

Lemma rev_is_token (acc : string) :
  Str.is_empty acc = false -> Str.any Char.is_space acc = false -> is_token (Str.rev acc).
Proof.
  intros He Ha. split.
  - intros E. pose proof (rev_length acc) as L. rewrite E in L.
    destruct acc; [discriminate He | simpl in L; lia].
  - unfold Str.rev. rewrite any_rev_append, Ha. reflexivity.
Qed.

Lemma split_ws_acc_tokens (s : string) :
  forall acc, Str.any Char.is_space acc = false -> Forall is_token (Str.split_ws_acc s acc).
Proof.
  induction s as [| c s IH]; intros acc Ha; cbn [Str.split_ws_acc].
  - destruct (Str.is_empty acc) eqn:He; [constructor |].
    constructor; [apply rev_is_token; assumption | constructor].
  - destruct (Char.is_space c) eqn:Ec.
    + destruct (Str.is_empty acc) eqn:He; [apply IH; reflexivity |].
      constructor; [apply rev_is_token; assumption | apply IH; reflexivity].
    + apply IH. cbn [Str.any]. rewrite Ec, Ha. reflexivity.
Qed.

Lemma tokenize_lines_returns (lines : list string) :
  exists toks,
    tokenize_lines lines = Ok toks
    /\ List.length toks = List.length lines
    /\ Forall (Forall is_token) toks.
Proof.
  induction lines as [| sentence rest IH].
  - exists []. repeat split. constructor.
  - destruct IH as (toks & Ht & Hl & Hf).
    destruct (split_punctuation_returns sentence) as [parts Hp].
    exists (Str.split_ws (Str.join " " parts) :: toks).
    cbn [tokenize_lines]. rewrite Hp. cbn [rbind]. rewrite Ht. cbn [rbind].
    split; [reflexivity |]. split; [cbn [List.length]; rewrite Hl; reflexivity |].
    constructor; [| exact Hf]. apply split_ws_acc_tokens. reflexivity.
Qed.

(** [tokenize_reports] raises on no report.  It gives one list of tokens
    for every line of the report, and every token is a text without
    whitespace that is not empty (so that the first character of a token,
    which the detectors read, is there). *)
Theorem tokenize_reports_returns (report : string) :
  exists toks,
    tokenize_reports report = Ok toks
    /\ List.length toks = List.length (Str.split_char Char.nl report)
    /\ Forall (Forall is_token) toks.
Proof.
  unfold tokenize_reports. apply tokenize_lines_returns.
Qed.


(** ** Cleaning never fails *)

(** What a repetition of a one-character class takes is a run of the
    class. *)
Lemma rep_loop_class (P : ascii -> bool) (lo : nat) (hi : option nat) (greedy : bool)
  (k : Re.mstate -> option Re.mstate) :
  forall (fuel count : nat) (last : option nat) (s e : Re.mstate),
    Re.rep_loop (Re.one P) lo hi greedy k fuel count last s = Some e ->
    exists d s',
      Str.all P d = true /\ Re.aft s = d ++ Re.aft s'
      /\ Re.pos s' = (Re.pos s + length d)%nat /\ k s' = Some e.
Proof.
  induction fuel as [| fuel IH]; intros count last s e H; [discriminate H |].
  cbn [Re.rep_loop] in H.
  assert (Hstay : k s = Some e ->
            exists d s',
              Str.all P d = true /\ Re.aft s = d ++ Re.aft s'
              /\ Re.pos s' = (Re.pos s + length d)%nat /\ k s' = Some e).
  { intros Hk. exists "", s. cbn [Str.all append length].
    repeat split; [lia | exact Hk]. }
  assert (Hmore : forall l,
            Re.one P (Re.rep_loop (Re.one P) lo hi greedy k fuel (S count) l) s = Some e ->
            exists d s',
              Str.all P d = true /\ Re.aft s = d ++ Re.aft s'
              /\ Re.pos s' = (Re.pos s + length d)%nat /\ k s' = Some e).
  { intros l Hm. unfold Re.one in Hm.
    destruct (Re.aft s) as [| x a'] eqn:Ea; [discriminate Hm |].
    destruct (P x) eqn:Px; [| discriminate Hm].
    destruct (IH _ _ _ _ Hm) as (d & s' & Hd & Ha & Hp & Hk).
    cbn [Re.aft Re.pos] in Ha, Hp.
    exists (String x d), s'. cbn [Str.all append length]. rewrite Px, Hd, Ha.
    repeat split; [lia | exact Hk]. }
  destruct (count <? lo)%nat; [eapply Hmore; exact H |].
  destruct greedy; unfold Re.orelse in H.
  - destruct (Re.may_repeat count hi && negb (Re.same_pos last s)).
    + destruct (Re.one P _ s) as [e' |] eqn:Em.
      * inversion H; subst e'. eapply Hmore; exact Em.
      * apply Hstay. exact H.
    + apply Hstay. exact H.
  - destruct (k s) as [e' |] eqn:Ek.
    + inversion H; subst e'. apply Hstay. reflexivity.
    + destruct (Re.may_repeat count hi && negb (Re.same_pos last s)); [| discriminate H].
      eapply Hmore; exact H.
Qed.

(** A match of [c+] is a run of the character [c]. *)
Lemma search_run (c : ascii) :
  forall (a b : string) (p : nat) (ma : bool) (sk : string) (f : Re.found) (e : Re.mstate),
    Re.search_from (Re.RSeq (Re.RRep (Re.RChar c) 1 None true) Re.REps) b a p ma sk
    = Some (f, e) ->
    Str.all (Ascii.eqb c) (Re.matched f) = true.
Proof.
  induction a as [| x a IH]; intros b p ma sk f e H; cbn [Re.search_from] in H.
  - destruct (Re.m _ _ _) as [e' |] eqn:Em; [| discriminate H].
    inversion H; subst f e'. cbn [Re.matched].
    destruct (Re.pos e - p)%nat; reflexivity.
  - destruct (Re.m _ _ _) as [e' |] eqn:Em.
    + inversion H; subst f e'. clear H. cbn [Re.matched].
      cbn [Re.m] in Em.
      change (fun (k0 : Re.mstate -> option Re.mstate) (s : Re.mstate) =>
                Re.one (Ascii.eqb c) k0 s) with (Re.one (Ascii.eqb c)) in Em.
      destruct (rep_loop_class _ _ _ _ _ _ _ _ _ Em) as (d & s' & Hd & Ha & Hp & Hk).
      cbn [Re.aft Re.pos] in Ha, Hp.
      destruct (ma && (Re.pos s' =? p)%nat); [discriminate Hk |].
      inversion Hk; subst s'. rewrite Hp, Ha.
      replace (p + length d - p)%nat with (length d) by lia.
      rewrite take_append. exact Hd.
    + eapply IH. exact H.
Qed.

Lemma newline_lit (x : ascii) : Ascii.eqb Char.nl x = true -> lit_char x = true.
Proof. intros H. apply Ascii.eqb_eq in H. subst x. reflexivity. Qed.

Lemma sub_returns (p repl s : string) (count : nat) (c : Re.pattern) :
  Re.compile p = Ok c -> Re.plain_repl repl = true ->
  exists out, Re.sub p repl s count = Ok out.
Proof.
  intros Hc Hr. unfold Re.sub. rewrite Hc. cbn [rbind]. rewrite Hr.
  destruct (Re.matches (Re.form c) (Re.limit_of count) s) as [fs tail].
  eexists. reflexivity.
Qed.

Lemma compile_blanks :
  Re.compile " +" = Ok {| Re.form := Re.RSeq (Re.RRep (Re.RChar " ") 1 None true) Re.REps;
                          Re.groups := 0 |}.
Proof. vm_compute. reflexivity. Qed.

Lemma compile_around (c : ascii) :
  lit_char c = true ->
  Re.compile (" *" ++ String c " *")
  = Ok {| Re.form :=
            Re.RSeq (Re.RRep (Re.RChar " ") 0 None true)
              (Re.RSeq (Re.RChar c) (Re.RSeq (Re.RRep (Re.RChar " ") 0 None true) Re.REps));
          Re.groups := 0 |}.
Proof.
  destruct c as [b0 b1 b2 b3 b4 b5 b6 b7].
  destruct b0, b1, b2, b3, b4, b5, b6, b7; try discriminate 1; intros _;
    vm_compute; reflexivity.
Qed.

Lemma compile_newlines :
  Re.compile (Str.nl ++ "+")
  = Ok {| Re.form := Re.RSeq (Re.RRep (Re.RChar Char.nl) 1 None true) Re.REps;
          Re.groups := 0 |}.
Proof. vm_compute. reflexivity. Qed.

Lemma clean_tail_returns (r3 : string) :
  exists cleaned,
    rbind (Re.sub (" *" ++ Str.nl ++ " *") Str.nl r3 0) (fun r =>
      rbind (Re.sub " *- *" "-" r 0) (fun r => Re.sub " */ *" "/" r 0)) = Ok cleaned.
Proof.
  destruct (sub_returns (" *" ++ Str.nl ++ " *") Str.nl r3 0
              (compile_around Char.nl eq_refl) eq_refl) as [r4 H4].
  rewrite H4. cbn [rbind].
  destruct (sub_returns " *- *" "-" r4 0 (compile_around "-" eq_refl) eq_refl) as [r5 H5].
  rewrite H5. cbn [rbind].
  apply (sub_returns " */ *" "/" r5 0 (compile_around "/" eq_refl) eq_refl).
Qed.

(** [clean_report] raises on no input: its patterns are fixed, and the one
    pattern it takes from the report, the run of newlines at the head of
    the report, holds newlines only. *)
Theorem clean_report_returns (raw : string) : exists cleaned, clean_report raw = Ok cleaned.
Proof.
  unfold clean_report.
  destruct (sub_returns " +" " " raw 0 compile_blanks eq_refl) as [r1 H1].
  rewrite H1. cbn [rbind].
  destruct (sub_returns (" *" ++ Str.nl ++ " *") Str.nl r1 0
              (compile_around Char.nl eq_refl) eq_refl) as [r2 H2].
  rewrite H2. cbn [rbind].
  unfold Re.search. rewrite compile_newlines. cbn [rbind Re.form].
  destruct (Re.search_from _ "" r2 0 false "") as [[f e] |] eqn:Es; cbn [rbind];
    [| apply clean_tail_returns].
  destruct (length (Re.skipped f)); [| apply clean_tail_returns].
  destruct (@sub_returns (Re.matched f) "" r2 1 _
              (compile_literal (Re.matched f)
                 (@all_impl _ _ _ newline_lit (search_run _ _ _ _ _ _ Es)))
              eq_refl) as [r3 H3].
  rewrite H3. cbn [rbind]. apply clean_tail_returns.
Qed.


(** ** [add_metadata] *)

Lemma set_meta_spec (meta : list (string * string)) (l : list annotation) :
  forall index,
    set_meta index meta l
    = match nth_error l index with
      | Some a =>
          Some (firstn index l
                ++ Annotation (ann_text a) (ann_labels a) (Some meta) :: skipn (S index) l)%list
      | None => None
      end.
Proof.
  induction l as [| a l IH]; intros index.
  - destruct index; reflexivity.
  - destruct index as [| i]; [reflexivity |].
    cbn [set_meta nth_error firstn skipn]. rewrite IH.
    destruct (nth_error l i); reflexivity.
Qed.

(** [add_metadata index meta_dict], for an index that is not negative.
    When the engine holds an annotation at the index, the call writes the
    metadata, with the version of the engine under "rra_version" whatever
    the caller gave there, into that annotation; the text and the spans of
    the annotation, every other annotation, the counter, the replacement
    map and the original report stay as they are.  When it holds none, the
    call raises [IndexError] and changes nothing. *)
Theorem add_metadata_at_index (index : nat) (meta_dict : list (string * string))
  (st : state) :
  add_metadata index meta_dict st
  = match nth_error (annotations st) index with
    | Some a =>
        (Ok tt,
         State (counter st) (replace_dict st) (original_report st)
           (firstn index (annotations st)
            ++ Annotation (ann_text a) (ann_labels a)
                 (Some (Dict.set "rra_version" rra_version meta_dict))
               :: skipn (S index) (annotations st))%list)
    | None => (Raise IndexError, st)
    end
  /\ Dict.get "rra_version" (Dict.set "rra_version" rra_version meta_dict) = Some "v1.0.0"
  /\ (forall k, k <> "rra_version" ->
        Dict.get k (Dict.set "rra_version" rra_version meta_dict) = Dict.get k meta_dict)
  /\ (nth_error (annotations st) index = None
      <-> (List.length (annotations st) <= index)%nat).
Proof.
  split; [| split; [| split]].
  - unfold add_metadata. rewrite set_meta_spec.
    destruct (nth_error (annotations st) index); reflexivity.
  - apply dict_set_same.
  - intros k Hk. apply dict_set_other. exact Hk.
  - apply nth_error_None.
Qed.


(** C3 (counterexample): on "Dr. J. Hendrix, internist" the engine does not
    return "<PERSOON>, <TITELS_ACHTER>". *)
Lemma hendrix_output_has_no_title_tag :
  fst (fresh_run hendrix_config ["person"] "Dr. J. Hendrix, internist")
  <> Ok "<PERSOON>, <TITELS_ACHTER>".
Proof. vm_compute. discriminate. Qed.

(** C3 (amended): on "Dr. J. Hendrix, internist", with the family name
    "hendrix", the title "dr" before names, the title "internist" after
    names and nothing else in the configuration, person anonymization
    enabled alone or with all other kinds, a fresh engine returns one person
    tag and no title tag.  With "dr" in the abbreviated list of titles
    before names, title, initial and family name merge into one person tag
    over the characters 0 to 14 and the trailing title, which no pattern
    absorbed, is reverted to its text.  With "dr" in the full list the title
    is not taken with its dot: initial, family name and trailing title merge
    into one person tag over the characters 4 to 25 and "Dr." is reverted.
    Four substitutions and one merge leave the counter at 10005. *)
Theorem hendrix_output_reverts_trailing_title (dr_full internist_full all_kinds : bool) :
  fresh_run (hendrix_config_with dr_full internist_full) (person_kinds all_kinds)
    "Dr. J. Hendrix, internist"
  = if dr_full
    then (Ok "Dr. <PERSOON>",
          {| counter := 10005;
             replace_dict := [];
             original_report := "Dr. J. Hendrix, internist";
             annotations :=
               [Annotation "Dr. J. Hendrix, internist" [(4, 25, "<PERSOON>")%Z] None] |})
    else (Ok "<PERSOON>, internist",
          {| counter := 10005;
             replace_dict := [];
             original_report := "Dr. J. Hendrix, internist";
             annotations :=
               [Annotation "Dr. J. Hendrix, internist" [(0, 14, "<PERSOON>")%Z] None] |}).
Proof. destruct dr_full, internist_full, all_kinds; vm_compute; reflexivity. Qed.

(** C9 (failing input): a report-status block whose name line holds an
    opening parenthesis, and an addendum line whose text after "door"
    holds one, make [anonymize_report] raise [re.error]: both
    preprocessors use the captured text as a pattern without escaping it. *)
Theorem preprocessors_raise_on_metacharacters :
  fst (fresh_run sample_config default_entities unbalanced_status_report) = Raise ReError
  /\ fst (fresh_run sample_config default_entities "ADDENDUM: >> door Jansen (arts")
     = Raise ReError.
Proof. split; vm_compute; reflexivity. Qed.

(** C2 (failing input): a capitalised word after a cue and a title is
    tagged at its first occurrence in the report.  The text gets the tag
    "<TEMP_PERSOON>" there, the annotation the tag "<PERSOON>": the text
    rebuilt from the annotation is not the returned text. *)
Theorem annotation_does_not_rebuild_output :
  exists st a,
    fresh_run sample_config default_entities "Smit is gezien. Verwijzer: dr Smit"
    = (Ok "<TEMP_PERSOON> is gezien. Verwijzer: <PERSOON>", st)
    /\ last_annotation st = Some a
    /\ ann_labels a = [(0, 4, "<PERSOON>"); (27, 34, "<PERSOON>")]%Z
    /\ reconstruct a = "<PERSOON> is gezien. Verwijzer: <PERSOON>".
Proof.
  eexists. eexists. split; [vm_compute; reflexivity |].
  split; [vm_compute; reflexivity |].
  split; vm_compute; reflexivity.
Qed.

(** C1.  A date that is followed by a hyphen between blanks stays in the
    output.  Cleaning removes the blanks around the hyphen, which attaches
    the date to it, and [replace_text] takes no text that a hyphen follows
    or precedes: "14-01-2020 - CT" comes back as "14-01-2020-CT" with no
    span recorded, and of "CT - 14 januari 2020" the day stays. *)
Theorem date_before_hyphen_is_kept :
  fresh_run sample_config default_entities "14-01-2020 - CT"
  = (Ok "14-01-2020-CT",
     {| counter := 10000;
        replace_dict := [];
        original_report := "14-01-2020-CT";
        annotations := [Annotation "14-01-2020-CT" [] None] |})
  /\ fresh_run sample_config default_entities "CT thorax 14/01/2020 - geen afwijkingen"
     = (Ok "CT thorax 14/01/2020-geen afwijkingen",
        {| counter := 10001;
           replace_dict := [];
           original_report := "CT thorax 14/01/2020-geen afwijkingen";
           annotations := [Annotation "CT thorax 14/01/2020-geen afwijkingen" [] None] |})
  /\ fresh_run sample_config default_entities "CT - 14 januari 2020"
     = (Ok "CT-14 <DATUM>",
        {| counter := 10001;
           replace_dict := [];
           original_report := "CT-14 januari 2020";
           annotations := [Annotation "CT-14 januari 2020" [(6, 18, "<DATUM>")%Z] None] |}).
Proof. repeat split; vm_compute; reflexivity. Qed.
